(** * VisionVault: chunk alignment, point identifiers, ingestion and the
      adaptive cutoff

    A shallow embedding of the parts of VisionVault that carry its
    algorithmic content:

    - [processing/chunking.py]: [align_transcript_and_captions];
    - [vectorstore/qdrant_store.py]: the collection name chosen by
      [QdrantStore.__init__] and [_as_qdrant_point_id] inside [upsert];
    - [processing/pipeline.py]: the cancel flag, [ingest_video] and the
      closure [_filter_hits] of [search];
    - [processing/extract_frames.py]: [parse_frame_number],
      [frame_number_to_timestamp_seconds] and the names of the frame
      files;
    - [retrieval/rerank.py]: [Reranker];
    - [embeddings/faiss_index.py]: [FaissStore];
    - [processing/download_video.py]: [download_youtube];
    - [processing/pipeline.py], again: the dictionaries of chunks and
      hits that [ingest_video] and [search] build;
    - [app/routes.py]: [ingest] and [get_video_frame].

    Python values are modelled as follows.  An [int] is a [Z].  A [str] is a
    [string] whose characters are the code points below 256.  A [float] is
    any type carrying the operations of the class [PyFloat]; two instances
    are given, exact rationals [Q] and the binary64 numbers of the kernel.
    A [dict] read with fixed keys is a record; a [dict] read with computed
    keys is a [gmap].  Code that raises returns in an error monad. *)

From Stdlib Require Import ZArith QArith Qabs String Ascii List Sorted Lia.
From Stdlib Require Import PrimFloat FloatOps SpecFloat FloatAxioms.
From Stdlib Require Import DecimalString DecimalZ DecimalPos.
From stdpp Require Import base list gmap strings.

Set Warnings "-inexact-float".

Local Open Scope string_scope.
Local Open Scope Z_scope.

(** ** Python built-ins used by the sources *)

Module Py.

(** [c.isspace()] for a code point below 256. *)
Definition isspace (c : ascii) : bool :=
  let n := N_of_ascii c in
  ((9 <=? n) && (n <=? 13) || (28 <=? n) && (n <=? 32)
   || (n =? 133) || (n =? 160))%N.

(** The blanks that [int] skips around a number: the ASCII blanks of C,
    and the two blanks above 127, which [int] first turns into spaces. *)
Definition isspace_int (c : ascii) : bool :=
  let n := N_of_ascii c in
  ((9 <=? n) && (n <=? 13) || (n =? 32) || (n =? 133) || (n =? 160))%N.

(** [c.isdigit()] for a code point below 256: the ASCII digits and the
    superscripts one, two and three. *)
Definition isdigit_char (c : ascii) : bool :=
  let n := N_of_ascii c in
  ((48 <=? n) && (n <=? 57) || (n =? 178) || (n =? 179) || (n =? 185))%N.

Fixpoint all_chars (p : ascii -> bool) (s : string) : bool :=
  match s with
  | EmptyString => true
  | String c s' => p c && all_chars p s'
  end.

(** [s.isdigit()]: every character is a digit and there is at least one. *)
Definition isdigit (s : string) : bool :=
  match s with
  | EmptyString => false
  | _ => all_chars isdigit_char s
  end.

Fixpoint lstrip_with (p : ascii -> bool) (s : string) : string :=
  match s with
  | EmptyString => EmptyString
  | String c s' => if p c then lstrip_with p s' else s
  end.

Fixpoint rstrip_with (p : ascii -> bool) (s : string) : string :=
  match s with
  | EmptyString => EmptyString
  | String c s' =>
      match rstrip_with p s' with
      | EmptyString => if p c then EmptyString else String c EmptyString
      | r => String c r
      end
  end.

Definition strip_with (p : ascii -> bool) (s : string) : string :=
  rstrip_with p (lstrip_with p s).

(** [s.strip()] *)
Definition strip : string -> string := strip_with isspace.

Definition is_brace (c : ascii) : bool :=
  (Ascii.eqb c "{" || Ascii.eqb c "}")%char.

(** [s.strip('{}')] *)
Definition strip_braces : string -> string := strip_with is_brace.

(** [s.replace(old, '')] for a non-empty [old]: occurrences are removed
    from left to right, without overlap.  [skip] counts the characters of
    a match still to be dropped. *)
Fixpoint remove_go (old : string) (skip : nat) (s : string) : string :=
  match s with
  | EmptyString => EmptyString
  | String c s' =>
      match skip with
      | S n => remove_go old n s'
      | O =>
          if String.prefix old s
          then remove_go old (Nat.pred (String.length old)) s'
          else String c (remove_go old O s')
      end
  end.

Definition remove_all (old s : string) : string := remove_go old O s.

(** [sep.join(parts)] *)
Definition join (sep : string) (parts : list string) : string :=
  String.concat sep parts.

(** [str(n)] for an [int]. *)
Definition str_of_int (n : Z) : string :=
  NilZero.string_of_int (Z.to_int n).

(** The value of a character as a digit, as [int] reads it in any base. *)
Definition digit_value (c : ascii) : option Z :=
  let n := Z.of_N (N_of_ascii c) in
  if (48 <=? n) && (n <=? 57) then Some (n - 48)
  else if (97 <=? n) && (n <=? 122) then Some (n - 87)
  else if (65 <=? n) && (n <=? 90) then Some (n - 55)
  else None.

(** The digits of [int(s, base)]: digits below [base], with single
    underscores between them.  Returns the value read and the rest of the
    string; [None] when there is no digit, a doubled underscore or an
    underscore at the end of the digits. *)
Fixpoint scan_digits (base : Z) (prev_us seen : bool) (acc : Z)
         (s : string) : option (Z * string) :=
  let stop :=
    if prev_us then None else if seen then Some (acc, s) else None in
  match s with
  | EmptyString => stop
  | String c s' =>
      if Ascii.eqb c "_"
      then if prev_us then None else scan_digits base true seen acc s'
      else
        match digit_value c with
        | Some d =>
            if d <? base
            then scan_digits base false true (acc * base + d) s'
            else stop
        | None => stop
        end
  end.

Definition drop_sign (s : string) : bool * string :=
  match s with
  | String "+" s' => (false, s')
  | String "-" s' => (true, s')
  | _ => (false, s)
  end.

(** After the sign, base 16 accepts [0x] or [0X], and one underscore
    right after it. *)
Definition drop_prefix (base : Z) (s : string) : string :=
  match s with
  | String "0" (String x s') =>
      if (base =? 16) && (Ascii.eqb x "x" || Ascii.eqb x "X")
      then match s' with
           | String "_" s'' => s''
           | _ => s'
           end
      else s
  | _ => s
  end.

(** [int(s, base)] for base 10 or 16; [None] stands for [ValueError].
    The interpreter's configurable limit on the number of decimal digits
    is not part of the model. *)
Definition int_of_str (base : Z) (s : string) : option Z :=
  let '(neg, s1) := drop_sign (lstrip_with isspace_int s) in
  let s2 := drop_prefix base s1 in
  match s2 with
  | String "_" _ => None
  | _ =>
      match scan_digits base false false 0 s2 with
      | Some (v, rest) =>
          match lstrip_with isspace_int rest with
          | EmptyString => Some (if neg then - v else v)
          | _ => None
          end
      | None => None
      end
  end.

(** [l[:n]] *)
Definition slice_to {A} (n : Z) (l : list A) : list A :=
  if 0 <=? n then take (Z.to_nat n) l
  else take (length l - Z.to_nat (- n)) l.

(** [sorted(l, key=key)]: the sort is stable and compares keys with [<]
    only.  Insertion from the right keeps equal keys in input order.
    This is the list the interpreter returns when [<] orders the keys,
    which it does for numbers; with a NaN among the keys the result of
    the interpreter depends on the comparisons its merge sort happens to
    make, and the statements about [sorted] exclude that case. *)
Section Sorted.
Context {A K : Type} (lt : K -> K -> bool) (key : A -> K).

Fixpoint insert_sorted (x : A) (l : list A) : list A :=
  match l with
  | [] => [x]
  | y :: l' =>
      if lt (key y) (key x) then y :: insert_sorted x l' else x :: l
  end.

Fixpoint sorted (l : list A) : list A :=
  match l with
  | [] => []
  | x :: l' => insert_sorted x (sorted l')
  end.
End Sorted.

End Py.

(** ** Floats *)

(** The operations the sources apply to [float] values.  Comparisons are
    boolean, as in Python; [x >= y] is [y <= x]. *)
Class PyFloat (F : Type) := {
  f_of_Z : Z -> F;
  fadd : F -> F -> F;
  fsub : F -> F -> F;
  fmul : F -> F -> F;
  fdiv : F -> F -> F;
  fabs : F -> F;
  flt : F -> F -> bool;
  fle : F -> F -> bool
}.

Declare Scope pyfloat_scope.
Delimit Scope pyfloat_scope with F.
Infix "+" := fadd : pyfloat_scope.
Infix "-" := fsub : pyfloat_scope.
Infix "*" := fmul : pyfloat_scope.
Infix "/" := fdiv : pyfloat_scope.
Infix "<?" := flt : pyfloat_scope.
Infix "<=?" := fle : pyfloat_scope.
Notation "x >=? y" := (fle y x) (only parsing) : pyfloat_scope.
Notation "x >? y" := (flt y x) (only parsing) : pyfloat_scope.

(** Exact rationals: no rounding, no infinities, no NaN. *)
#[export] Instance Q_float : PyFloat Q := {|
  f_of_Z := inject_Z;
  fadd := Qplus;
  fsub := Qminus;
  fmul := Qmult;
  fdiv := Qdiv;
  fabs := Qabs;
  flt := fun x y => negb (Qle_bool y x);
  fle := Qle_bool
|}.

(** IEEE 754 binary64, the representation of a Python [float]. *)
#[export] Instance binary64 : PyFloat float := {|
  f_of_Z := fun z => SF2Prim (binary_normalize prec emax z 0 false);
  fadd := PrimFloat.add;
  fsub := PrimFloat.sub;
  fmul := PrimFloat.mul;
  fdiv := PrimFloat.div;
  fabs := PrimFloat.abs;
  flt := PrimFloat.ltb;
  fle := PrimFloat.leb
|}.

(** [max(a, b)]: [b] only when it is strictly greater. *)
Definition fmax `{PyFloat F} (a b : F) : F :=
  if (b >? a)%F then b else a.

(** ** processing/chunking.py *)

Module Chunking.
Section Chunking.
Context {F : Type} {PF : PyFloat F}.

(** A transcript segment: [seg["start"]], [seg["end"]] and
    [seg.get("text")]. *)
Record Segment := {
  seg_start : F;
  seg_end : F;
  seg_text : option string
}.

(** A frame description, as [ingest_video] builds it. *)
Record FrameDesc := {
  fd_frame_file : string;
  fd_timestamp : F;
  fd_caption : string
}.

Record Chunk := {
  video_id : string;
  start : F;
  end_ : F;
  transcript : string;
  caption : string;
  frame_file : string
}.

(** The property [Chunk.text]. *)
Definition text (c : Chunk) : string :=
  Py.strip (transcript c ++ " " ++ caption c).

(** The key of the fallback sort: distance to the midpoint. *)
Definition midpoint_distance (s e : F) (x : FrameDesc) : F :=
  fabs (fd_timestamp x - ((s + e) / f_of_Z 2))%F.

Definition in_segment (s e : F) (f : FrameDesc) : bool :=
  (fd_timestamp f >=? s)%F && (fd_timestamp f <=? e)%F.

(** The list [overlaps] of one iteration, after the fallback. *)
Definition overlaps (s e : F) (frame_descriptions : list FrameDesc)
  : list FrameDesc :=
  let overlaps := List.filter (in_segment s e) frame_descriptions in
  match overlaps with
  | [] =>
      Py.slice_to 1
        (Py.sorted flt (midpoint_distance s e) frame_descriptions)
  | _ => overlaps
  end.

Definition chunk_of_segment (vid : string)
           (frame_descriptions : list FrameDesc) (seg : Segment)
  : Chunk :=
  let s := seg_start seg in
  let e := seg_end seg in
  let overlaps := overlaps s e frame_descriptions in
  let combined_caption := Py.join " | " (map fd_caption overlaps) in
  let thumb :=
    match overlaps with
    | o :: _ => fd_frame_file o
    | [] => ""
    end in
  {| video_id := vid;
     start := s;
     end_ := e;
     transcript := Py.strip (default "" (seg_text seg));
     caption := combined_caption;
     frame_file := thumb |}.

(** The loop appends one chunk per segment, in order. *)
Definition align_transcript_and_captions (vid : string)
           (transcript_segments : list Segment)
           (frame_descriptions : list FrameDesc) : list Chunk :=
  map (chunk_of_segment vid frame_descriptions) transcript_segments.

End Chunking.
Arguments Segment F : clear implicits.
Arguments FrameDesc F : clear implicits.
Arguments Chunk F : clear implicits.
End Chunking.

(** ** vectorstore/qdrant_store.py *)

Module QdrantStore.

(** The values a payload field or a supplied identifier can hold. *)
Inductive pyval (F : Type) :=
| VNone
| VInt (n : Z)
| VFloat (x : F)
| VStr (s : string).
Arguments VNone {F}.
Arguments VInt {F} n.
Arguments VFloat {F} x.
Arguments VStr {F} s.

(** A point identifier accepted by the service: an integer or the text
    of a UUID. *)
Inductive point_id :=
| PidInt (n : Z)
| PidStr (s : string).

Record QdrantConfig := {
  url : string;
  api_key : option string;
  cfg_collection : string
}.

Record QdrantStore := {
  dim : Z;
  cfg : QdrantConfig;
  collection : string
}.

(** [f"{base}_d{self.dim}"] *)
Definition collection_name (base : string) (dim : Z) : string :=
  base ++ "_d" ++ Py.str_of_int dim.

(** [QdrantStore.__init__]: [cfg or _env_config()], then the collection
    name.  [None] stands for the [RuntimeError] raised without a
    configuration. *)
Definition __init__ (dim : Z) (cfg env_config : option QdrantConfig)
  : option QdrantStore :=
  match (match cfg with Some c => Some c | None => env_config end) with
  | None => None
  | Some c =>
      Some {| dim := dim; cfg := c;
              collection := collection_name (cfg_collection c) dim |}
  end.

(** ['%032x' % n], for [0 <= n < 2^128]. *)
Definition hex_char (d : Z) : ascii :=
  match String.get (Z.to_nat d) "0123456789abcdef" with
  | Some c => c
  | None => "0"%char
  end.

Fixpoint hex_digits (width : nat) (n : Z) (acc : string) : string :=
  match width with
  | O => acc
  | S w => hex_digits w (n / 16) (String (hex_char (n mod 16)) acc)
  end.

(** [str(uuid.UUID(int=n))]: 32 hexadecimal digits in groups of
    8-4-4-4-12. *)
Definition uuid_str (n : Z) : string :=
  let hex := hex_digits 32 n "" in
  String.substring 0 8 hex ++ "-" ++ String.substring 8 4 hex ++ "-"
  ++ String.substring 12 4 hex ++ "-" ++ String.substring 16 4 hex
  ++ "-" ++ String.substring 20 12 hex.

(** [uuid.UUID(s)], the value it holds; [None] stands for [ValueError]. *)
Definition uuid_int (s : string) : option Z :=
  let hex := Py.remove_all "uuid:" (Py.remove_all "urn:" s) in
  let hex := Py.remove_all "-" (Py.strip_braces hex) in
  if negb (String.length hex =? 32)%nat then None
  else
    match Py.int_of_str 16 hex with
    | Some n => if (0 <=? n) && (n <? 2 ^ 128) then Some n else None
    | None => None
    end.

Section Upsert.
Context {F : Type} {PF : PyFloat F}.
(** [repr] of a float, and the 128-bit value of
    [uuid.uuid5(uuid.NAMESPACE_URL, name)]: library functions, taken
    as given. *)
Variable float_str : F -> string.
Variable uuid5 : string -> Z.

(** [str(v)], which is also what an f-string inserts. *)
Definition py_str (v : pyval F) : string :=
  match v with
  | VNone => "None"
  | VInt n => Py.str_of_int n
  | VFloat x => float_str x
  | VStr s => s
  end.

Definition truthy (v : pyval F) : bool :=
  match v with
  | VNone => false
  | VInt n => negb (n =? 0)
  | VFloat x => negb ((x <=? f_of_Z 0)%F && (f_of_Z 0 <=? x)%F)
  | VStr s => negb (String.eqb s "")
  end.

(** [a or b] *)
Definition py_or (a b : pyval F) : pyval F :=
  if truthy a then a else b.

Definition fallback_id (fallback_key : string) : point_id :=
  PidStr (uuid_str (uuid5 fallback_key)).

(** [None] stands for the [ValueError] that [int(s)] raises outside
    the [try]. *)
Definition _as_qdrant_point_id (raw : pyval F) (fallback_key : string)
  : option point_id :=
  match raw with
  | VNone => Some (fallback_id fallback_key)
  | VInt n => Some (PidInt n)
  | _ =>
      let s := Py.strip (py_str raw) in
      if String.eqb s "" then Some (fallback_id fallback_key)
      else if Py.isdigit s then
        match Py.int_of_str 10 s with
        | Some n => Some (PidInt n)
        | None => None
        end
      else
        match uuid_int s with
        | Some n => Some (PidStr (uuid_str n))
        | None => Some (fallback_id fallback_key)
        end
  end.

(** [payloads[i].get(k, dflt)] *)
Definition get (p : gmap string (pyval F)) (k : string)
           (dflt : pyval F) : pyval F :=
  default dflt (p !! k).

Definition fallback_key (p : gmap string (pyval F)) (i : Z) : string :=
  let vid := get p "video_id" (VStr "vid") in
  let start := get p "start" (VStr "") in
  let end_ := get p "end" (VStr "") in
  py_str vid ++ ":" ++ py_str start ++ ":" ++ py_str end_ ++ ":"
  ++ Py.str_of_int i.

(** [payloads[i].get("point_id") or payloads[i].get("chunk_id")] *)
Definition raw_pid (p : gmap string (pyval F)) : pyval F :=
  py_or (get p "point_id" VNone) (get p "chunk_id" VNone).

(** The identifier of the [i]-th point of [upsert]. *)
Definition point_id_of (p : gmap string (pyval F)) (i : Z)
  : option point_id :=
  _as_qdrant_point_id (raw_pid p) (fallback_key p i).

Record PointStruct := {
  ps_id : point_id;
  ps_vector : list F;
  ps_payload : gmap string (pyval F)
}.

(** The points of one [upsert], for [i] in [range(N)] from [i0]. *)
Fixpoint points_from (i0 : Z) (rows : list (list F * gmap string (pyval F)))
  : option (list PointStruct) :=
  match rows with
  | [] => Some []
  | (v, p) :: rest =>
      match point_id_of p i0 with
      | Some pid =>
          match points_from (i0 + 1) rest with
          | Some ps =>
              Some ({| ps_id := pid; ps_vector := v; ps_payload := p |}
                      :: ps)
          | None => None
          end
      | None => None
      end
  end.

(** The service, seen from the client: the points sent to each
    collection, latest call last. *)
Definition server := gmap string (list PointStruct).

Inductive upsert_error := PayloadLengthMismatch | BadPointId.

(** [upsert]: the length check, then one call that writes to
    [self.collection] only. *)
Definition upsert (st : QdrantStore) (vectors : list (list F))
           (payloads : list (gmap string (pyval F))) (srv : server)
  : upsert_error + server :=
  if negb (length payloads =? length vectors)%nat
  then inl PayloadLengthMismatch
  else
    match points_from 0 (zip vectors payloads) with
    | None => inl BadPointId
    | Some points =>
        inr (<[collection st :=
                 (default [] (srv !! collection st) ++ points)%list]> srv)
    end.

(** What [search] can see: the points of [self.collection]. *)
Definition searched (st : QdrantStore) (srv : server)
  : list PointStruct :=
  default [] (srv !! collection st).

End Upsert.

End QdrantStore.

(** ** processing/extract_frames.py *)

Module ExtractFrames.

(** [s.rsplit(sep, 1)] when [sep] occurs: the text before and after its
    last occurrence. *)
Fixpoint rsplit1 (sep : ascii) (s : string) : option (string * string) :=
  match s with
  | EmptyString => None
  | String c s' =>
      match rsplit1 sep s' with
      | Some (a, b) => Some (String c a, b)
      | None => if Ascii.eqb c sep then Some (EmptyString, s') else None
      end
  end.

(** [Path(name).stem] for a file name without directory: the name
    without its last suffix; a leading or a final dot is no suffix. *)
Definition stem (name : string) : string :=
  match rsplit1 "." name with
  | Some (String c a, String d b) => String c a
  | _ => name
  end.

(** [s.split("_")[-1]] *)
Definition last_field (s : string) : string :=
  match rsplit1 "_" s with
  | Some (_, b) => b
  | None => s
  end.

(** [None] stands for the [ValueError] of [int]. *)
Definition parse_frame_number (frame_filename : string) : option Z :=
  Py.int_of_str 10 (last_field (stem frame_filename)).

(** [None] stands for [ZeroDivisionError]. *)
Definition frame_number_to_timestamp_seconds `{PyFloat F}
           (frame_number : Z) (fps : F) : option F :=
  if (fps <=? f_of_Z 0)%F && (f_of_Z 0 <=? fps)%F then None
  else Some (fmax (f_of_Z 0) (f_of_Z (frame_number - 1) / fps)%F).

End ExtractFrames.

(** ** processing/pipeline.py *)

Module Pipeline.

(** *** Exceptions, state and the collaborators *)

Inductive exn :=
| RuntimeError (msg : string)
| FileNotFoundError (msg : string)
| ValueError (msg : string)
| ZeroDivisionError
| OSError (msg : string).

Inductive result (A : Type) :=
| Ok (a : A)
| Raise (e : exn).
Arguments Ok {A} a.
Arguments Raise {A} e.

(** What [_check_cancel] raises. *)
Definition Cancelled : exn := RuntimeError "Ingest cancelled".

(** The calls of [ingest_video] that leave the process: a cancel request
    of another thread can land while one of them is in flight. *)
Inductive stage :=
| StSetup | StDownload | StCopy | StAudio | StFrames | StTranscribe
| StCaption | StWriteChunks | StLoadEmbedder | StEmbed | StStoreInit
| StUpsert | StFaissAdd | StBuildIndex.

Section Ingest.
Context {F : Type} {PF : PyFloat F}.

Local Abbreviation Segment := (Chunking.Segment F).
Local Abbreviation FrameDesc := (Chunking.FrameDesc F).
Local Abbreviation Chunk := (Chunking.Chunk F).

(** The effects a run leaves behind, in order. *)
Inductive event :=
| EvWriteMeta (video_id : string)
| EvDownload (source : string)
| EvCopyLocal (source : string)
| EvExtractAudio
| EvExtractFrames
| EvTranscribe
| EvWriteTranscript
| EvCaptionFrames (frame_files : list string)
| EvWriteChunks (chunks : list Chunk)
| EvLoadEmbedder
| EvEmbed (texts : list string)
| EvStoreInit (collection : string)
| EvQdrantUpsert (collection : string) (chunks : list Chunk)
| EvFaissAdd (chunks : list Chunk)
| EvBuildIndex.

(** The process state: the module-level flag [_CANCEL_INGEST] and the
    effects so far. *)
Record State := {
  _CANCEL_INGEST : bool;
  trace : list event
}.

(** The collaborators and the environment of one run.  An [option] or
    a [bool] result tells whether the call returns or raises; what a
    collaborator raises is never the error of [_check_cancel].
    [local_exists] is [Path(source).exists()], [path_str] is
    [str(Path(source))], the text of the path as pathlib prints it, and
    [copy_local] tells whether the bytes of a local source can be read
    and copied: a directory or an unreadable file exists and cannot be
    copied.
    [cancel_during] tells during which calls [request_cancel_ingest] runs
    in another thread. *)
Record World := {
  new_video_id : string;
  qdrant_config : option QdrantStore.QdrantConfig;
  local_exists : string -> bool;
  path_str : string -> string;
  copy_local : string -> bool;
  download_youtube : string -> bool;
  extract_audio : bool;
  extract_frames : F -> option (list string);
  transcribe_audio : option (list Segment);
  caption_frames : list string -> option (gmap string string);
  load_embedder : bool;
  encode : list string -> option Z;
  store_init : bool;
  upsert : bool;
  faiss_add : bool;
  build_index_from_chunks : bool;
  cancel_during : stage -> bool
}.

(** Computations that read and write the process state and may raise. *)
Definition M (A : Type) : Type := State -> result A * State.

Definition ret {A} (a : A) : M A := fun st => (Ok a, st).

Definition bind {A B} (m : M A) (k : A -> M B) : M B :=
  fun st =>
    match m st with
    | (Ok a, st') => k a st'
    | (Raise e, st') => (Raise e, st')
    end.

Definition raise {A} (e : exn) : M A := fun st => (Raise e, st).

(** [try: m except Exception: pass] *)
Definition try_pass (m : M unit) : M unit :=
  fun st =>
    match m st with
    | (Ok _, st') => (Ok tt, st')
    | (Raise _, st') => (Ok tt, st')
    end.

Notation "x <- m ;; k" := (bind m (fun x => k))
  (at level 100, m at next level, right associativity).
Notation "m ;; k" := (bind m (fun _ => k))
  (at level 100, right associativity).

Definition set_cancel (b : bool) : M unit :=
  fun st => (Ok tt, {| _CANCEL_INGEST := b; trace := trace st |}).


Definition _check_cancel : M unit :=
  fun st =>
    if _CANCEL_INGEST st then (Raise Cancelled, st) else (Ok tt, st).

Variable W : World.

(** A call that leaves the process at stage [s]: the effect is
    recorded, a cancel request may land meanwhile, and the call
    returns its value or raises. *)
Definition call {A} (s : stage) (ev : event) (outcome : option A)
           (failure : exn) : M A :=
  fun st =>
    let st' :=
      {| _CANCEL_INGEST := _CANCEL_INGEST st || cancel_during W s;
         trace := trace st ++ [ev] |} in
    match outcome with
    | Some a => (Ok a, st')
    | None => (Raise failure, st')
    end.

Definition succeeds (b : bool) : option unit :=
  if b then Some tt else None.

(** The loop that builds [frame_desc]. *)
Fixpoint frame_descriptions (fps : F) (cap_map : gmap string string)
         (frame_files : list string) : result (list FrameDesc) :=
  match frame_files with
  | [] => Ok []
  | name :: rest =>
      match ExtractFrames.parse_frame_number name with
      | None => Raise (ValueError "invalid literal for int()")
      | Some n =>
          match ExtractFrames.frame_number_to_timestamp_seconds n fps with
          | None => Raise ZeroDivisionError
          | Some ts =>
              match frame_descriptions fps cap_map rest with
              | Ok ds =>
                  Ok ({| Chunking.fd_frame_file := name;
                         Chunking.fd_timestamp := ts;
                         Chunking.fd_caption :=
                           default "" (cap_map !! name) |} :: ds)
              | Raise e => Raise e
              end
          end
      end
  end.

Definition lift {A} (r : result A) : M A := fun st => (r, st).

(** [ingest_video], statement by statement.  The flag is reset first; the
    checks stand where the source has them: before the download, the
    audio extraction, the frame extraction, the transcription, the
    captioning, the embedding, the upsert of the networked store, and
    inside the [try] of the secondary index.  The local store is written
    without a check of its own.  A local source is copied, without a
    check before it, by [src.read_bytes()] and [video_path.write_bytes]:
    for a directory or an unreadable file this raises IsADirectoryError
    or PermissionError, here [OSError] with the text of the system left
    out.  The directories and the metadata record that the ingest writes
    under its own data directory are taken to be written. *)
Definition ingest_video (source_type source : string) (fps : F)
           (max_frames : option Z) (enable_captions : bool)
  : M (string * Z) :=
  set_cancel false ;;
  let video_id := new_video_id W in
  call StSetup (EvWriteMeta video_id) (Some tt) (RuntimeError "") ;;
  (if String.eqb source_type "youtube" then
     _check_cancel ;;
     call StDownload (EvDownload source)
          (succeeds (download_youtube W source))
          (RuntimeError "yt-dlp failed")
   else if String.eqb source_type "local" then
     if local_exists W source
     then call StCopy (EvCopyLocal source)
               (succeeds (copy_local W source))
               (OSError "")
     else raise (FileNotFoundError
                   ("Local video not found: " ++ path_str W source))
   else raise (ValueError "source_type must be youtube or local")) ;;
  _check_cancel ;;
  call StAudio EvExtractAudio (succeeds (extract_audio W))
       (RuntimeError "ffmpeg audio extraction failed") ;;
  frame_files <-
    (if (fps >? f_of_Z 0)%F
        && match max_frames with None => true | Some m => m >? 0 end
     then
       _check_cancel ;;
       files <- call StFrames EvExtractFrames (extract_frames W fps)
                     (RuntimeError "ffmpeg frame extraction failed") ;;
       ret match max_frames with
           | Some m => Py.slice_to m files
           | None => files
           end
     else ret []) ;;
  _check_cancel ;;
  transcript <- call StTranscribe EvTranscribe (transcribe_audio W)
                     (RuntimeError "transcription failed") ;;
  call StTranscribe EvWriteTranscript (Some tt) (RuntimeError "") ;;
  _check_cancel ;;
  cap_map <-
    (if negb enable_captions then ret ∅
     else call StCaption (EvCaptionFrames frame_files)
               (caption_frames W frame_files)
               (RuntimeError "captioning failed")) ;;
  frame_desc <- lift (frame_descriptions fps cap_map frame_files) ;;
  let chunks :=
    Chunking.align_transcript_and_captions video_id transcript
                                           frame_desc in
  call StWriteChunks (EvWriteChunks chunks) (Some tt)
       (RuntimeError "") ;;
  call StLoadEmbedder EvLoadEmbedder (succeeds (load_embedder W))
       (RuntimeError "embedding model failed to load") ;;
  let texts := map Chunking.text chunks in
  _check_cancel ;;
  dim <- call StEmbed (EvEmbed texts) (encode W texts)
              (RuntimeError "embedding failed") ;;
  match qdrant_config W with
  | Some c =>
      match QdrantStore.__init__ dim None (Some c) with
      | Some qstore =>
          call StStoreInit
               (EvStoreInit (QdrantStore.collection qstore))
               (succeeds (store_init W))
               (RuntimeError "qdrant unreachable") ;;
          _check_cancel ;;
          call StUpsert
               (EvQdrantUpsert (QdrantStore.collection qstore) chunks)
               (succeeds (upsert W)) (RuntimeError "upsert failed")
      | None =>
          raise (RuntimeError "QDRANT_URL env var not set")
      end
  | None =>
      call StFaissAdd (EvFaissAdd chunks) (succeeds (faiss_add W))
           (RuntimeError "faiss add failed")
  end ;;
  try_pass
    (_check_cancel ;;
     call StBuildIndex EvBuildIndex
          (succeeds (build_index_from_chunks W))
          (RuntimeError "index build failed")) ;;
  ret (video_id, Z.of_nat (length chunks)).

(** Vector-store writes and captioner calls among the effects. *)
Definition is_store_write (ev : event) : bool :=
  match ev with
  | EvQdrantUpsert _ _ | EvFaissAdd _ => true
  | _ => false
  end.

Definition is_caption_call (ev : event) : bool :=
  match ev with
  | EvCaptionFrames _ => true
  | _ => false
  end.

Definition store_writes (st : State) : list event :=
  List.filter is_store_write (trace st).

Definition caption_calls (st : State) : list event :=
  List.filter is_caption_call (trace st).

(** The chunk lists a run wrote to the chunk file. *)
Definition written_chunks (st : State) : list (list Chunk) :=
  omap (fun ev => match ev with
                  | EvWriteChunks cs => Some cs
                  | _ => None
                  end) (trace st).

End Ingest.

(** *** The adaptive cutoff of [search] *)

Section Cutoff.
Context {F : Type} {PF : PyFloat F}.

(** A hit carries its scores, when the keys are present, and the rest
    of its metadata. *)
Record Hit := {
  hit_rerank_score : option F;
  hit_score : option F;
  hit_meta : gmap string string
}.

(** The variables [search] reads from the environment. *)
Record CutoffEnv := {
  min_score : F;
  relative_min : F;
  dropoff_gap : F;
  min_return_hits : Z
}.

(** [float(x or 0.0)] *)
Definition or_zero (x : F) : F :=
  if (x <=? f_of_Z 0)%F && (f_of_Z 0 <=? x)%F then f_of_Z 0 else x.

(** [float(h.get("rerank_score", h.get("score", 0.0)) or 0.0)] *)
Definition _effective_score (h : Hit) : F :=
  or_zero
    (default (default (f_of_Z 0) (hit_score h)) (hit_rerank_score h)).

Variable env : CutoffEnv.

(** The [for] loop of [_filter_hits] over [zip(hits_in, scores)], from
    the state ([out], [prev]). *)
Fixpoint accumulate (best : F) (k : Z) (out : list Hit) (prev : F)
         (pairs : list (Hit * F)) : list Hit :=
  match pairs with
  | [] => out
  | (h, s) :: rest =>
      if (s <? min_score env)%F then
        accumulate best k out prev rest
      else if (s <? best * relative_min env)%F then out
      else if (prev - s >=? dropoff_gap env)%F then out
      else
        let out := (out ++ [h])%list in
        if Z.of_nat (length out) >=? k then out
        else accumulate best k out s rest
  end.

(** [hits_in[: min(k, max(min_return_hits, 0))]] *)
Definition first_raw (hits_in : list Hit) (k : Z) : list Hit :=
  Py.slice_to (Z.min k (Z.max (min_return_hits env) 0)) hits_in.

Definition _filter_hits (hits_in : list Hit) (k : Z) : list Hit :=
  let scores := map _effective_score hits_in in
  match scores with
  | [] => []
  | best :: _ =>
      if (best <=? f_of_Z 0)%F then first_raw hits_in k
      else
        let out := accumulate best k [] best (zip hits_in scores) in
        if Z.of_nat (length out) <? min_return_hits env
        then first_raw hits_in k
        else out
  end.
End Cutoff.
Arguments Hit F : clear implicits.
Arguments CutoffEnv F : clear implicits.
Arguments State F : clear implicits.
Arguments World F : clear implicits.
Arguments event F : clear implicits.

(** The decimal [m / 10^e] as [float] reads it. *)
Definition decimal `{PyFloat F} (m : Z) (e : Z) : F :=
  (f_of_Z m / f_of_Z (10 ^ e))%F.

(** The defaults of [MIN_HIT_SCORE], [RELATIVE_MIN], [DROPOFF_GAP] and
    [MIN_RETURN_HITS]. *)
Definition default_env `{PyFloat F} : CutoffEnv F :=
  {| min_score := f_of_Z 0;
     relative_min := decimal 90 2;
     dropoff_gap := decimal 8 2;
     min_return_hits := 1 |}.

End Pipeline.

(** ** The frame files that ffmpeg writes, and the route that serves them *)

Module FrameFiles.

Fixpoint zeros (k : nat) : string :=
  match k with
  | O => ""
  | S k' => String "0" (zeros k')
  end.

(** Padding with zeros on the left up to [width] characters, for a text
    without sign. *)
Definition zfill (width : nat) (s : string) : string :=
  zeros (width - String.length s) ++ s.

(** The conversion [%06d] of the output pattern of [extract_frames], for
    the frame numbers [n >= 0] that ffmpeg counts. *)
Definition printf_06d (n : Z) : string := zfill 6 (Py.str_of_int n).

(** The name that the pattern ["frame_%06d.jpg"] gives to frame [n]. *)
Definition frame_pattern (n : Z) : string :=
  "frame_" ++ printf_06d n ++ ".jpg".

End FrameFiles.

(** ** app/routes.py *)

Module Routes.

(** [s.endswith(suffix)] *)
Definition endswith (suffix s : string) : bool :=
  let n := String.length suffix in
  let m := String.length s in
  (n <=? m)%nat && String.eqb (String.substring (m - n) n s) suffix.

(** [c in s] for a single character [c]. *)
Fixpoint contains_char (c : ascii) (s : string) : bool :=
  match s with
  | EmptyString => false
  | String x s' => Ascii.eqb x c || contains_char c s'
  end.

Inductive response :=
| FileResponse (frame_file : string)
| HTTPException (status_code : Z) (detail : string).

(** [get_video_frame]: the two checks of the name, then the checks
    against the file system: whether the resolved path stays inside
    the directory of the frames of the video, and whether the file
    exists. *)
Definition get_video_frame (stays_inside file_exists : string -> string -> bool)
           (video_id frame_file : string) : response :=
  if negb (String.prefix "frame_" frame_file)
     || contains_char "/" frame_file
     || contains_char "\" frame_file
  then HTTPException 400 "Invalid frame filename"
  else if negb (endswith ".jpg" frame_file || endswith ".jpeg" frame_file)
  then HTTPException 400 "Invalid frame file extension"
  else if negb (stays_inside video_id frame_file)
  then HTTPException 400 "Invalid frame path"
  else if negb (file_exists video_id frame_file)
  then HTTPException 404 "Frame not found"
  else FileResponse frame_file.

End Routes.

(** ** retrieval/rerank.py *)

Module Rerank.
Import QdrantStore.

Record RerankConfig := {
  enabled : bool;
  model : string;
  top_k : Z;
  candidate_k : Z
}.

(** [reranked.sort(key=key, reverse=True)]: the list is reversed, sorted
    by the stable sort, and reversed again, so equal keys keep their
    order. *)
Definition sort_reverse {A K} (lt : K -> K -> bool) (key : A -> K)
           (l : list A) : list A :=
  rev (Py.sorted lt key (rev l)).

Section Rerank.
Context {F : Type} {PF : PyFloat F}.

(** A loaded cross-encoder, by what [predict] returns for the pairs;
    [None] stands for an exception. *)
Definition CrossEncoder : Type := list (string * string) -> option (list F).

(** [self._model]: [None], [False] or the loaded model. *)
Inductive model_slot :=
| NotLoaded
| Unavailable
| Loaded (m : CrossEncoder).

Record Reranker := {
  cfg : RerankConfig;
  _model : model_slot
}.

(** [Reranker(cfg)]; [Reranker()] is the same with the configuration
    read from the environment. *)
Definition __init__ (cfg : RerankConfig) : Reranker :=
  {| cfg := cfg; _model := NotLoaded |}.

(** The import of the library and the construction of the model named
    in the configuration; [None] stands for an exception. *)
Variable load_model : string -> option CrossEncoder.

Definition _load (self : Reranker) : Reranker :=
  match _model self with
  | NotLoaded =>
      if negb (enabled (cfg self))
      then {| cfg := cfg self; _model := Unavailable |}
      else
        match load_model (model (cfg self)) with
        | Some m => {| cfg := cfg self; _model := Loaded m |}
        | None => {| cfg := cfg self; _model := Unavailable |}
        end
  | _ => self
  end.

(** [(c.get(text_key) or "").strip()]; [None] stands for the
    [AttributeError] of a value that is not a string. *)
Definition text_of (text_key : string) (c : gmap string (pyval F))
  : option string :=
  match py_or (get c text_key VNone) (VStr "") with
  | VStr s => Some (Py.strip s)
  | _ => None
  end.

(** The loop that builds [pairs]. *)
Fixpoint pairs_of (query text_key : string)
         (candidates : list (gmap string (pyval F)))
  : option (list (string * string)) :=
  match candidates with
  | [] => Some []
  | c :: rest =>
      match text_of text_key c with
      | None => None
      | Some t =>
          match pairs_of query text_key rest with
          | Some pairs => Some ((query, t) :: pairs)
          | None => None
          end
      end
  end.

(** [x.get("rerank_score", 0.0)], the key of the sort.  Every element of
    [reranked] holds a float under this key. *)
Definition rerank_key (x : gmap string (pyval F)) : F :=
  match get x "rerank_score" (VFloat (f_of_Z 0)) with
  | VFloat s => s
  | _ => f_of_Z 0
  end.

(** The loop over [zip(candidates, scores)]. *)
Definition with_scores (candidates : list (gmap string (pyval F)))
           (scores : list F) : list (gmap string (pyval F)) :=
  map (fun cs => <["rerank_score" := VFloat (snd cs)]> (fst cs))
      (zip candidates scores).

(** [rerank]: the outcome, [None] for an exception, and the reranker
    after the call. *)
Definition rerank (self : Reranker) (query : string)
           (candidates : list (gmap string (pyval F)))
           (top_k : option Z) (text_key : string)
  : option (list (gmap string (pyval F))) * Reranker :=
  let self := _load self in
  let k := default (Rerank.top_k (cfg self)) top_k in
  match candidates with
  | [] => (Some [], self)
  | _ =>
      match _model self with
      | Unavailable => (Some (Py.slice_to k candidates), self)
      | NotLoaded => (None, self)
      | Loaded m =>
          match pairs_of query text_key candidates with
          | None => (None, self)
          | Some pairs =>
              match m pairs with
              | None => (None, self)
              | Some scores =>
                  let reranked := with_scores candidates scores in
                  (Some (Py.slice_to k
                           (sort_reverse flt rerank_key reranked)),
                   self)
              end
          end
      end
  end.

End Rerank.
Arguments CrossEncoder F : clear implicits.
Arguments Reranker F : clear implicits.
Arguments model_slot F : clear implicits.
End Rerank.

(** ** embeddings/faiss_index.py *)

Module FaissStore.
Import QdrantStore.
Section FaissStore.
Context {F : Type}.

(** A flat index: its dimension and its vectors, numbered in order of
    addition. *)
Record Index := {
  d : Z;
  vectors : list (list F)
}.

(** The directory of the store: the index file and the lines of the
    metadata file, when they exist. *)
Record Dir := {
  index_faiss : option Index;
  meta_jsonl : option (list (gmap string (pyval F)))
}.

Record FaissStore := {
  dim : Z;
  _index : option Index
}.

Definition __init__ (dim : Z) : FaissStore :=
  {| dim := dim; _index := None |}.

(** [_load]: the index is read from the directory when the file exists,
    and created empty with the dimension of the store otherwise. *)
Definition _load (self : FaissStore) (dir : Dir) : FaissStore :=
  match _index self with
  | Some _ => self
  | None =>
      {| dim := dim self;
         _index := Some (default {| d := dim self; vectors := [] |}
                                 (index_faiss dir)) |}
  end.

(** [index.add(embeddings)]: every row must have the dimension of the
    index; [None] stands for the error of the library. *)
Definition index_add (ix : Index) (embeddings : list (list F))
  : option Index :=
  if forallb (fun v => Z.of_nat (length v) =? d ix) embeddings
  then Some {| d := d ix; vectors := (vectors ix ++ embeddings)%list |}
  else None.

(** [add]: the vectors go to the index, the metadata lines are appended
    to the file, and the index is written.  [None] stands for an
    exception; nothing is written then. *)
Definition add (self : FaissStore) (dir : Dir)
           (embeddings : list (list F))
           (metas : list (gmap string (pyval F)))
  : option (FaissStore * Dir) :=
  let self := _load self dir in
  match _index self with
  | None => None
  | Some ix =>
      match index_add ix embeddings with
      | None => None
      | Some ix' =>
          Some ({| dim := dim self; _index := Some ix' |},
                {| index_faiss := Some ix';
                   meta_jsonl :=
                     Some (default [] (meta_jsonl dir) ++ metas)%list |})
      end
  end.

(** [index.search(query, top_k)] of the library: scores and numbers of
    vectors, with -1 where there are fewer vectors than asked for. *)
Variable index_search : Index -> list F -> Z -> list F * list Z.

(** [search]: the ranking of the library, and all the metadata lines. *)
Definition search (self : FaissStore) (dir : Dir) (query_emb : list F)
           (top_k : Z)
  : FaissStore * (list F * list Z * list (gmap string (pyval F))) :=
  let self := _load self dir in
  let ix := default {| d := dim self; vectors := [] |} (_index self) in
  let ranking := index_search ix query_emb top_k in
  (self, (fst ranking, snd ranking, default [] (meta_jsonl dir))).

End FaissStore.
Arguments Index F : clear implicits.
Arguments Dir F : clear implicits.
Arguments FaissStore F : clear implicits.
End FaissStore.

(** ** processing/pipeline.py: the dictionaries of chunks and hits *)

Module SearchHits.
Import QdrantStore.
Section SearchHits.
Context {F : Type} {PF : PyFloat F}.
Variable float_str : F -> string.

(** An element of [chunk_dicts]. *)
Definition chunk_dict (c : Chunking.Chunk F) : gmap string (pyval F) :=
  <["video_id" := VStr (Chunking.video_id c)]>
  (<["start" := VFloat (Chunking.start c)]>
  (<["end" := VFloat (Chunking.end_ c)]>
  (<["transcript" := VStr (Chunking.transcript c)]>
  (<["caption" := VStr (Chunking.caption c)]>
  (<["frame_file" := VStr (Chunking.frame_file c)]>
  (<["text" := VStr (Chunking.text c)]> ∅)))))).

(** [int(os.getenv("RETRIEVE_K", str(max(top_k, 50))))]; [None] stands
    for [ValueError]. *)
Definition retrieve_k (RETRIEVE_K : option string) (top_k : Z)
  : option Z :=
  Py.int_of_str 10 (default (Py.str_of_int (Z.max top_k 50)) RETRIEVE_K).

Definition _thumb_url (video_id : string) (m : gmap string (pyval F))
  : pyval F :=
  let ff := get m "frame_file" VNone in
  if negb (truthy ff) then VNone
  else VStr ("/videos/" ++ video_id ++ "/frames/" ++ py_str float_str ff).

(** The body of both loops that build [hits]. *)
Definition hit_of (video_id : string) (score : F)
           (payload : gmap string (pyval F)) : gmap string (pyval F) :=
  let m := <["score" := VFloat score]> payload in
  <["thumbnail_path" := _thumb_url video_id m]> m.

Definition qdrant_hits (video_id : string)
           (results : list (F * gmap string (pyval F)))
  : list (gmap string (pyval F)) :=
  map (fun r => hit_of video_id (fst r) (snd r)) results.

(** [l[i]]; [None] stands for [IndexError]. *)
Definition getitem {A} (l : list A) (i : Z) : option A :=
  if 0 <=? i then l !! Z.to_nat i
  else if - Z.of_nat (length l) <=? i
       then l !! Z.to_nat (Z.of_nat (length l) + i)
       else None.

(** The loop over [zip(scores, idxs)] of the local store; [None] stands
    for [IndexError]. *)
Fixpoint faiss_hits (video_id : string) (pairs : list (F * Z))
         (metas : list (gmap string (pyval F)))
  : option (list (gmap string (pyval F))) :=
  match pairs with
  | [] => Some []
  | (score, idx) :: rest =>
      if (idx <? 0) || (idx >=? Z.of_nat (length metas))
      then faiss_hits video_id rest metas
      else
        match getitem metas idx with
        | None => None
        | Some m =>
            match faiss_hits video_id rest metas with
            | Some hits => Some (hit_of video_id score m :: hits)
            | None => None
            end
        end
  end.

(** The optional rerank: any exception leaves the hits as retrieved. *)
Definition optional_rerank (cfg : Rerank.RerankConfig)
           (load_model : string -> option (Rerank.CrossEncoder F))
           (query : string) (hits : list (gmap string (pyval F)))
           (top_k : Z) : list (gmap string (pyval F)) :=
  if Rerank.enabled cfg then
    match fst (Rerank.rerank load_model (Rerank.__init__ cfg) query hits
                             (Some top_k) "text") with
    | Some reranked => reranked
    | None => hits
    end
  else hits.

End SearchHits.
End SearchHits.

(** ** processing/download_video.py *)

Module DownloadVideo.
Import Pipeline.

(** What [subprocess.CalledProcessError] carries with [text=True]. *)
Record CalledProcessError := {
  stderr : option string;
  stdout : option string
}.

(** [sub in s] *)
Fixpoint contains (sub s : string) : bool :=
  match s with
  | EmptyString => String.prefix sub s
  | String _ s' => String.prefix sub s || contains sub s'
  end.

(** [(e.stderr or e.stdout or "").strip()] *)
Definition message (e : CalledProcessError) : string :=
  let nonempty (x : option string) :=
    match x with
    | Some s => negb (String.eqb s "")
    | None => false
    end in
  Py.strip
    (if nonempty (stderr e) then default "" (stderr e)
     else if nonempty (stdout e) then default "" (stdout e)
          else "").

Definition base_cmd (url output_path : string) : list string :=
  [ "yt-dlp"; "-f"; "bv*+ba/best"; "--merge-output-format"; "mp4";
    "--retries"; "3"; "--fragment-retries"; "3";
    "--concurrent-fragments"; "4"; "-o"; output_path; url ].

(** [l.insert(i, x)] for [i >= 0]. *)
Definition insert {A} (i : nat) (x : A) (l : list A) : list A :=
  (take i l ++ x :: drop i l)%list.

Definition fallback_cmd (base_cmd : list string) : list string :=
  insert 2 "youtube:player_client=android"
         (insert 1 "--extractor-args" base_cmd).

(** The errors that lead to the second attempt. *)
Definition retryable (msg : string) : bool :=
  contains "nsig extraction failed" msg
  || contains "downloaded file is empty" msg
  || contains "Signature extraction" msg.

(** The outcome of [download_youtube], the output file afterwards (its
    size, when it exists) and the commands that were run. *)
Record Outcome := {
  returned : result string;
  output_file : option Z;
  commands : list (list string)
}.

Section Download.
(** [_run]: a command, run with the output file in some state, raises
    [CalledProcessError] or returns, and leaves the file in some
    state. *)
Variable _run :
  list string -> option Z -> option CalledProcessError * option Z.

(** The final check of the output file. *)
Definition validate (output_path : string) (file : option Z)
           (cmds : list (list string)) : Outcome :=
  if match file with
     | None => true
     | Some size => size =? 0
     end
  then {| returned :=
            Raise (RuntimeError
                     "yt-dlp reported success but the output file is empty. Try updating yt-dlp or use a different video.");
          output_file := file; commands := cmds |}
  else {| returned := Ok output_path;
          output_file := file; commands := cmds |}.

Definition download_youtube (url output_path : string) (file : option Z)
  : Outcome :=
  let base_cmd := base_cmd url output_path in
  let first := _run base_cmd file in
  match fst first with
  | None => validate output_path (snd first) [base_cmd]
  | Some e =>
      let msg := message e in
      if retryable msg then
        let fallback_cmd := fallback_cmd base_cmd in
        let second := _run fallback_cmd (snd first) in
        match fst second with
        | None =>
            validate output_path (snd second) [base_cmd; fallback_cmd]
        | Some e2 =>
            {| returned :=
                 Raise (RuntimeError
                          ("yt-dlp failed (YouTube extraction). This usually means yt-dlp needs an update or the video is restricted. "
                           ++ "Details: " ++ message e2));
               output_file := snd second;
               commands := [base_cmd; fallback_cmd] |}
        end
      else
        {| returned := Raise (RuntimeError ("yt-dlp failed: " ++ msg));
           output_file := snd first;
           commands := [base_cmd] |}
  end.

End Download.
End DownloadVideo.

(** ** app/routes.py: the ingest route *)

Module IngestRoute.
Import Pipeline.
Section IngestRoute.
Context {F : Type} {PF : PyFloat F}.

Record IngestRequest := {
  source_type : string;
  source : string;
  fps : F;
  max_frames : option Z;
  enable_captions : bool
}.

(** The answer of the route: the response model, or the HTTP error with
    its status code and the exception whose text is the detail. *)
Inductive answer :=
| IngestResponse (video_id : string) (status : string) (chunks_indexed : Z)
| HTTPException (status_code : Z) (cause : exn).

(** [ingest]: a missing file is answered with 404, any other exception
    with 500. *)
Definition ingest (W : World F) (req : IngestRequest) (st : State F)
  : answer * State F :=
  match ingest_video W (source_type req) (source req) (fps req)
                     (max_frames req) (enable_captions req) st with
  | (Ok (video_id, chunks_indexed), st') =>
      (IngestResponse video_id "ok" chunks_indexed, st')
  | (Raise (FileNotFoundError msg), st') =>
      (HTTPException 404 (FileNotFoundError msg), st')
  | (Raise e, st') => (HTTPException 500 e, st')
  end.

End IngestRoute.
Arguments IngestRequest F : clear implicits.
End IngestRoute.

(** ** Vocabulary of the statements *)

Module Binary64Order.

(** The place of a number in the order of binary64: the class of its
    sign, then the exponent and the mantissa, mirrored for the negative
    numbers.  The two zeros share a place; NaN has none. *)
Definition rank (x : spec_float) : Z * Z * Z :=
  match x with
  | S754_zero _ => (0, 0, 0)
  | S754_infinity s => (if s then -2 else 2, 0, 0)
  | S754_nan => (0, 0, 0)
  | S754_finite s m e => if s then (-1, - e, Z.neg m) else (1, e, Z.pos m)
  end.

(** The lexicographic order of the places. *)
Definition before (a b : Z * Z * Z) : Prop :=
  let '(a1, a2, a3) := a in
  let '(b1, b2, b3) := b in
  a1 < b1 \/ (a1 = b1 /\ (a2 < b2 \/ (a2 = b2 /\ a3 < b3))).

Definition place (x : float) : Z * Z * Z := rank (Prim2SF x).

(** [x] is a number: it is not NaN. *)
Definition comparable (x : float) : Prop := is_nan x = false.

End Binary64Order.

Module AlignSpec.
Import Chunking.

(** The timestamp lies in the closed interval [s, e]. *)
Definition in_range (s e : Q) (f : FrameDesc Q) : Prop :=
  (s <= fd_timestamp f)%Q /\ (fd_timestamp f <= e)%Q.

#[export] Instance in_range_dec s e f : Decision (in_range s e f).
Proof.
  unfold in_range.
  destruct (Qlt_le_dec (fd_timestamp f) s) as [Hlt | Hle].
  - right. intros [Hs _]. exact (Qlt_not_le _ _ Hlt Hs).
  - destruct (Qlt_le_dec e (fd_timestamp f)) as [Hlt' | Hle'].
    + right. intros [_ He]. exact (Qlt_not_le _ _ Hlt' He).
    + left. split; assumption.
Defined.

(** Distance of a frame to the midpoint of [s, e]. *)
Definition distance (s e : Q) (f : FrameDesc Q) : Q :=
  Qabs (fd_timestamp f - (s + e) / 2)%Q.

(** [f] is a frame of [frames] nearest to the midpoint, and the first such
    frame of the sequence: no frame is nearer, and every frame before it
    is strictly farther. *)
Definition nearest_first (s e : Q) (frames : list (FrameDesc Q))
           (f : FrameDesc Q) : Prop :=
  exists i : nat,
    frames !! i = Some f /\
    (forall (j : nat) g, frames !! j = Some g ->
                 (distance s e f <= distance s e g)%Q) /\
    (forall (j : nat) g, frames !! j = Some g -> (j < i)%nat ->
                 (distance s e f < distance s e g)%Q).

(** Four frames one second apart, as extracted at one frame per second. *)
Definition four_frames : list (FrameDesc Q) :=
  [ {| fd_frame_file := "frame_000001.jpg"; fd_timestamp := 0;
       fd_caption := "a title card" |};
    {| fd_frame_file := "frame_000002.jpg"; fd_timestamp := 1;
       fd_caption := "a man at a desk" |};
    {| fd_frame_file := "frame_000003.jpg"; fd_timestamp := 2;
       fd_caption := "a whiteboard" |};
    {| fd_frame_file := "frame_000004.jpg"; fd_timestamp := 3;
       fd_caption := "a diagram" |} ]%Q.

(** The same notions for binary64 timestamps, compared and subtracted as
    the interpreter does. *)

(** The timestamp lies in [s, e], in the order of binary64. *)
Definition in_range64 (s e : float) (f : FrameDesc float) : Prop :=
  (s <=? fd_timestamp f)%float = true /\
  (fd_timestamp f <=? e)%float = true.

#[export] Instance in_range64_dec s e f : Decision (in_range64 s e f).
Proof.
  unfold in_range64.
  destruct (s <=? fd_timestamp f)%float;
    [|right; intros [H _]; discriminate H].
  destruct (fd_timestamp f <=? e)%float;
    [left; split; reflexivity|right; intros [_ H]; discriminate H].
Defined.

(** The distance of a frame to the midpoint of [s, e] as binary64
    arithmetic computes it: the sum, the halving and the difference are
    each rounded. *)
Definition computed_distance (s e : float) (f : FrameDesc float) : float :=
  abs (fd_timestamp f - (s + e) / 2)%float.

(** [f] is the first frame of [frames] among those of least computed
    distance: no frame has a smaller computed distance, and every frame
    before it has a larger one. *)
Definition nearest_first_computed (s e : float)
           (frames : list (FrameDesc float)) (f : FrameDesc float) : Prop :=
  exists i : nat,
    frames !! i = Some f /\
    (forall (j : nat) g,
        frames !! j = Some g ->
        (computed_distance s e f <=? computed_distance s e g)%float = true) /\
    (forall (j : nat) g,
        frames !! j = Some g -> (j < i)%nat ->
        (computed_distance s e f <? computed_distance s e g)%float = true).

(** The rational number that a finite binary64 number is. *)
Definition exact (x : float) : Q :=
  match Prim2SF x with
  | S754_finite s m e =>
      (inject_Z (if s then Z.neg m else Z.pos m) * Qpower 2 e)%Q
  | _ => 0%Q
  end.

(** A frame description with its timestamp as a rational number. *)
Definition exact_frame (f : FrameDesc float) : FrameDesc Q :=
  {| fd_frame_file := fd_frame_file f;
     fd_timestamp := exact (fd_timestamp f);
     fd_caption := fd_caption f |}.

(** Three frames extracted at five frames per second. *)
Definition three_frames : list (FrameDesc float) :=
  [ {| fd_frame_file := "frame_000001.jpg"; fd_timestamp := 0;
       fd_caption := "a title card" |};
    {| fd_frame_file := "frame_000002.jpg"; fd_timestamp := 0.2;
       fd_caption := "a man at a desk" |};
    {| fd_frame_file := "frame_000003.jpg"; fd_timestamp := 0.4;
       fd_caption := "a whiteboard" |} ]%float.

End AlignSpec.

Module CutoffSpec.
Import Pipeline.
Section Vocabulary.
Context {F : Type} {PF : PyFloat F}.
Variable env : CutoffEnv F.

(** A candidate breaks one of the three conditions of the walk: its score
    is below [min_score], below [best * relative_min], or the drop from
    the previous accumulated score reaches [dropoff_gap]. *)
Definition violates (best prev s : F) : bool :=
  (s <? min_score env)%F || (s <? best * relative_min env)%F
  || (prev - s >=? dropoff_gap env)%F.

(** Step 2 in the words of the specification: accumulate in order and
    stop at the first violation, or once [top_k] items are collected. *)
Fixpoint spec_walk (best : F) (top_k : Z) (out : list (Hit F)) (prev : F)
         (candidates : list (Hit F)) : list (Hit F) :=
  match candidates with
  | [] => out
  | h :: rest =>
      let s := _effective_score h in
      if violates best prev s then out
      else
        let out := (out ++ [h])%list in
        if Z.of_nat (length out) >=? top_k then out
        else spec_walk best top_k out s rest
  end.

(** Steps 1 to 3 in the words of the specification. *)
Definition spec_cutoff (candidates : list (Hit F)) (top_k : Z)
  : list (Hit F) :=
  match candidates with
  | [] => []
  | first :: _ =>
      let best := _effective_score first in
      let raw :=
        take (Z.to_nat (Z.min top_k (min_return_hits env))) candidates in
      if (best <=? f_of_Z 0)%F then raw
      else
        let out := spec_walk best top_k [] best candidates in
        if Z.of_nat (length out) <? min_return_hits env then raw else out
  end.

(** [zip(hits_in, scores)] *)
Definition scored (hits : list (Hit F)) : list (Hit F * F) :=
  zip hits (map _effective_score hits).

(** A hit that carries a raw similarity only. *)
Definition hit_of_score (s : F) : Hit F :=
  {| hit_rerank_score := None; hit_score := Some s; hit_meta := ∅ |}.

(** The candidate meets the absolute floor. *)
Definition meets_min_score (h : Hit F) : bool :=
  negb (_effective_score h <? min_score env)%F.

End Vocabulary.

(** An environment with [MIN_HIT_SCORE=0.5], and one with
    [MIN_RETURN_HITS=10]. *)
Definition env_floor : CutoffEnv float :=
  {| min_score := 0.5%float; relative_min := 0.9%float;
     dropoff_gap := 0.08%float;
     min_return_hits := 1 |}.

(** The environment with [MIN_HIT_SCORE=0.5] in exact arithmetic. *)
Definition env_floor_exact : CutoffEnv Q :=
  {| min_score := 1 # 2; relative_min := 9 # 10; dropoff_gap := 8 # 100;
     min_return_hits := 1 |}.

Definition env_many : CutoffEnv float :=
  {| min_score := 0%float; relative_min := 0.9%float;
     dropoff_gap := 0.08%float;
     min_return_hits := 10 |}.

(** Descending order of effective score, the order in which the stores
    and the reranker return their candidates. *)
Definition descending (hits : list (Hit float)) : Prop :=
  StronglySorted
    (fun a b => (_effective_score b <=? _effective_score a)%float = true)
    hits.

End CutoffSpec.

Module UuidSpec.

(** A lowercase hexadecimal digit. *)
Definition is_lower_hex (c : ascii) : bool :=
  let n := N_of_ascii c in
  ((48 <=? n) && (n <=? 57) || (97 <=? n) && (n <=? 102))%N.

(** [g] is a group of [n] lowercase hexadecimal digits. *)
Definition hex_group (n : nat) (g : string) : Prop :=
  String.length g = n /\ Py.all_chars is_lower_hex g = true.

(** The canonical text of a UUID: groups of 8, 4, 4, 4 and 12 digits,
    joined by hyphens. *)
Definition canonical_text (g1 g2 g3 g4 g5 : string) : string :=
  g1 ++ "-" ++ g2 ++ "-" ++ g3 ++ "-" ++ g4 ++ "-" ++ g5.

Fixpoint occurs (c : ascii) (s : string) : bool :=
  match s with
  | EmptyString => false
  | String x s' => Ascii.eqb x c || occurs c s'
  end.

(** The number a string of hexadecimal digits denotes, after [acc]. *)
Fixpoint hex_value (acc : Z) (h : string) : Z :=
  match h with
  | EmptyString => acc
  | String c h' =>
      hex_value (acc * 16 + match Py.digit_value c with
                            | Some d => d
                            | None => 0
                            end) h'
  end.

(** The digits of the five groups, without the hyphens. *)
Definition digits_of (g1 g2 g3 g4 g5 : string) : string :=
  g1 ++ g2 ++ g3 ++ g4 ++ g5.

Definition hex_or_hyphen (c : ascii) : bool :=
  is_lower_hex c || Ascii.eqb c "-".


End UuidSpec.

Module IngestSpec.
Import Pipeline.

(** [Q] holds of the outcome and the final state of [m] run from [st]. *)
Definition wp {F A} (m : M (F := F) A) (st : State F)
           (Q : result A -> State F -> Prop) : Prop :=
  Q (fst (m st)) (snd (m st)).


(** A world where every collaborator succeeds and no cancel request lands
    during the run: two frames, one second apart, and one segment of
    speech that spans both. *)
Definition quiet_world : World Q :=
  {| new_video_id := "0123456789";
     qdrant_config := None;
     local_exists := fun _ => true;
     path_str := fun s => s;
     copy_local := fun _ => true;
     download_youtube := fun _ => true;
     extract_audio := true;
     extract_frames :=
       fun _ => Some ["frame_000001.jpg"; "frame_000002.jpg"];
     transcribe_audio :=
       Some [ {| Chunking.seg_start := 0%Q; Chunking.seg_end := 3 # 2;
                 Chunking.seg_text := Some "hello" |} ];
     caption_frames := fun _ => Some ∅;
     load_embedder := true;
     encode := fun _ => Some 768;
     store_init := true;
     upsert := true;
     faiss_add := true;
     build_index_from_chunks := true;
     cancel_during := fun _ => false |}.

(** The same world, with a cancel request that lands right after the
    ingest has started. *)
Definition early_cancel_world : World Q :=
  {| new_video_id := new_video_id quiet_world;
     qdrant_config := qdrant_config quiet_world;
     local_exists := local_exists quiet_world;
     path_str := path_str quiet_world;
     copy_local := copy_local quiet_world;
     download_youtube := download_youtube quiet_world;
     extract_audio := extract_audio quiet_world;
     extract_frames := extract_frames quiet_world;
     transcribe_audio := transcribe_audio quiet_world;
     caption_frames := caption_frames quiet_world;
     load_embedder := load_embedder quiet_world;
     encode := encode quiet_world;
     store_init := store_init quiet_world;
     upsert := upsert quiet_world;
     faiss_add := faiss_add quiet_world;
     build_index_from_chunks := build_index_from_chunks quiet_world;
     cancel_during := fun s => match s with StSetup => true | _ => false end |}.

(** The world of the early cancel request, with a local source that
    exists and cannot be copied: a directory, or a file without read
    permission. *)
Definition unreadable_source_world : World Q :=
  {| new_video_id := new_video_id early_cancel_world;
     qdrant_config := qdrant_config early_cancel_world;
     local_exists := local_exists early_cancel_world;
     path_str := path_str early_cancel_world;
     copy_local := fun _ => false;
     download_youtube := download_youtube early_cancel_world;
     extract_audio := extract_audio early_cancel_world;
     extract_frames := extract_frames early_cancel_world;
     transcribe_audio := transcribe_audio early_cancel_world;
     caption_frames := caption_frames early_cancel_world;
     load_embedder := load_embedder early_cancel_world;
     encode := encode early_cancel_world;
     store_init := store_init early_cancel_world;
     upsert := upsert early_cancel_world;
     faiss_add := faiss_add early_cancel_world;
     build_index_from_chunks := build_index_from_chunks early_cancel_world;
     cancel_during := cancel_during early_cancel_world |}.

(** A fresh process. *)
Definition idle : State Q := {| _CANCEL_INGEST := false; trace := [] |}.

End IngestSpec.

(** ** Vocabulary for the texts of integers *)

Module DecimalSpec.

(** The value that [int] reads from decimal digits, from the left. *)
Fixpoint uint_value (acc : Z) (d : Decimal.uint) : Z :=
  match d with
  | Decimal.Nil => acc
  | Decimal.D0 d' => uint_value (acc * 10 + 0) d'
  | Decimal.D1 d' => uint_value (acc * 10 + 1) d'
  | Decimal.D2 d' => uint_value (acc * 10 + 2) d'
  | Decimal.D3 d' => uint_value (acc * 10 + 3) d'
  | Decimal.D4 d' => uint_value (acc * 10 + 4) d'
  | Decimal.D5 d' => uint_value (acc * 10 + 5) d'
  | Decimal.D6 d' => uint_value (acc * 10 + 6) d'
  | Decimal.D7 d' => uint_value (acc * 10 + 7) d'
  | Decimal.D8 d' => uint_value (acc * 10 + 8) d'
  | Decimal.D9 d' => uint_value (acc * 10 + 9) d'
  end.

Definition is_decimal (c : ascii) : bool :=
  let n := N_of_ascii c in ((48 <=? n) && (n <=? 57))%N.

(** The value of a text of decimal digits, after [acc]. *)
Fixpoint dec_value (acc : Z) (s : string) : Z :=
  match s with
  | EmptyString => acc
  | String c s' => dec_value (acc * 10 + (Z.of_N (N_of_ascii c) - 48)) s'
  end.

End DecimalSpec.

(** ** Vocabulary for the thresholds of the cutoff *)

Module ThresholdSpec.
Import Pipeline.
Section Vocabulary.
Context {F : Type} {PF : PyFloat F}.
Variable env : CutoffEnv F.

(** The score of the hit passes the absolute and the relative floor. *)
Definition above_floors (best : F) (h : Hit F) : Prop :=
  (_effective_score h <? min_score env)%F = false /\
  (_effective_score h <? best * relative_min env)%F = false.

(** From [prev] on, no step down to the next hit reaches [dropoff_gap]. *)
Fixpoint gaps_below (prev : F) (hits : list (Hit F)) : Prop :=
  match hits with
  | [] => True
  | h :: rest =>
      (prev - _effective_score h >=? dropoff_gap env)%F = false /\
      gaps_below (_effective_score h) rest
  end.

End Vocabulary.
End ThresholdSpec.

(** ** Vocabulary for the local store *)

Module FaissSpec.
Import QdrantStore.

(** The index that a store opens in a directory. *)
Definition opened {F} (dim : Z) (dir : FaissStore.Dir F)
  : FaissStore.Index F :=
  default {| FaissStore.d := dim; FaissStore.vectors := [] |}
          (FaissStore.index_faiss dir).

Definition lines {F} (dir : FaissStore.Dir F)
  : list (gmap string (pyval F)) :=
  default [] (FaissStore.meta_jsonl dir).

(** Vector number [i] has the metadata of line [i]: there are as many
    lines as vectors. *)
Definition aligned {F} (dim : Z) (dir : FaissStore.Dir F) : Prop :=
  length (FaissStore.vectors (opened dim dir)) = length (lines dir).

End FaissSpec.

(** ** Vocabulary for the stages of an ingest *)

Module StageSpec.
Import Pipeline IngestSpec.

(** The stage at which each effect is issued. *)
Definition stage_of {F} (ev : event F) : stage :=
  match ev with
  | EvWriteMeta _ => StSetup
  | EvDownload _ => StDownload
  | EvCopyLocal _ => StCopy
  | EvExtractAudio => StAudio
  | EvExtractFrames => StFrames
  | EvTranscribe => StTranscribe
  | EvWriteTranscript => StTranscribe
  | EvCaptionFrames _ => StCaption
  | EvWriteChunks _ => StWriteChunks
  | EvLoadEmbedder => StLoadEmbedder
  | EvEmbed _ => StEmbed
  | EvStoreInit _ => StStoreInit
  | EvQdrantUpsert _ _ => StUpsert
  | EvFaissAdd _ => StFaissAdd
  | EvBuildIndex => StBuildIndex
  end.

(** The stages followed by a check of the flag that stands before the
    write to the vector store: all up to the loading of the embedding
    model, and with the networked store also the embedding and the
    opening of the store. *)
Definition seen_before_write {F} (W : World F) (s : stage) : bool :=
  match s with
  | StSetup | StDownload | StCopy | StAudio | StFrames | StTranscribe
  | StCaption | StWriteChunks | StLoadEmbedder => true
  | StEmbed | StStoreInit =>
      match qdrant_config W with Some _ => true | None => false end
  | StUpsert | StFaissAdd | StBuildIndex => false
  end.

Definition is_frame_extraction {F} (ev : event F) : bool :=
  match ev with
  | EvExtractFrames => true
  | _ => false
  end.

Definition is_index_build {F} (ev : event F) : bool :=
  match ev with
  | EvBuildIndex => true
  | _ => false
  end.

(** A chunk without caption and without representative frame. *)
Definition plain {F} (c : Chunking.Chunk F) : Prop :=
  Chunking.caption c = "" /\ Chunking.frame_file c = "".

(** The same collaborators with another outcome of the secondary index. *)
Definition with_build {F} (b : bool) (W : World F) : World F :=
  {| new_video_id := new_video_id W;
     qdrant_config := qdrant_config W;
     local_exists := local_exists W;
     path_str := path_str W;
     copy_local := copy_local W;
     download_youtube := download_youtube W;
     extract_audio := extract_audio W;
     extract_frames := extract_frames W;
     transcribe_audio := transcribe_audio W;
     caption_frames := caption_frames W;
     load_embedder := load_embedder W;
     encode := encode W;
     store_init := store_init W;
     Pipeline.upsert := Pipeline.upsert W;
     faiss_add := faiss_add W;
     build_index_from_chunks := b;
     cancel_during := cancel_during W |}.

(** Two outcomes that differ at most in records of the secondary index. *)
Definition same_but_build {F A} (x y : result A * State F) : Prop :=
  fst x = fst y /\
  _CANCEL_INGEST (snd x) = _CANCEL_INGEST (snd y) /\
  List.filter (fun ev => negb (is_index_build ev)) (trace (snd x))
  = List.filter (fun ev => negb (is_index_build ev)) (trace (snd y)).

(** The quiet world with a cancel request that lands while the local
    store is written. *)
Definition late_cancel_world : World Q :=
  {| new_video_id := new_video_id quiet_world;
     qdrant_config := qdrant_config quiet_world;
     local_exists := local_exists quiet_world;
     path_str := path_str quiet_world;
     copy_local := copy_local quiet_world;
     download_youtube := download_youtube quiet_world;
     extract_audio := extract_audio quiet_world;
     extract_frames := extract_frames quiet_world;
     transcribe_audio := transcribe_audio quiet_world;
     caption_frames := caption_frames quiet_world;
     load_embedder := load_embedder quiet_world;
     encode := encode quiet_world;
     store_init := store_init quiet_world;
     Pipeline.upsert := Pipeline.upsert quiet_world;
     faiss_add := faiss_add quiet_world;
     build_index_from_chunks := build_index_from_chunks quiet_world;
     cancel_during :=
       fun s => match s with StFaissAdd => true | _ => false end |}.

End StageSpec.

(** * Theorems *)

Import Chunking AlignSpec Pipeline CutoffSpec.
Import QdrantStore UuidSpec IngestSpec.
Import Binary64Order.

(** ** The order of binary64 numbers *)

(** The comparisons of binary64 follow the order of the places: this
    makes [<] a strict order of the numbers and [<=] its complement. *)
Lemma SFltb_before (x y : spec_float) :
  x <> S754_nan -> y <> S754_nan ->
  SFltb x y = true <-> before (rank x) (rank y).
Proof.
  intros Hx Hy. unfold SFltb, SFcompare, before, rank.
  destruct x as [sx|sx| |sx mx ex], y as [sy|sy| |sy my ey];
    try congruence;
    repeat match goal with s : bool |- _ => destruct s end;
    try (split; [discriminate|lia]);
    try (split; [lia|reflexivity]).
  all: change (PosDef.Pos.compare_cont Eq mx my) with (Pos.compare mx my).
  all: destruct (Z.compare_spec ex ey); destruct (Pos.compare_spec mx my);
    cbn [CompOpp]; split; try discriminate; try reflexivity; try lia.
Qed.

Lemma SFleb_before (x y : spec_float) :
  x <> S754_nan -> y <> S754_nan ->
  SFleb x y = true <-> ~ before (rank y) (rank x).
Proof.
  intros Hx Hy. unfold SFleb, SFcompare, before, rank.
  destruct x as [sx|sx| |sx mx ex], y as [sy|sy| |sy my ey];
    try congruence;
    repeat match goal with s : bool |- _ => destruct s end;
    try (split; [discriminate|lia]);
    try (split; [lia|reflexivity]).
  all: change (PosDef.Pos.compare_cont Eq mx my) with (Pos.compare mx my).
  all: change (PosDef.Pos.compare_cont Eq my mx) with (Pos.compare my mx).
  all: destruct (Z.compare_spec ex ey); destruct (Pos.compare_spec mx my);
    cbn [CompOpp]; split; try discriminate; try reflexivity; try lia.
Qed.

Lemma comparable_not_nan (x : float) :
  comparable x <-> Prim2SF x <> S754_nan.
Proof.
  unfold comparable, is_nan. rewrite FloatAxioms.eqb_spec.
  unfold SFeqb, SFcompare.
  destruct (Prim2SF x) as [s|s| |s m e].
  - split; [discriminate|reflexivity].
  - destruct s; (split; [discriminate|reflexivity]).
  - split; [discriminate|congruence].
  - change (PosDef.Pos.compare_cont Eq m m) with (Pos.compare m m).
    rewrite Z.compare_refl, Pos.compare_refl.
    destruct s; (split; [discriminate|reflexivity]).
Qed.

Lemma float_ltb_before (x y : float) :
  comparable x -> comparable y ->
  (x <? y)%float = true <-> before (place x) (place y).
Proof.
  intros Hx Hy. rewrite FloatAxioms.ltb_spec.
  apply SFltb_before; apply comparable_not_nan; assumption.
Qed.

Lemma float_leb_before (x y : float) :
  comparable x -> comparable y ->
  (x <=? y)%float = true <-> ~ before (place y) (place x).
Proof.
  intros Hx Hy. rewrite FloatAxioms.leb_spec.
  apply SFleb_before; apply comparable_not_nan; assumption.
Qed.

Lemma float_ltb_comparable (x y : float) :
  (x <? y)%float = true -> comparable x /\ comparable y.
Proof.
  rewrite FloatAxioms.ltb_spec, !comparable_not_nan. unfold SFltb, SFcompare.
  destruct (Prim2SF x), (Prim2SF y); try discriminate;
    intros _; split; discriminate.
Qed.

Lemma float_leb_comparable (x y : float) :
  (x <=? y)%float = true -> comparable x /\ comparable y.
Proof.
  rewrite FloatAxioms.leb_spec, !comparable_not_nan. unfold SFleb, SFcompare.
  destruct (Prim2SF x), (Prim2SF y); try discriminate;
    intros _; split; discriminate.
Qed.

Lemma before_trans a b c : before a b -> before b c -> before a c.
Proof.
  destruct a as [[a1 a2] a3], b as [[b1 b2] b3], c as [[c1 c2] c3].
  unfold before. lia.
Qed.

Lemma before_irrefl a : ~ before a a.
Proof. destruct a as [[a1 a2] a3]. unfold before. lia. Qed.

Lemma before_not_trans a b c :
  ~ before b a -> before b c -> before a c.
Proof.
  destruct a as [[a1 a2] a3], b as [[b1 b2] b3], c as [[c1 c2] c3].
  unfold before. lia.
Qed.

Lemma not_before_trans a b c :
  ~ before b a -> ~ before c b -> ~ before c a.
Proof.
  destruct a as [[a1 a2] a3], b as [[b1 b2] b3], c as [[c1 c2] c3].
  unfold before. lia.
Qed.

Lemma before_not_back a b : before a b -> ~ before b a.
Proof.
  destruct a as [[a1 a2] a3], b as [[b1 b2] b3]. unfold before. lia.
Qed.

(** A number below a number that is below the floor is below it. *)
Lemma float_leb_ltb_trans (x y z : float) :
  (x <=? y)%float = true -> (y <? z)%float = true -> (x <? z)%float = true.
Proof.
  intros Hxy Hyz.
  destruct (float_leb_comparable _ _ Hxy) as [Hx Hy].
  destruct (float_ltb_comparable _ _ Hyz) as [_ Hz].
  apply float_ltb_before; [assumption..|].
  apply float_leb_before in Hxy; [|assumption..].
  apply float_ltb_before in Hyz; [|assumption..].
  eapply before_not_trans; eassumption.
Qed.

Lemma float_leb_refl (x : float) : comparable x -> (x <=? x)%float = true.
Proof.
  intros Hx. apply float_leb_before; [assumption..|]. apply before_irrefl.
Qed.

Lemma float_leb_trans (x y z : float) :
  (x <=? y)%float = true -> (y <=? z)%float = true -> (x <=? z)%float = true.
Proof.
  intros Hxy Hyz.
  destruct (float_leb_comparable _ _ Hxy) as [Hx Hy].
  destruct (float_leb_comparable _ _ Hyz) as [_ Hz].
  apply float_leb_before; [assumption..|].
  apply float_leb_before in Hxy; [|assumption..].
  apply float_leb_before in Hyz; [|assumption..].
  eapply not_before_trans; eassumption.
Qed.

Lemma float_ltb_leb (x y : float) :
  (x <? y)%float = true -> (x <=? y)%float = true.
Proof.
  intros Hxy. destruct (float_ltb_comparable _ _ Hxy) as [Hx Hy].
  apply float_leb_before; [assumption..|].
  apply float_ltb_before in Hxy; [|assumption..].
  apply before_not_back. exact Hxy.
Qed.

Lemma float_ltb_false_leb (x y : float) :
  comparable x -> comparable y ->
  (x <? y)%float = false -> (y <=? x)%float = true.
Proof.
  intros Hx Hy Hxy. apply float_leb_before; [assumption..|].
  intros Hb. apply float_ltb_before in Hb; [|assumption..]. congruence.
Qed.

(** ** Chunk alignment *)

Section AlignProofs.

Lemma flt_Q_true (a b : Q) : flt a b = true <-> (a < b)%Q.
Proof.
  simpl. rewrite negb_true_iff. split.
  - intros Hb. apply Qnot_le_lt. intros Hle.
    apply Qle_bool_iff in Hle. congruence.
  - intros Hlt. destruct (Qle_bool b a) eqn:E; [|reflexivity].
    apply Qle_bool_iff in E. exfalso. exact (Qlt_not_le _ _ Hlt E).
Qed.

Lemma flt_Q_false (a b : Q) : flt a b = false <-> (b <= a)%Q.
Proof.
  simpl. rewrite negb_false_iff. apply Qle_bool_iff.
Qed.

Lemma in_segment_in_range (s e : Q) (f : FrameDesc Q) :
  in_segment s e f = true <-> in_range s e f.
Proof.
  unfold in_segment, in_range. simpl.
  rewrite andb_true_iff, !Qle_bool_iff. reflexivity.
Qed.

Lemma filter_in_segment (s e : Q) (frames : list (FrameDesc Q)) :
  List.filter (in_segment s e) frames = filter (in_range s e) frames.
Proof.
  induction frames as [|f frames IH]; [reflexivity|].
  simpl. rewrite filter_cons.
  destruct (in_segment s e f) eqn:E.
  - apply in_segment_in_range in E.
    destruct (decide (in_range s e f)); [|contradiction].
    f_equal. exact IH.
  - destruct (decide (in_range s e f)) as [Hin|_]; [|exact IH].
    apply in_segment_in_range in Hin. congruence.
Qed.

Lemma midpoint_distance_Q (s e : Q) (f : FrameDesc Q) :
  midpoint_distance s e f = distance s e f.
Proof. reflexivity. Qed.

(** The model of [sorted] is a sort: it permutes its input, and on
    rational keys the output is in ascending order of key. *)
Lemma insert_sorted_perm {A K} (lt : K -> K -> bool) (key : A -> K)
      (x : A) (l : list A) :
  Permutation (Py.insert_sorted lt key x l) (x :: l).
Proof.
  induction l as [|y l IH]; [reflexivity|].
  cbn [Py.insert_sorted]. destruct (lt (key y) (key x)); [|reflexivity].
  rewrite IH. apply perm_swap.
Qed.

Lemma sorted_perm {A K} (lt : K -> K -> bool) (key : A -> K) (l : list A) :
  Permutation (Py.sorted lt key l) l.
Proof.
  induction l as [|x l IH]; [reflexivity|].
  cbn [Py.sorted]. rewrite insert_sorted_perm, IH. reflexivity.
Qed.

Lemma insert_sorted_ascending {A} (key : A -> Q) (x : A) (l : list A) :
  StronglySorted (fun a b => (key a <= key b)%Q) l ->
  StronglySorted (fun a b => (key a <= key b)%Q)
                 (Py.insert_sorted flt key x l).
Proof.
  induction 1 as [|y l Hs IH Hy].
  - repeat constructor.
  - cbn [Py.insert_sorted].
    destruct (flt (key y) (key x)) eqn:E.
    + apply flt_Q_true in E. constructor; [exact IH|].
      rewrite insert_sorted_perm. constructor; [|exact Hy].
      apply Qlt_le_weak, E.
    + apply flt_Q_false in E. constructor; [constructor; assumption|].
      constructor; [exact E|].
      eapply Forall_impl; [exact Hy|]. intros z Hz. cbn beta in Hz.
      eapply Qle_trans; [exact E|exact Hz].
Qed.

Lemma sorted_ascending {A} (key : A -> Q) (l : list A) :
  StronglySorted (fun a b => (key a <= key b)%Q) (Py.sorted flt key l).
Proof.
  induction l as [|x l IH]; [constructor|].
  cbn [Py.sorted]. apply insert_sorted_ascending, IH.
Qed.

(** The head of the fallback sort is the first nearest frame. *)
Lemma sorted_head_nearest (s e : Q) (frames : list (FrameDesc Q)) :
  frames <> [] ->
  exists f rest,
    Py.sorted flt (midpoint_distance s e) frames = f :: rest /\
    nearest_first s e frames f.
Proof.
  induction frames as [|x l IH]; [congruence|]. intros _.
  destruct l as [|y l'].
  - exists x, []. split; [reflexivity|]. exists 0%nat.
    split; [reflexivity|]. split.
    + intros [|j] g Hg; simpl in Hg; [|destruct j; discriminate].
      injection Hg as <-. apply Qle_refl.
    + intros j g _ Hj. lia.
  - destruct IH as (f0 & rest & Hs & i0 & Hi0 & Hmin & Hfirst); [congruence|].
    change (Py.sorted flt (midpoint_distance s e) (x :: y :: l'))
      with (Py.insert_sorted flt (midpoint_distance s e) x
              (Py.sorted flt (midpoint_distance s e) (y :: l'))).
    rewrite Hs. cbn [Py.insert_sorted].
    destruct (flt (midpoint_distance s e f0) (midpoint_distance s e x)) eqn:E.
    + apply flt_Q_true in E. rewrite !midpoint_distance_Q in E.
      eexists f0, _. split; [reflexivity|]. exists (S i0).
      split; [exact Hi0|]. split.
      * intros [|j] g Hg.
        -- injection Hg as <-. apply Qlt_le_weak. exact E.
        -- exact (Hmin j g Hg).
      * intros [|j] g Hg Hj.
        -- injection Hg as <-. exact E.
        -- apply (Hfirst j g Hg). lia.
    + apply flt_Q_false in E. rewrite !midpoint_distance_Q in E.
      eexists x, _. split; [reflexivity|]. exists 0%nat.
      split; [reflexivity|]. split.
      * intros [|j] g Hg.
        -- injection Hg as <-. apply Qle_refl.
        -- eapply Qle_trans; [exact E|]. exact (Hmin j g Hg).
      * intros j g _ Hj. lia.
Qed.

Lemma overlaps_inside (s e : Q) (frames : list (FrameDesc Q)) :
  filter (in_range s e) frames <> [] ->
  overlaps s e frames = filter (in_range s e) frames.
Proof.
  intros Hne. unfold overlaps. rewrite filter_in_segment.
  destruct (filter (in_range s e) frames); [congruence|reflexivity].
Qed.

Lemma overlaps_fallback (s e : Q) (frames : list (FrameDesc Q)) :
  filter (in_range s e) frames = [] ->
  frames <> [] ->
  exists f, overlaps s e frames = [f] /\ nearest_first s e frames f.
Proof.
  intros Hnil Hne. unfold overlaps. rewrite filter_in_segment, Hnil.
  destruct (sorted_head_nearest s e frames Hne) as (f & rest & Hs & Hn).
  exists f. split; [|exact Hn]. rewrite Hs. reflexivity.
Qed.

Lemma overlaps_nil `{PyFloat F} (s e : F) : overlaps s e [] = [].
Proof. reflexivity. Qed.

(** In exact arithmetic, where no operation rounds: the frames selected
    for a segment [s, e] are the frames whose timestamp t satisfies
    s <= t <= e, in their order; when there is none and the list is not
    empty, the selection is the single frame nearest to the midpoint
    (s + e) / 2, the earliest of the sequence among the nearest. *)
Lemma align_selects_overlapping_or_nearest_exact :
  forall (vid : string) (segs : list (Segment Q))
         (frames : list (FrameDesc Q)),
    let chunks := align_transcript_and_captions vid segs frames in
    length chunks = length segs /\
    forall (i : nat) (seg : Segment Q),
      segs !! i = Some seg ->
      let s := seg_start seg in
      let e := seg_end seg in
      let selected := overlaps s e frames in
      let inside := filter (in_range s e) frames in
      (exists c : Chunk Q,
          chunks !! i = Some c /\ start c = s /\ end_ c = e /\
          caption c = Py.join " | " (map fd_caption selected) /\
          frame_file c = from_option fd_frame_file "" (head selected)) /\
      (inside <> [] -> selected = inside) /\
      (inside = [] -> frames <> [] ->
       exists f, selected = [f] /\ nearest_first s e frames f) /\
      (frames = [] -> selected = []).
Proof.
  intros vid segs frames chunks. split.
  - unfold chunks, align_transcript_and_captions. apply length_map.
  - intros i seg Hseg s e selected inside. repeat split.
    + exists (chunk_of_segment vid frames seg). repeat split.
      * unfold chunks, align_transcript_and_captions.
        rewrite list_lookup_fmap, Hseg. reflexivity.
      * unfold chunk_of_segment. cbn [frame_file]. fold s e selected.
        destruct selected; reflexivity.
    + apply overlaps_inside.
    + apply overlaps_fallback.
    + intros ->. reflexivity.
Qed.

(** *** Binary64 timestamps *)

Lemma in_segment_in_range64 (s e : float) (f : FrameDesc float) :
  in_segment s e f = true <-> in_range64 s e f.
Proof.
  unfold in_segment, in_range64. cbn [fle binary64].
  rewrite andb_true_iff. reflexivity.
Qed.

Lemma filter_in_segment64 (s e : float) (frames : list (FrameDesc float)) :
  List.filter (in_segment s e) frames = filter (in_range64 s e) frames.
Proof.
  induction frames as [|f frames IH]; [reflexivity|].
  simpl. rewrite filter_cons.
  destruct (in_segment s e f) eqn:E.
  - apply in_segment_in_range64 in E.
    destruct (decide (in_range64 s e f)); [|contradiction].
    f_equal. exact IH.
  - destruct (decide (in_range64 s e f)) as [Hin|_]; [|exact IH].
    apply in_segment_in_range64 in Hin. congruence.
Qed.

Lemma two_binary64 : f_of_Z (F := float) 2 = 2%float.
Proof. vm_compute. reflexivity. Qed.

Lemma midpoint_distance_binary64 (s e : float) (f : FrameDesc float) :
  midpoint_distance s e f = computed_distance s e f.
Proof.
  unfold midpoint_distance, computed_distance. rewrite two_binary64.
  reflexivity.
Qed.

(** The head of the fallback sort is the first frame of least computed
    distance, when every computed distance is a number. *)
Lemma sorted_head_nearest_computed (s e : float)
      (frames : list (FrameDesc float)) :
  Forall (fun f => comparable (computed_distance s e f)) frames ->
  frames <> [] ->
  exists f rest,
    Py.sorted flt (midpoint_distance s e) frames = f :: rest /\
    nearest_first_computed s e frames f.
Proof.
  induction frames as [|x l IH]; [congruence|]. intros Hnum _.
  inversion Hnum as [|? ? Hx Hl]; subst.
  destruct l as [|y l'].
  - exists x, []. split; [reflexivity|]. exists 0%nat.
    split; [reflexivity|]. split.
    + intros [|j] g Hg; simpl in Hg; [|destruct j; discriminate].
      injection Hg as <-. apply float_leb_refl, Hx.
    + intros j g _ Hj. lia.
  - destruct (IH Hl) as (f0 & rest & Hs & i0 & Hi0 & Hmin & Hfirst);
      [congruence|].
    assert (Hf0 : comparable (computed_distance s e f0)).
    { apply (proj1 (List.Forall_forall _ _) Hl).
      apply list_elem_of_In, list_elem_of_lookup. exists i0. exact Hi0. }
    change (Py.sorted flt (midpoint_distance s e) (x :: y :: l'))
      with (Py.insert_sorted flt (midpoint_distance s e) x
              (Py.sorted flt (midpoint_distance s e) (y :: l'))).
    rewrite Hs. cbn [Py.insert_sorted].
    rewrite (midpoint_distance_binary64 s e f0),
      (midpoint_distance_binary64 s e x).
    change (flt (computed_distance s e f0) (computed_distance s e x))
      with (computed_distance s e f0 <? computed_distance s e x)%float.
    destruct (computed_distance s e f0 <? computed_distance s e x)%float
      eqn:E.
    + eexists f0, _. split; [reflexivity|]. exists (S i0).
      split; [exact Hi0|]. split.
      * intros [|j] g Hg.
        -- injection Hg as <-. apply float_ltb_leb. exact E.
        -- exact (Hmin j g Hg).
      * intros [|j] g Hg Hj.
        -- injection Hg as <-. exact E.
        -- apply (Hfirst j g Hg). lia.
    + apply float_ltb_false_leb in E; [|assumption..].
      eexists x, _. split; [reflexivity|]. exists 0%nat.
      split; [reflexivity|]. split.
      * intros [|j] g Hg.
        -- injection Hg as <-. apply float_leb_refl, Hx.
        -- eapply float_leb_trans; [exact E|]. exact (Hmin j g Hg).
      * intros j g _ Hj. lia.
Qed.

Lemma overlaps_inside64 (s e : float) (frames : list (FrameDesc float)) :
  filter (in_range64 s e) frames <> [] ->
  overlaps s e frames = filter (in_range64 s e) frames.
Proof.
  intros Hne. unfold overlaps. rewrite filter_in_segment64.
  destruct (filter (in_range64 s e) frames); [congruence|reflexivity].
Qed.

Lemma overlaps_fallback64 (s e : float) (frames : list (FrameDesc float)) :
  filter (in_range64 s e) frames = [] ->
  frames <> [] ->
  Forall (fun f => comparable (computed_distance s e f)) frames ->
  exists f, overlaps s e frames = [f] /\
            nearest_first_computed s e frames f.
Proof.
  intros Hnil Hne Hnum. unfold overlaps. rewrite filter_in_segment64, Hnil.
  destruct (sorted_head_nearest_computed s e frames Hnum Hne)
    as (f & rest & Hs & Hn).
  exists f. split; [|exact Hn]. rewrite Hs. reflexivity.
Qed.

(** C1, amended: for every transcript segment [s, e] and every list of
    frame descriptions, with the binary64 timestamps of the interpreter,
    the frames selected for the segment are exactly the frames whose
    timestamp t satisfies s <= t <= e, in their order; when there is
    none, the list is not empty and no computed distance is NaN, the
    selection is the single frame of least distance to the midpoint, the
    distance being the binary64 number abs(t - (s + e) / 2.0) that the
    code computes, each operation rounded, and among the frames of equal
    computed distance the earliest of the sequence; the caption joins the
    captions of the selection and the representative frame is its first
    frame; the chunks are one per segment, in the order of the segments,
    each with the start and the end of its segment. *)
Theorem align_selects_by_computed_distance :
  forall (vid : string) (segs : list (Segment float))
         (frames : list (FrameDesc float)),
    let chunks := align_transcript_and_captions vid segs frames in
    length chunks = length segs /\
    forall (i : nat) (seg : Segment float),
      segs !! i = Some seg ->
      let s := seg_start seg in
      let e := seg_end seg in
      let selected := overlaps s e frames in
      let inside := filter (in_range64 s e) frames in
      (exists c : Chunk float,
          chunks !! i = Some c /\ start c = s /\ end_ c = e /\
          caption c = Py.join " | " (map fd_caption selected) /\
          frame_file c = from_option fd_frame_file "" (head selected)) /\
      (inside <> [] -> selected = inside) /\
      (inside = [] -> frames <> [] ->
       Forall (fun f => comparable (computed_distance s e f)) frames ->
       exists f, selected = [f] /\ nearest_first_computed s e frames f) /\
      (frames = [] -> selected = []).
Proof.
  intros vid segs frames chunks. split.
  - unfold chunks, align_transcript_and_captions. apply length_map.
  - intros i seg Hseg s e selected inside. repeat split.
    + exists (chunk_of_segment vid frames seg). repeat split.
      * unfold chunks, align_transcript_and_captions.
        rewrite list_lookup_fmap, Hseg. reflexivity.
      * unfold chunk_of_segment. cbn [frame_file]. fold s e selected.
        destruct selected; reflexivity.
    + apply overlaps_inside64.
    + apply overlaps_fallback64.
    + intros ->. reflexivity.
Qed.

End AlignProofs.

(** The amended C1 between the second and the third of three frames: the
    segment [0.25, 0.3] holds no frame, and the frame selected is the
    first of least computed distance. *)
Lemma align_selects_by_computed_distance_witness :
  exists f,
    overlaps 0.25%float 0.3%float three_frames = [f] /\
    nearest_first_computed 0.25%float 0.3%float three_frames f.
Proof.
  destruct (align_selects_by_computed_distance "0123456789"
              [ {| seg_start := 0.25%float; seg_end := 0.3%float;
                   seg_text := Some "and then" |} ]
              three_frames) as [_ Hsel].
  destruct (Hsel 0%nat _ eq_refl) as (_ & _ & Hnear & _).
  apply Hnear.
  - vm_compute. reflexivity.
  - discriminate.
  - repeat constructor.
Defined.

(** C1, counterexample: three frames extracted at five frames per second
    have the timestamps 0, 0.2 and 0.4, and the segment [0.26, 0.34]
    holds none of them.  The second and the third frame are equally near
    to the midpoint of the segment: the distances of the four numbers
    are equal as rational numbers, so the second frame, the earlier one,
    is the nearest frame with ties broken by sequence order.  The code
    rounds the midpoint to 0.30000000000000004 and selects the third
    frame. *)
Lemma align_rounded_tie_selects_later_frame :
  let seg := {| seg_start := 0.26%float; seg_end := 0.34%float;
                seg_text := Some "and then" |} in
  map Some (map fd_timestamp three_frames)
  = map (fun n => ExtractFrames.frame_number_to_timestamp_seconds n 5%float)
        [1; 2; 3] /\
  filter (in_range64 0.26 0.34) three_frames = [] /\
  map frame_file
      (align_transcript_and_captions "0123456789" [seg] three_frames)
  = ["frame_000003.jpg"] /\
  (Qabs (exact 0.2 - (exact 0.26 + exact 0.34) / 2)
   == Qabs (exact 0.4 - (exact 0.26 + exact 0.34) / 2))%Q /\
  nearest_first (exact 0.26) (exact 0.34) (map exact_frame three_frames)
    {| fd_frame_file := "frame_000002.jpg"; fd_timestamp := exact 0.2;
       fd_caption := "a man at a desk" |}.
Proof.
  cbn zeta. split; [vm_compute; reflexivity|].
  split; [vm_compute; reflexivity|].
  split; [vm_compute; reflexivity|].
  split; [vm_compute; reflexivity|].
  exists 1%nat. split; [vm_compute; reflexivity|]. split.
  - intros [|[|[|j]]] g Hg; cbn in Hg; try discriminate;
      injection Hg as <-; vm_compute; discriminate.
  - intros [|j] g Hg Hj; [|lia]. cbn in Hg. injection Hg as <-.
    vm_compute. reflexivity.
Qed.

(** A segment over two frames, a segment between two frames nearer to the
    first, and a segment whose midpoint is as far from one frame as from
    the next. *)
Example align_four_frames :
  map (fun c => (caption c, frame_file c))
      (align_transcript_and_captions "0123456789"
         [ {| seg_start := 1 # 2; seg_end := 5 # 2; seg_text := Some "one" |};
           {| seg_start := 12 # 10; seg_end := 14 # 10;
              seg_text := Some "two" |};
           {| seg_start := 14 # 10; seg_end := 16 # 10;
              seg_text := None |} ]%Q
         four_frames)
  = [ ("a man at a desk | a whiteboard", "frame_000002.jpg");
      ("a man at a desk", "frame_000002.jpg");
      ("a man at a desk", "frame_000002.jpg") ].
Proof. vm_compute. reflexivity. Qed.

(** C9: with an empty list of frame descriptions,
    [align_transcript_and_captions] returns one chunk per segment, in the
    order of the segments, each with the start and the end of its segment,
    an empty caption and no representative frame.  The function is total:
    no input makes it fail.  This holds for every float arithmetic. *)
Theorem align_without_frames :
  forall (F : Type) (PF : PyFloat F) (vid : string)
         (segs : list (Segment F)),
    let chunks := align_transcript_and_captions vid segs [] in
    length chunks = length segs /\
    forall (i : nat) (seg : Segment F),
      segs !! i = Some seg ->
      chunks !! i
      = Some {| video_id := vid;
                start := seg_start seg;
                end_ := seg_end seg;
                transcript := Py.strip (default "" (seg_text seg));
                caption := "";
                frame_file := "" |}.
Proof.
  intros F PF vid segs chunks. split.
  - apply length_map.
  - intros i seg Hseg. unfold chunks, align_transcript_and_captions.
    rewrite list_lookup_fmap, Hseg. reflexivity.
Qed.

(** ** The adaptive cutoff *)

Section CutoffProofs.
Context {F : Type} {PF : PyFloat F}.
Variable env : CutoffEnv F.

Lemma scored_cons h hits :
  scored (h :: hits) = (h, _effective_score h) :: scored hits.
Proof. reflexivity. Qed.

(** Candidates below [min_score] leave the state of the loop untouched. *)
Lemma accumulate_skips (best : F) (k : Z) (hits : list (Hit F)) :
  forall out prev,
    accumulate env best k out prev (scored hits)
    = spec_walk env best k out prev
        (List.filter (meets_min_score env) hits).
Proof.
  induction hits as [|h hits IH]; intros out prev; [reflexivity|].
  rewrite scored_cons. cbn [accumulate List.filter].
  unfold meets_min_score at 1.
  destruct (_effective_score h <? min_score env)%F eqn:Emin; cbn [negb].
  - apply IH.
  - cbn [spec_walk]. unfold violates. rewrite Emin. cbn [orb].
    destruct (_effective_score h <? best * relative_min env)%F; [reflexivity|].
    cbn [orb].
    destruct (prev - _effective_score h >=? dropoff_gap env)%F; [reflexivity|].
    destruct (Z.of_nat (length (out ++ [h])) >=? k); [reflexivity|].
    apply IH.
Qed.

Lemma filter_all_true {A} (p : A -> bool) (l : list A) :
  (forall x, In x l -> p x = true) -> List.filter p l = l.
Proof.
  induction l as [|x l IH]; intros Hall; [reflexivity|].
  simpl. rewrite (Hall x (or_introl eq_refl)). f_equal.
  apply IH. intros y Hy. apply Hall. right. exact Hy.
Qed.

Lemma accumulate_sublist (best : F) (k : Z) (pairs : list (Hit F * F)) :
  forall out prev,
    exists ys, accumulate env best k out prev pairs = (out ++ ys)%list /\
               sublist ys (map fst pairs).
Proof.
  induction pairs as [|[h s] rest IH]; intros out prev.
  - exists []. split; [symmetry; apply app_nil_r|constructor].
  - cbn [accumulate map fst].
    destruct (s <? min_score env)%F.
    { destruct (IH out prev) as (ys & -> & Hs).
      exists ys. split; [reflexivity|]. apply sublist_cons_r. left. exact Hs. }
    destruct (s <? best * relative_min env)%F.
    { exists []. split; [symmetry; apply app_nil_r|apply sublist_nil_l]. }
    destruct (prev - s >=? dropoff_gap env)%F.
    { exists []. split; [symmetry; apply app_nil_r|apply sublist_nil_l]. }
    destruct (Z.of_nat (length (out ++ [h])) >=? k).
    { exists [h]. split; [reflexivity|].
      apply sublist_skip. apply sublist_nil_l. }
    destruct (IH (out ++ [h])%list s) as (ys & -> & Hs).
    exists (h :: ys). split; [rewrite <- app_assoc; reflexivity|].
    apply sublist_skip. exact Hs.
Qed.

Lemma accumulate_length (best : F) (k : Z) (pairs : list (Hit F * F)) :
  forall out prev,
    Z.of_nat (length out) < k ->
    Z.of_nat (length (accumulate env best k out prev pairs)) <= k.
Proof.
  induction pairs as [|[h s] rest IH]; intros out prev Hout;
    cbn [accumulate]; [lia|].
  destruct (s <? min_score env)%F; [apply IH; exact Hout|].
  destruct (s <? best * relative_min env)%F; [lia|].
  destruct (prev - s >=? dropoff_gap env)%F; [lia|].
  destruct (Z.geb_spec (Z.of_nat (length (out ++ [h]))) k) as [Hge|Hlt].
  - rewrite length_app in *. simpl in *. lia.
  - apply IH. exact Hlt.
Qed.

Lemma scored_fst (hits : list (Hit F)) : map fst (scored hits) = hits.
Proof.
  unfold scored. induction hits as [|h hits IH]; [reflexivity|].
  simpl. f_equal. exact IH.
Qed.

Lemma slice_to_nonneg {A} (n : Z) (l : list A) :
  0 <= n -> Py.slice_to n l = take (Z.to_nat n) l.
Proof.
  intros Hn. unfold Py.slice_to.
  destruct (Z.leb_spec 0 n); [reflexivity|lia].
Qed.

Lemma first_raw_take (hits : list (Hit F)) (k : Z) :
  0 <= k ->
  first_raw env hits k
  = take (Z.to_nat (Z.min k (min_return_hits env))) hits.
Proof.
  intros Hk. unfold first_raw. rewrite slice_to_nonneg by lia.
  f_equal. lia.
Qed.

Lemma filter_hits_cons (h : Hit F) (tl : list (Hit F)) (k : Z) :
  _filter_hits env (h :: tl) k
  = let best := _effective_score h in
    if (best <=? f_of_Z 0)%F then first_raw env (h :: tl) k
    else
      let out := accumulate env best k [] best (scored (h :: tl)) in
      if Z.of_nat (length out) <? min_return_hits env
      then first_raw env (h :: tl) k
      else out.
Proof. reflexivity. Qed.


Lemma accumulate_keep (best : F) (k : Z) (out : list (Hit F)) (prev s : F)
      (h : Hit F) (rest : list (Hit F * F)) :
  (s <? min_score env)%F = false ->
  (s <? best * relative_min env)%F = false ->
  (prev - s >=? dropoff_gap env)%F = false ->
  accumulate env best k out prev ((h, s) :: rest)
  = if Z.of_nat (length (out ++ [h])) >=? k then (out ++ [h])%list
    else accumulate env best k (out ++ [h]) s rest.
Proof.
  intros Hmin Hrel Hgap. cbn [accumulate]. rewrite Hmin, Hrel, Hgap.
  reflexivity.
Qed.

Lemma accumulate_stop_relative (best : F) (k : Z) (out : list (Hit F))
      (prev s : F) (h : Hit F) (rest : list (Hit F * F)) :
  (s <? min_score env)%F = false ->
  (s <? best * relative_min env)%F = true ->
  accumulate env best k out prev ((h, s) :: rest) = out.
Proof.
  intros Hmin Hrel. cbn [accumulate]. rewrite Hmin, Hrel. reflexivity.
Qed.

(** The loop on a candidate list in any order: a candidate whose score is
    below min_score is passed over, it neither stops the loop nor enters
    the comparison of drops; over the other candidates the loop
    accumulates while the score is at least best * relative_min and the
    drop from the previous accumulated score is below dropoff_gap, and
    stops at the first candidate that breaks one of these two
    conditions, or once top_k items are collected. *)
Lemma cutoff_walk_skips_below_min_score :
  forall (h : Hit F) (tl : list (Hit F)) (k : Z),
    let hits := h :: tl in
    let best := _effective_score h in
    (best <=? f_of_Z 0)%F = false ->
    let out :=
      spec_walk env best k [] best
                (List.filter (meets_min_score env) hits) in
    accumulate env best k [] best (scored hits) = out /\
    _filter_hits env hits k
    = if Z.of_nat (length out) <? min_return_hits env
      then first_raw env hits k else out.
Proof.
  intros h tl k hits best Hbest out.
  assert (Hacc : accumulate env best k [] best (scored hits) = out)
    by apply accumulate_skips.
  split; [exact Hacc|].
  unfold hits. rewrite filter_hits_cons. cbn zeta. fold best hits.
  rewrite Hbest, Hacc. reflexivity.
Qed.

(** Where every candidate meets the floor, the walk is the one of the
    specification. *)
Lemma cutoff_walk_is_spec_walk_above_floor :
  forall (best : F) (k : Z) (hits : list (Hit F)),
    (forall h, In h hits -> meets_min_score env h = true) ->
    accumulate env best k [] best (scored hits)
    = spec_walk env best k [] best hits.
Proof.
  intros best k hits Hall. rewrite accumulate_skips.
  rewrite filter_all_true by exact Hall. reflexivity.
Qed.

(** C4, amended: for every non-empty candidate list and every
    top_k >= 1: if the score of the first candidate is <= 0, the result is
    the first min(top_k, min_return_hits) candidates; if the accumulation
    holds fewer than min_return_hits entries, it is dropped and the result
    is the first min(top_k, min_return_hits) candidates; otherwise the
    result is the accumulation; and with min_return_hits >= 1 the result
    is never empty. *)
Theorem cutoff_minimum_hits :
  forall (h : Hit F) (tl : list (Hit F)) (k : Z),
    1 <= k ->
    let hits := h :: tl in
    let best := _effective_score h in
    let raw := take (Z.to_nat (Z.min k (min_return_hits env))) hits in
    let out := accumulate env best k [] best (scored hits) in
    ((best <=? f_of_Z 0)%F = true -> _filter_hits env hits k = raw) /\
    ((best <=? f_of_Z 0)%F = false ->
     Z.of_nat (length out) < min_return_hits env ->
     _filter_hits env hits k = raw) /\
    ((best <=? f_of_Z 0)%F = false ->
     min_return_hits env <= Z.of_nat (length out) ->
     _filter_hits env hits k = out) /\
    (1 <= min_return_hits env -> _filter_hits env hits k <> []).
Proof.
  intros h tl k Hk hits best raw out.
  assert (Hraw : first_raw env hits k = raw)
    by (apply first_raw_take; lia).
  assert (Hsome : 1 <= min_return_hits env -> raw <> []).
  { intros Hm. unfold raw, hits.
    replace (Z.to_nat (Z.min k (min_return_hits env)))
      with (S (Z.to_nat (Z.min k (min_return_hits env) - 1))) by lia.
    discriminate. }
  unfold hits at 1 2 3 4. rewrite filter_hits_cons. cbn zeta.
  fold best hits out. rewrite Hraw.
  repeat split.
  - intros ->. reflexivity.
  - intros -> Hlt.
    destruct (Z.ltb_spec (Z.of_nat (length out)) (min_return_hits env));
      [reflexivity|lia].
  - intros -> Hge.
    destruct (Z.ltb_spec (Z.of_nat (length out)) (min_return_hits env));
      [lia|reflexivity].
  - intros Hm. destruct (best <=? f_of_Z 0)%F; [exact (Hsome Hm)|].
    destruct (Z.ltb_spec (Z.of_nat (length out)) (min_return_hits env));
      [exact (Hsome Hm)|].
    intros Hnil. rewrite Hnil in *. simpl in *. lia.
Qed.

(** C10: for every candidate list, every top_k >= 1 and every setting of
    min_return_hits, also one above top_k, the result is a subsequence of
    the candidates, in their order, of length at most top_k. *)
Theorem cutoff_returns_bounded_subsequence :
  forall (hits : list (Hit F)) (k : Z),
    1 <= k ->
    sublist (_filter_hits env hits k) hits /\
    Z.of_nat (length (_filter_hits env hits k)) <= k.
Proof.
  intros hits k Hk.
  assert (Hraw : sublist (first_raw env hits k) hits /\
                 Z.of_nat (length (first_raw env hits k)) <= k).
  { rewrite first_raw_take by lia. split; [apply sublist_take|].
    rewrite length_take. lia. }
  destruct hits as [|h tl]; [split; [constructor|simpl; lia]|].
  rewrite filter_hits_cons. cbn zeta.
  destruct (_effective_score h <=? f_of_Z 0)%F; [exact Hraw|].
  destruct (_ <? min_return_hits env); [exact Hraw|].
  split.
  - destruct (accumulate_sublist (_effective_score h) k
                (scored (h :: tl)) [] (_effective_score h))
      as (ys & -> & Hs).
    rewrite scored_fst in Hs. exact Hs.
  - apply accumulate_length. simpl. lia.
Qed.

End CutoffProofs.

(** At the scores 0.9, 0.4 and 0.89, which are not in descending order,
    with a floor of 0.5: the second candidate is passed over and the
    third is kept. *)
Lemma cutoff_walk_skips_below_min_score_witness :
  (_effective_score (hit_of_score 0.9%float) <=? f_of_Z 0)%F = false /\
  accumulate env_floor (_effective_score (hit_of_score 0.9%float)) 5 []
    (_effective_score (hit_of_score 0.9%float))
    (scored (map hit_of_score [0.9; 0.4; 0.89]%float))
  = spec_walk env_floor (_effective_score (hit_of_score 0.9%float)) 5 []
      (_effective_score (hit_of_score 0.9%float))
      (map hit_of_score [0.9; 0.89]%float).
Proof.
  split; [vm_compute; reflexivity|].
  apply (cutoff_walk_skips_below_min_score (PF := binary64) env_floor
           (hit_of_score 0.9%float)
           (map hit_of_score [0.4; 0.89]%float) 5).
  vm_compute. reflexivity.
Defined.

(** In binary64 the defaults are the numbers that [float] reads from
    "0", "0.90" and "0.08". *)
Example default_env_binary64 :
  default_env
  = {| min_score := 0%float; relative_min := 0.90%float;
       dropoff_gap := 0.08%float; min_return_hits := 1 |}.
Proof. vm_compute. reflexivity. Qed.

(** C3: with the default parameters and top_k >= 3, candidates with the
    effective scores 0.95, 0.94, 0.93, 0.60 and 0.55 give exactly the
    first three candidates, in that order.  The scores and the parameters
    are binary64 numbers, as in the interpreter. *)
Theorem cutoff_literal_case :
  forall (h1 h2 h3 h4 h5 : Hit float) (k : Z),
    3 <= k ->
    _effective_score h1 = 0.95%float ->
    _effective_score h2 = 0.94%float ->
    _effective_score h3 = 0.93%float ->
    _effective_score h4 = 0.60%float ->
    _effective_score h5 = 0.55%float ->
    _filter_hits default_env [h1; h2; h3; h4; h5] k = [h1; h2; h3].
Proof.
  intros h1 h2 h3 h4 h5 k Hk E1 E2 E3 E4 E5.
  rewrite filter_hits_cons. cbn zeta.
  unfold scored. cbn [map zip zip_with]. rewrite E1, E2, E3, E4, E5.
  replace (fle 0.95%float (f_of_Z 0)) with false by (vm_compute; reflexivity).
  rewrite accumulate_keep by (vm_compute; reflexivity).
  cbn [app length].
  destruct (Z.geb_spec (Z.of_nat 1) k); [lia|].
  rewrite accumulate_keep by (vm_compute; reflexivity).
  cbn [app length].
  destruct (Z.geb_spec (Z.of_nat 2) k); [lia|].
  rewrite accumulate_keep by (vm_compute; reflexivity).
  cbn [app length].
  assert (Hout : (if Z.of_nat 3 >=? k then [h1; h2; h3]
                  else accumulate default_env 0.95%float k [h1; h2; h3]
                         0.93%float [(h4, 0.60%float); (h5, 0.55%float)])
                 = [h1; h2; h3]).
  { destruct (Z.of_nat 3 >=? k); [reflexivity|].
    apply accumulate_stop_relative; vm_compute; reflexivity. }
  rewrite Hout. reflexivity.
Qed.

(** C3 at top_k = 5, for hits that carry a raw score only. *)
Lemma cutoff_literal_case_witness :
  3 <= 5 /\
  _filter_hits default_env
    (map hit_of_score [0.95; 0.94; 0.93; 0.60; 0.55]%float) 5
  = map hit_of_score [0.95; 0.94; 0.93]%float.
Proof.
  split; [lia|].
  apply (cutoff_literal_case
           (hit_of_score 0.95%float) (hit_of_score 0.94%float)
           (hit_of_score 0.93%float) (hit_of_score 0.60%float)
           (hit_of_score 0.55%float) 5);
    [lia | vm_compute; reflexivity ..].
Defined.

(** The same, in exact arithmetic. *)
Lemma cutoff_literal_case_exact :
  _filter_hits default_env
    (map hit_of_score [95 # 100; 94 # 100; 93 # 100; 60 # 100; 55 # 100]%Q) 5
  = map hit_of_score [95 # 100; 94 # 100; 93 # 100]%Q.
Proof. vm_compute. reflexivity. Qed.

Section Descending.
Variable env : CutoffEnv Q.

Lemma accumulate_all_below (best : Q) (k : Z) (hits : list (Hit Q)) :
  forall out prev,
    Forall (fun h => (_effective_score h <? min_score env)%F = true) hits ->
    accumulate env best k out prev (scored hits) = out.
Proof.
  induction hits as [|h hits IH]; intros out prev Hall; [reflexivity|].
  inversion Hall as [|? ? Hh Hrest]; subst.
  rewrite scored_cons. cbn [accumulate]. rewrite Hh. apply IH, Hrest.
Qed.

(** On candidates in descending order of score, skipping a candidate
    below [min_score] and stopping there give the same output. *)
Lemma cutoff_walk_is_spec_walk_on_descending (best : Q) (k : Z)
      (hits : list (Hit Q)) :
  StronglySorted
    (fun a b => (_effective_score b <= _effective_score a)%Q) hits ->
  forall out prev,
    accumulate env best k out prev (scored hits)
    = spec_walk env best k out prev hits.
Proof.
  induction 1 as [|h hits Hsorted IH Hle]; intros out prev; [reflexivity|].
  rewrite scored_cons. cbn [accumulate spec_walk]. unfold violates.
  destruct (_effective_score h <? min_score env)%F eqn:Emin; cbn [orb].
  - apply accumulate_all_below.
    apply flt_Q_true in Emin.
    eapply Forall_impl; [exact Hle|]. intros h' Hh'. cbn beta in Hh'.
    apply flt_Q_true. eapply Qle_lt_trans; [exact Hh'|exact Emin].
  - destruct (_effective_score h <? best * relative_min env)%F;
      [reflexivity|]. cbn [orb].
    destruct (prev - _effective_score h >=? dropoff_gap env)%F;
      [reflexivity|].
    destruct (Z.of_nat (length (out ++ [h])) >=? k); [reflexivity|].
    apply IH.
Qed.
End Descending.

(** On the descending scores 0.9, 0.4 and 0.3 with a floor of 0.5 the two
    walks agree. *)
Lemma cutoff_walk_is_spec_walk_on_descending_witness :
  accumulate env_floor_exact (9 # 10) 5 [] (9 # 10)
    (scored (map hit_of_score [9 # 10; 4 # 10; 3 # 10]%Q))
  = spec_walk env_floor_exact (9 # 10) 5 [] (9 # 10)
      (map hit_of_score [9 # 10; 4 # 10; 3 # 10]%Q).
Proof.
  apply (cutoff_walk_is_spec_walk_on_descending env_floor_exact (9 # 10) 5
           (map hit_of_score [9 # 10; 4 # 10; 3 # 10]%Q)).
  repeat constructor; vm_compute; discriminate.
Defined.

(** *** Candidates in descending order, binary64 scores *)

Lemma sublist_all {A} (P : A -> Prop) (l1 l2 : list A) :
  sublist l1 l2 -> Forall P l2 -> Forall P l1.
Proof.
  induction 1 as [|x l1 l2 _ IH|x l1 l2 _ IH]; intros Hall.
  - constructor.
  - inversion Hall; subst. constructor; [assumption|apply IH; assumption].
  - inversion Hall; subst. apply IH; assumption.
Qed.

Lemma sublist_strongly_sorted {A} (R : A -> A -> Prop) (l1 l2 : list A) :
  sublist l1 l2 -> StronglySorted R l2 -> StronglySorted R l1.
Proof.
  induction 1 as [|x l1 l2 Hsub IH|x l1 l2 _ IH]; intros Hs.
  - constructor.
  - inversion Hs; subst. constructor; [apply IH; assumption|].
    eapply sublist_all; eassumption.
  - inversion Hs; subst. apply IH; assumption.
Qed.

Section DescendingBinary64.
Variable env : CutoffEnv float.

Lemma accumulate_all_below_floor (best : float) (k : Z)
      (hits : list (Hit float)) :
  forall out prev,
    Forall (fun h => (_effective_score h <? min_score env)%float = true)
           hits ->
    accumulate env best k out prev (scored hits) = out.
Proof.
  induction hits as [|h hits IH]; intros out prev Hall; [reflexivity|].
  inversion Hall as [|? ? Hh Hrest]; subst.
  rewrite scored_cons. cbn [accumulate].
  change (flt (_effective_score h) (min_score env))
    with (_effective_score h <? min_score env)%float.
  rewrite Hh. apply IH, Hrest.
Qed.

(** Once a candidate is below [min_score], every later candidate of a
    descending list is, and the loop adds nothing more: passing over the
    candidate and stopping at it give the same output. *)
Lemma descending_walk (best : float) (k : Z) (hits : list (Hit float)) :
  descending hits ->
  forall out prev,
    accumulate env best k out prev (scored hits)
    = spec_walk env best k out prev hits.
Proof.
  induction 1 as [|h hits Hsorted IH Hle]; intros out prev; [reflexivity|].
  rewrite scored_cons. cbn [accumulate spec_walk]. unfold violates.
  destruct (_effective_score h <? min_score env)%F eqn:Emin; cbn [orb].
  - apply accumulate_all_below_floor.
    eapply Forall_impl; [exact Hle|]. intros h' Hh'. cbn beta in Hh'.
    exact (float_leb_ltb_trans _ _ _ Hh' Emin).
  - destruct (_effective_score h <? best * relative_min env)%F;
      [reflexivity|]. cbn [orb].
    destruct (prev - _effective_score h >=? dropoff_gap env)%F;
      [reflexivity|].
    destruct (Z.of_nat (length (out ++ [h])) >=? k); [reflexivity|].
    apply IH.
Qed.

(** C2: for every candidate list in descending order of effective score
    whose first score best is not <= 0, as every positive score is, the
    loop of the cutoff returns what the walk of the specification
    returns: the candidates accumulated in order while the score is
    >= min_score and >= best * relative_min and the drop from the
    previous accumulated score is < dropoff_gap, up to the first
    candidate that violates one of the three conditions or until top_k
    items are collected.  A candidate below min_score ends the
    accumulation: from it on, the loop adds nothing to what it has
    accumulated, whatever that is.  The result of
    [_filter_hits] is this accumulation unless it holds fewer than
    min_return_hits entries, and for top_k >= 0 it is the result of the
    three steps of the specification.  Scores are binary64 numbers. *)
Theorem cutoff_stops_at_first_violation :
  forall (h : Hit float) (tl : list (Hit float)) (k : Z),
    let hits := h :: tl in
    let best := _effective_score h in
    descending hits ->
    (best <=? 0)%float = false ->
    let out := spec_walk env best k [] best hits in
    accumulate env best k [] best (scored hits) = out /\
    (forall earlier m later out prev,
        hits = (earlier ++ m :: later)%list ->
        (_effective_score m <? min_score env)%float = true ->
        accumulate env best k out prev (scored (m :: later)) = out) /\
    _filter_hits env hits k
    = (if Z.of_nat (length out) <? min_return_hits env
       then first_raw env hits k else out) /\
    (0 <= k -> _filter_hits env hits k = spec_cutoff env hits k).
Proof.
  intros h tl k hits best Hdesc Hbest out.
  assert (Hacc : accumulate env best k [] best (scored hits) = out)
    by (apply descending_walk, Hdesc).
  assert (Hfilter : _filter_hits env hits k
                    = (if Z.of_nat (length out) <? min_return_hits env
                       then first_raw env hits k else out)).
  { unfold hits. rewrite filter_hits_cons. cbn zeta. fold best hits.
    change (fle best (f_of_Z 0)) with (best <=? 0)%float.
    rewrite Hbest, Hacc. reflexivity. }
  split; [exact Hacc|]. split; [|split; [exact Hfilter|]].
  - intros earlier m later acc prev Hsplit Hm.
    assert (Hd : descending (m :: later)).
    { unfold descending in *.
      eapply sublist_strongly_sorted; [|exact Hdesc].
      rewrite Hsplit. apply sublist_inserts_l. reflexivity. }
    rewrite descending_walk by exact Hd.
    cbn [spec_walk]. unfold violates.
    change (flt (_effective_score m) (min_score env))
      with (_effective_score m <? min_score env)%float.
    rewrite Hm. reflexivity.
  - intros Hk. rewrite Hfilter. unfold spec_cutoff, hits.
    fold best hits. fold out.
    change (fle best (f_of_Z 0)) with (best <=? 0)%float.
    rewrite Hbest, first_raw_take by exact Hk. reflexivity.
Qed.
End DescendingBinary64.

(** C2 on the descending scores 0.9, 0.4 and 0.3 with a floor of 0.5: the
    accumulation ends at the second candidate. *)
Lemma cutoff_stops_at_first_violation_witness :
  descending (map hit_of_score [0.9; 0.4; 0.3]%float) /\
  (_effective_score (hit_of_score 0.9%float) <=? 0)%float = false /\
  _filter_hits env_floor (map hit_of_score [0.9; 0.4; 0.3]%float) 5
  = spec_cutoff env_floor (map hit_of_score [0.9; 0.4; 0.3]%float) 5 /\
  spec_cutoff env_floor (map hit_of_score [0.9; 0.4; 0.3]%float) 5
  = map hit_of_score [0.9]%float.
Proof.
  assert (Hd : descending (map hit_of_score [0.9; 0.4; 0.3]%float))
    by (repeat constructor).
  split; [exact Hd|]. split; [reflexivity|].
  split; [|vm_compute; reflexivity].
  apply (cutoff_stops_at_first_violation env_floor
           (hit_of_score 0.9%float)
           (map hit_of_score [0.4; 0.3]%float) 5 Hd eq_refl).
  lia.
Defined.

(** The order of the candidates matters.  On the scores 0.9, 0.4 and
    0.89, a list that is not in descending order, with a floor of 0.5,
    the loop passes over the second candidate and keeps the third, and a
    walk that stops at the first violation returns the first candidate
    alone. *)
Example unordered_candidates_are_passed_over :
  (_effective_score (hit_of_score 0.9%float) <=? f_of_Z 0)%F = false /\
  (_effective_score (hit_of_score 0.4%float) <? min_score env_floor)%F = true /\
  _filter_hits env_floor (map hit_of_score [0.9; 0.4; 0.89]%float) 5
  = map hit_of_score [0.9; 0.89]%float /\
  spec_cutoff env_floor (map hit_of_score [0.9; 0.4; 0.89]%float) 5
  = map hit_of_score [0.9]%float /\
  _filter_hits env_floor (map hit_of_score [0.9; 0.4; 0.89]%float) 5
  <> spec_cutoff env_floor (map hit_of_score [0.9; 0.4; 0.89]%float) 5.
Proof. vm_compute. repeat split. discriminate. Qed.

(** C4, counterexample: with the defaults, min_return_hits is 1; a pool of
    one candidate of score 0 and top_k = 0 gives no hit. *)
Lemma no_hit_for_top_k_zero :
  min_return_hits (F := float) default_env = 1 /\
  [hit_of_score 0%float] <> [] /\
  _filter_hits default_env [hit_of_score 0%float] 0 = [].
Proof. vm_compute. repeat split. discriminate. Qed.

(** The amended C4 with min_return_hits = 10 and top_k = 5: the three
    accumulated candidates are dropped for the first five. *)
Lemma cutoff_minimum_hits_witness :
  1 <= 5 /\
  _filter_hits env_many
    (map hit_of_score [0.95; 0.94; 0.93; 0.60; 0.55]%float) 5
  = map hit_of_score [0.95; 0.94; 0.93; 0.60; 0.55]%float.
Proof.
  split; [lia|].
  destruct (cutoff_minimum_hits (PF:=binary64) env_many
              (hit_of_score 0.95%float)
              (map hit_of_score [0.94; 0.93; 0.60; 0.55]%float) 5
              ltac:(lia)) as (_ & Hfew & _ & _).
  etransitivity; [apply Hfew; vm_compute; reflexivity|].
  vm_compute. reflexivity.
Defined.

(** C10 with min_return_hits = 10 and top_k = 2. *)
Lemma cutoff_returns_bounded_subsequence_witness :
  1 <= 2 /\
  Z.of_nat (length (_filter_hits env_many
    (map hit_of_score [0.95; 0.94; 0.93; 0.60; 0.55]%float) 2)) <= 2.
Proof.
  split; [lia|].
  apply (cutoff_returns_bounded_subsequence (PF:=binary64) env_many
           (map hit_of_score [0.95; 0.94; 0.93; 0.60; 0.55]%float) 2).
  lia.
Defined.

(** ** Texts of UUIDs *)

Ltac by_char c :=
  destruct c as [[] [] [] [] [] [] [] []]; try discriminate; try reflexivity.

Lemma lower_hex_no_space_int c :
  is_lower_hex c = true -> Py.isspace_int c = false.
Proof. by_char c. Qed.

Lemma lower_hex_no_brace c : is_lower_hex c = true -> Py.is_brace c = false.
Proof. by_char c. Qed.

Lemma lower_hex_not_u c :
  is_lower_hex c = true -> Ascii.eqb c "u" = false.
Proof. by_char c. Qed.

Lemma lower_hex_not_hyphen c :
  is_lower_hex c = true -> Ascii.eqb c "-" = false.
Proof. by_char c. Qed.

Lemma lower_hex_not_underscore c :
  is_lower_hex c = true -> Ascii.eqb c "_" = false.
Proof. by_char c. Qed.

Lemma lower_hex_digit c :
  is_lower_hex c = true ->
  exists d, Py.digit_value c = Some d /\ 0 <= d < 16 /\ hex_char d = c.
Proof.
  by_char c; intros _; eexists; (split; [cbv; reflexivity|]);
    (split; [lia | reflexivity]).
Qed.

Lemma drop_sign_hex c s :
  is_lower_hex c = true ->
  Py.drop_sign (String c s) = (false, String c s).
Proof. by_char c. Qed.

Lemma drop_prefix_hex c c' s :
  is_lower_hex c' = true ->
  Py.drop_prefix 16 (String c (String c' s)) = String c (String c' s).
Proof.
  intros Hc'. unfold Py.drop_prefix.
  assert (Hx : Ascii.eqb c' "x" || Ascii.eqb c' "X" = false)
    by (revert Hc'; by_char c').
  rewrite Hx, andb_false_r.
  destruct c as [[] [] [] [] [] [] [] []]; reflexivity.
Qed.

Lemma not_underscore_head c s (A : Type) (x y : A) :
  Ascii.eqb c "_" = false ->
  match String c s with String "_" _ => x | _ => y end = y.
Proof. by_char c. Qed.


Lemma all_chars_app p (a b : string) :
  Py.all_chars p (a ++ b) = Py.all_chars p a && Py.all_chars p b.
Proof.
  induction a as [|c a IH]; [reflexivity|].
  simpl. rewrite IH, andb_assoc. reflexivity.
Qed.

Lemma all_chars_impl (p q : ascii -> bool) (s : string) :
  (forall c, p c = true -> q c = true) ->
  Py.all_chars p s = true -> Py.all_chars q s = true.
Proof.
  intros Hpq. induction s as [|c s IH]; [reflexivity|].
  simpl. rewrite !andb_true_iff. intros [Hc Hs].
  split; [apply Hpq, Hc|apply IH, Hs].
Qed.

Lemma lstrip_with_head p c s :
  p c = false -> Py.lstrip_with p (String c s) = String c s.
Proof. intros Hc. simpl. rewrite Hc. reflexivity. Qed.

Lemma rstrip_with_none p (s : string) :
  Py.all_chars (fun c => negb (p c)) s = true -> Py.rstrip_with p s = s.
Proof.
  induction s as [|c s IH]; [reflexivity|].
  simpl. rewrite andb_true_iff, negb_true_iff. intros [Hc Hs].
  rewrite (IH Hs), Hc. destruct s; reflexivity.
Qed.

Lemma strip_with_none p (s : string) :
  Py.all_chars (fun c => negb (p c)) s = true -> Py.strip_with p s = s.
Proof.
  intros Hs. unfold Py.strip_with.
  assert (Hl : Py.lstrip_with p s = s).
  { destruct s as [|c s]; [reflexivity|]. apply lstrip_with_head.
    simpl in Hs. apply andb_true_iff in Hs as [Hc _].
    apply negb_true_iff in Hc. exact Hc. }
  rewrite Hl. apply rstrip_with_none, Hs.
Qed.

Lemma occurs_app c (a b : string) :
  occurs c (a ++ b) = occurs c a || occurs c b.
Proof.
  induction a as [|x a IH]; [reflexivity|].
  simpl. rewrite IH, orb_assoc. reflexivity.
Qed.

Lemma occurs_none p c (s : string) :
  p c = false -> Py.all_chars p s = true -> occurs c s = false.
Proof.
  intros Hc. induction s as [|x s IH]; [reflexivity|].
  simpl. rewrite andb_true_iff. intros [Hx Hs]. rewrite (IH Hs), orb_false_r.
  destruct (Ascii.eqb_spec x c) as [->|]; [congruence|reflexivity].
Qed.

(** Nothing is removed when the first character of [old] is absent. *)
Lemma remove_all_absent c old (s : string) :
  occurs c s = false -> Py.remove_all (String c old) s = s.
Proof.
  unfold Py.remove_all. induction s as [|x s IH]; [reflexivity|].
  simpl. intros Hocc. apply orb_false_iff in Hocc as [Hx Hs].
  destruct (ascii_dec c x) as [->|_].
  - rewrite Ascii.eqb_refl in Hx. discriminate.
  - rewrite (IH Hs). reflexivity.
Qed.

(** Removing hyphens from a group followed by a hyphen. *)
Lemma remove_hyphen_group (g rest : string) :
  occurs "-" g = false ->
  Py.remove_all "-" (g ++ "-" ++ rest) = g ++ Py.remove_all "-" rest.
Proof.
  change ("-" ++ rest) with (String "-" rest).
  unfold Py.remove_all. induction g as [|x g IH]; intros Hocc.
  - change (Py.remove_go "-" 0 (String "-" rest) = Py.remove_go "-" 0 rest).
    cbn [Py.remove_go String.prefix].
    destruct (ascii_dec "-" "-"); [|congruence].
    destruct rest; reflexivity.
  - simpl in Hocc. apply orb_false_iff in Hocc as [Hx Hg].
    change (Py.remove_go "-" 0 (String x (g ++ String "-" rest))
            = String x (g ++ Py.remove_go "-" 0 rest)).
    cbn [Py.remove_go String.prefix].
    destruct (ascii_dec "-" x) as [<-|_].
    + rewrite Ascii.eqb_refl in Hx. discriminate.
    + rewrite (IH Hg). reflexivity.
Qed.

Lemma substring_prefix (a b : string) (n : nat) :
  String.length a = n -> String.substring 0 n (a ++ b) = a.
Proof.
  revert n. induction a as [|c a IH]; intros n Hn.
  - subst n. destruct b; reflexivity.
  - destruct n as [|n]; [discriminate|]. simpl in Hn.
    simpl. f_equal. apply IH. lia.
Qed.

Lemma substring_skip (a b : string) (n k m : nat) :
  String.length a = n ->
  String.substring (n + k) m (a ++ b) = String.substring k m b.
Proof.
  revert n. induction a as [|c a IH]; intros n Hn.
  - subst n. reflexivity.
  - destruct n as [|n]; [discriminate|]. simpl in Hn.
    simpl. apply IH. lia.
Qed.

Lemma substring_all (a : string) (n : nat) :
  String.length a = n -> String.substring 0 n a = a.
Proof.
  revert n. induction a as [|c a IH]; intros n Hn.
  - subst n. reflexivity.
  - destruct n as [|n]; [discriminate|]. simpl in Hn.
    simpl. f_equal. apply IH. lia.
Qed.

Lemma length_append (a b : string) :
  String.length (a ++ b) = (String.length a + String.length b)%nat.
Proof.
  induction a as [|c a IH]; simpl; [reflexivity|].
  rewrite IH; reflexivity.
Qed.

(** Reading hexadecimal digits. *)
Lemma scan_digits_hex (h : string) :
  Py.all_chars is_lower_hex h = true ->
  forall seen acc,
    seen = true \/ h <> "" ->
    Py.scan_digits 16 false seen acc h = Some (hex_value acc h, "").
Proof.
  induction h as [|c h IH]; intros Hh seen acc Hseen.
  - destruct Hseen as [->|Hne]; [reflexivity|congruence].
  - simpl in Hh. apply andb_true_iff in Hh as [Hc Hh].
    cbn [Py.scan_digits hex_value].
    rewrite (lower_hex_not_underscore c Hc).
    destruct (lower_hex_digit c Hc) as (d & -> & Hd & _).
    destruct (Z.ltb_spec d 16); [|lia].
    apply IH; [exact Hh|left; reflexivity].
Qed.

Lemma hex_value_bounds (h : string) :
  Py.all_chars is_lower_hex h = true ->
  forall acc, 0 <= acc ->
    acc * 16 ^ Z.of_nat (String.length h) <= hex_value acc h
    < (acc + 1) * 16 ^ Z.of_nat (String.length h).
Proof.
  induction h as [|c h IH]; intros Hh acc Hacc.
  - simpl. lia.
  - simpl in Hh. apply andb_true_iff in Hh as [Hc Hh].
    cbn [hex_value String.length].
    destruct (lower_hex_digit c Hc) as (d & -> & Hd & _).
    specialize (IH Hh (acc * 16 + d) ltac:(lia)).
    rewrite Nat2Z.inj_succ, Z.pow_succ_r by lia.
    assert (HP : 0 < 16 ^ Z.of_nat (String.length h))
      by (apply Z.pow_pos_nonneg; lia).
    set (P := 16 ^ Z.of_nat (String.length h)) in *.
    set (v := hex_value (acc * 16 + d) h) in *.
    assert (0 <= d * P) by nia.
    assert ((d + 1) * P <= 16 * P) by nia.
    split; nia.
Qed.

(** Printing what was read gives the digits back. *)
Lemma hex_digits_value (h : string) :
  Py.all_chars is_lower_hex h = true ->
  forall (m : nat) acc tail, 0 <= acc ->
    hex_digits (String.length h + m) (hex_value acc h) tail
    = hex_digits m acc (h ++ tail).
Proof.
  induction h as [|c h IH]; intros Hh m acc tail Hacc; [reflexivity|].
  simpl in Hh. apply andb_true_iff in Hh as [Hc Hh].
  cbn [hex_value String.length].
  destruct (lower_hex_digit c Hc) as (d & -> & Hd & Hchar).
  replace (S (String.length h) + m)%nat with (String.length h + S m)%nat by lia.
  rewrite (IH Hh (S m) (acc * 16 + d) tail) by lia.
  cbn [hex_digits].
  replace ((acc * 16 + d) / 16) with acc
    by (apply Z.div_unique with d; lia).
  replace ((acc * 16 + d) mod 16) with d
    by (apply Z.mod_unique with acc; lia).
  rewrite Hchar. reflexivity.
Qed.

Lemma append_empty_r (a : string) : a ++ "" = a.
Proof.
  induction a as [|c a IH]; [reflexivity|].
  change (String c (a ++ "") = String c a). rewrite IH. reflexivity.
Qed.

Lemma hex_or_hyphen_of_hex c : is_lower_hex c = true -> hex_or_hyphen c = true.
Proof. intros Hc. unfold hex_or_hyphen. rewrite Hc. reflexivity. Qed.

Lemma hex_or_hyphen_no_space c :
  hex_or_hyphen c = true -> negb (Py.isspace c) = true.
Proof. by_char c. Qed.

Lemma hex_or_hyphen_no_brace c :
  hex_or_hyphen c = true -> negb (Py.is_brace c) = true.
Proof. by_char c. Qed.

Section Canonical.
Variables g1 g2 g3 g4 g5 : string.
Hypothesis H1 : hex_group 8 g1.
Hypothesis H2 : hex_group 4 g2.
Hypothesis H3 : hex_group 4 g3.
Hypothesis H4 : hex_group 4 g4.
Hypothesis H5 : hex_group 12 g5.

Let s := canonical_text g1 g2 g3 g4 g5.
Let h := digits_of g1 g2 g3 g4 g5.

Lemma canonical_chars : Py.all_chars hex_or_hyphen s = true.
Proof.
  destruct H1 as [_ A1], H2 as [_ A2], H3 as [_ A3], H4 as [_ A4],
           H5 as [_ A5].
  unfold s, canonical_text.
  pose proof (all_chars_impl _ _ _ hex_or_hyphen_of_hex A1) as B1.
  pose proof (all_chars_impl _ _ _ hex_or_hyphen_of_hex A2) as B2.
  pose proof (all_chars_impl _ _ _ hex_or_hyphen_of_hex A3) as B3.
  pose proof (all_chars_impl _ _ _ hex_or_hyphen_of_hex A4) as B4.
  pose proof (all_chars_impl _ _ _ hex_or_hyphen_of_hex A5) as B5.
  rewrite !all_chars_app, B1, B2, B3, B4, B5. reflexivity.
Qed.

Lemma digits_chars : Py.all_chars is_lower_hex h = true.
Proof.
  destruct H1 as [_ A1], H2 as [_ A2], H3 as [_ A3], H4 as [_ A4],
           H5 as [_ A5].
  unfold h, digits_of. rewrite !all_chars_app, A1, A2, A3, A4, A5.
  reflexivity.
Qed.

Lemma digits_length : String.length h = 32%nat.
Proof.
  destruct H1 as [L1 _], H2 as [L2 _], H3 as [L3 _], H4 as [L4 _],
           H5 as [L5 _].
  unfold h, digits_of. rewrite !length_append, L1, L2, L3, L4, L5.
  reflexivity.
Qed.

Lemma canonical_strip : Py.strip s = s.
Proof.
  apply strip_with_none.
  exact (all_chars_impl _ _ _ hex_or_hyphen_no_space canonical_chars).
Qed.

Lemma canonical_strip_braces : Py.strip_braces s = s.
Proof.
  apply strip_with_none.
  exact (all_chars_impl _ _ _ hex_or_hyphen_no_brace canonical_chars).
Qed.

Lemma canonical_not_isdigit : Py.isdigit s = false.
Proof.
  unfold Py.isdigit.
  assert (Hall : Py.all_chars Py.isdigit_char s = false).
  { unfold s, canonical_text. rewrite all_chars_app.
    change (Py.all_chars Py.isdigit_char
              ("-" ++ g2 ++ "-" ++ g3 ++ "-" ++ g4 ++ "-" ++ g5))
      with false.
    apply andb_false_r. }
  rewrite Hall. destruct s; reflexivity.
Qed.

Lemma canonical_nonempty : String.eqb s "" = false.
Proof.
  destruct H1 as [L1 _]. unfold s, canonical_text.
  destruct g1; [discriminate|reflexivity].
Qed.

Lemma canonical_no_hyphen (g : string) :
  Py.all_chars is_lower_hex g = true -> occurs "-" g = false.
Proof. apply occurs_none. reflexivity. Qed.

Lemma canonical_remove_hyphens : Py.remove_all "-" s = h.
Proof.
  destruct H1 as [_ A1], H2 as [_ A2], H3 as [_ A3], H4 as [_ A4],
           H5 as [_ A5].
  unfold s, canonical_text, h, digits_of.
  rewrite !remove_hyphen_group by (apply canonical_no_hyphen; assumption).
  rewrite (remove_all_absent "-" "" g5)
    by (apply canonical_no_hyphen; assumption).
  reflexivity.
Qed.

Lemma digits_int : Py.int_of_str 16 h = Some (hex_value 0 h).
Proof.
  pose proof digits_chars as Hc. pose proof digits_length as Hl.
  destruct h as [|c1 [|c2 t]]; [discriminate..|].
  pose proof Hc as Hc'. cbn [Py.all_chars] in Hc'.
  apply andb_true_iff in Hc' as [Hc1 Hc2].
  apply andb_true_iff in Hc2 as [Hc2 _].
  unfold Py.int_of_str.
  rewrite lstrip_with_head by (apply lower_hex_no_space_int, Hc1).
  rewrite drop_sign_hex by exact Hc1.
  rewrite drop_prefix_hex by exact Hc2.
  rewrite (not_underscore_head c1 (String c2 t) (option Z) None _
             (lower_hex_not_underscore c1 Hc1)).
  rewrite scan_digits_hex by (try exact Hc; right; discriminate).
  reflexivity.
Qed.

Lemma canonical_uuid_int : uuid_int s = Some (hex_value 0 h).
Proof.
  unfold uuid_int.
  assert (Hu : occurs "u" s = false)
    by (apply (occurs_none hex_or_hyphen); [reflexivity|exact canonical_chars]).
  rewrite (remove_all_absent "u" "rn:" s Hu).
  rewrite (remove_all_absent "u" "uid:" s Hu).
  rewrite canonical_strip_braces, canonical_remove_hyphens.
  rewrite digits_length. cbn [Nat.eqb negb].
  rewrite digits_int.
  pose proof (hex_value_bounds h digits_chars 0 ltac:(lia)) as Hb.
  rewrite digits_length in Hb.
  change (16 ^ Z.of_nat 32) with (2 ^ 128) in Hb.
  destruct (Z.leb_spec 0 (hex_value 0 h)); [|lia].
  destruct (Z.ltb_spec (hex_value 0 h) (2 ^ 128)); [|lia].
  reflexivity.
Qed.

Lemma canonical_uuid_str : uuid_str (hex_value 0 h) = s.
Proof.
  unfold uuid_str.
  pose proof (hex_digits_value h digits_chars 0 0 "" ltac:(lia)) as Hp.
  rewrite digits_length in Hp.
  change (hex_digits 32 (hex_value 0 h) "" = h ++ "") in Hp.
  rewrite append_empty_r in Hp. rewrite Hp.
  destruct H1 as [L1 _], H2 as [L2 _], H3 as [L3 _], H4 as [L4 _],
           H5 as [L5 _].
  unfold h, digits_of, s, canonical_text.
  rewrite (substring_prefix g1 _ 8 L1).
  rewrite (substring_skip g1 _ 8 0 4 L1).
  rewrite (substring_prefix g2 _ 4 L2).
  rewrite (substring_skip g1 _ 8 4 4 L1).
  rewrite (substring_skip g2 _ 4 0 4 L2).
  rewrite (substring_prefix g3 _ 4 L3).
  rewrite (substring_skip g1 _ 8 8 4 L1).
  rewrite (substring_skip g2 _ 4 4 4 L2).
  rewrite (substring_skip g3 _ 4 0 4 L3).
  rewrite (substring_prefix g4 _ 4 L4).
  rewrite (substring_skip g1 _ 8 12 12 L1).
  rewrite (substring_skip g2 _ 4 8 12 L2).
  rewrite (substring_skip g3 _ 4 4 12 L3).
  rewrite (substring_skip g4 _ 4 0 12 L4).
  rewrite (substring_all g5 12 L5).
  reflexivity.
Qed.

End Canonical.

(** ** Point identifiers *)

Section PointIds.
Context {F : Type} {PF : PyFloat F}.
Variable float_str : F -> string.
Variable uuid5 : string -> Z.


Lemma canonical_uuid_unchanged (g1 g2 g3 g4 g5 key : string) :
  hex_group 8 g1 -> hex_group 4 g2 -> hex_group 4 g3 -> hex_group 4 g4 ->
  hex_group 12 g5 ->
  _as_qdrant_point_id float_str uuid5
    (VStr (canonical_text g1 g2 g3 g4 g5)) key
  = Some (PidStr (canonical_text g1 g2 g3 g4 g5)).
Proof.
  intros H1 H2 H3 H4 H5. unfold _as_qdrant_point_id. cbn [py_str].
  rewrite (canonical_strip g1 g2 g3 g4 g5 H1 H2 H3 H4 H5).
  rewrite (canonical_nonempty g1 g2 g3 g4 g5 H1).
  rewrite (canonical_not_isdigit g1 g2 g3 g4 g5).
  rewrite (canonical_uuid_int g1 g2 g3 g4 g5 H1 H2 H3 H4 H5).
  rewrite (canonical_uuid_str g1 g2 g3 g4 g5 H1 H2 H3 H4 H5).
  reflexivity.
Qed.






End PointIds.


Example canonical_uuid_example :
  _as_qdrant_point_id (F := Q) (fun _ => "") (fun _ => 0)
    (VStr (canonical_text "a0eebc99" "9c0b" "4ef8" "bb6d" "6bb9bd380a11"))
    "vid:0.0:1.5:0"
  = Some (PidStr "a0eebc99-9c0b-4ef8-bb6d-6bb9bd380a11").
Proof.
  apply canonical_uuid_unchanged; split; reflexivity.
Qed.

Example unusable_id_example :
  point_id_of (F := Q) (fun _ => "0.0") (fun _ => 7)
    {[ "point_id" := VStr "chunk-7"; "video_id" := VStr "ab12" ]} 3
  = Some (PidStr "00000000-0000-0000-0000-000000000007").
Proof. vm_compute. reflexivity. Qed.

(** ** Collections *)

Lemma str_of_int_inj (a b : Z) :
  Py.str_of_int a = Py.str_of_int b -> a = b.
Proof.
  unfold Py.str_of_int. intros Heq. apply DecimalZ.to_int_inj.
  assert (Hnn : forall z, Z.to_int z <> Decimal.Pos Decimal.Nil /\
                          Z.to_int z <> Decimal.Neg Decimal.Nil).
  { intros [|p|p]; split; simpl; try discriminate;
      intros Hp; injection Hp as Hp;
      exact (DecimalPos.Unsigned.to_uint_nonnil p Hp). }
  destruct (Hnn a) as [Ha1 Ha2], (Hnn b) as [Hb1 Hb2].
  pose proof (NilZero.isi _ Ha1 Ha2) as Ia.
  pose proof (NilZero.isi _ Hb1 Hb2) as Ib.
  rewrite Heq in Ia. rewrite Ia in Ib. injection Ib as Ib. exact Ib.
Qed.

Lemma string_of_uint_no_d (d : Decimal.uint) :
  occurs "d" (NilEmpty.string_of_uint d) = false.
Proof. induction d; simpl; assumption || reflexivity. Qed.

Lemma str_of_int_no_d (n : Z) : occurs "d" (Py.str_of_int n) = false.
Proof.
  unfold Py.str_of_int, NilZero.string_of_int, NilZero.string_of_uint.
  destruct (Z.to_int n) as [d|d]; destruct d; simpl;
    try reflexivity; apply string_of_uint_no_d.
Qed.

(** Two texts that end with the same character followed by tails free of
    it have the same tail. *)
Lemma append_cancel_tail (c : ascii) (t1 t2 s1 s2 : string) :
  occurs c s1 = false -> occurs c s2 = false ->
  t1 ++ String c s1 = t2 ++ String c s2 -> s1 = s2.
Proof.
  intros O1 O2. revert t2.
  induction t1 as [|x t1 IH]; intros [|y t2] Heq.
  - injection Heq as Heq. exact Heq.
  - change (String c s1 = String y (t2 ++ String c s2)) in Heq.
    injection Heq as _ Heq. rewrite Heq, occurs_app in O1.
    simpl in O1. rewrite Ascii.eqb_refl, orb_true_r in O1. discriminate.
  - change (String x (t1 ++ String c s1) = String c s2) in Heq.
    injection Heq as _ Heq. rewrite <- Heq, occurs_app in O2.
    simpl in O2. rewrite Ascii.eqb_refl, orb_true_r in O2. discriminate.
  - change (String x (t1 ++ String c s1) = String y (t2 ++ String c s2))
      in Heq.
    injection Heq as _ Heq. exact (IH t2 Heq).
Qed.

Lemma append_assoc (a b c : string) : (a ++ b) ++ c = a ++ b ++ c.
Proof.
  induction a as [|x a IH]; [reflexivity|].
  change (String x ((a ++ b) ++ c) = String x (a ++ b ++ c)).
  rewrite IH. reflexivity.
Qed.

Lemma collection_name_inj (base1 base2 : string) (d1 d2 : Z) :
  collection_name base1 d1 = collection_name base2 d2 -> d1 = d2.
Proof.
  unfold collection_name. intros Heq. apply str_of_int_inj.
  apply (append_cancel_tail "d" (base1 ++ "_") (base2 ++ "_"));
    [apply str_of_int_no_d..|].
  rewrite !append_assoc. exact Heq.
Qed.

Lemma init_collection_inj
      (d1 d2 : Z) (cfg1 cfg2 env1 env2 : option QdrantConfig)
      (st1 st2 : QdrantStore) :
  __init__ d1 cfg1 env1 = Some st1 ->
  __init__ d2 cfg2 env2 = Some st2 ->
  collection st1 = collection st2 -> d1 = d2.
Proof.
  intros I1 I2 Heq. unfold __init__ in I1, I2.
  destruct (match cfg1 with Some c => Some c | None => env1 end);
    [|discriminate].
  destruct (match cfg2 with Some c => Some c | None => env2 end);
    [|discriminate].
  injection I1 as <-. injection I2 as <-. cbn [collection] in Heq.
  exact (collection_name_inj _ _ _ _ Heq).
Qed.

Section Isolation.
Context {F : Type} {PF : PyFloat F}.
Variable float_str : F -> string.
Variable uuid5 : string -> Z.

(** An upsert changes the collection of its store only. *)
Lemma upsert_frame (st : QdrantStore) (vectors : list (list F))
      (payloads : list (gmap string (pyval F))) (srv srv' : server)
      (name : string) :
  upsert float_str uuid5 st vectors payloads srv = inr srv' ->
  name <> collection st ->
  srv' !! name = srv !! name.
Proof.
  unfold upsert. intros Hup Hne.
  destruct (negb _); [discriminate|].
  destruct (points_from _ _ _ _); [|discriminate].
  injection Hup as <-. unfold server in *.
  apply lookup_insert_ne. congruence.
Qed.

(** C6: two stores constructed with distinct embedding dimensions, with
    any configurations, have distinct collection names; so what one of
    them upserts, the other never sees in a search. *)
Theorem dimension_isolation :
  forall (d1 d2 : Z) (cfg1 cfg2 env1 env2 : option QdrantConfig)
         (st1 st2 : QdrantStore),
    d1 <> d2 ->
    __init__ d1 cfg1 env1 = Some st1 ->
    __init__ d2 cfg2 env2 = Some st2 ->
    collection st1 <> collection st2 /\
    forall (vectors : list (list F))
           (payloads : list (gmap string (pyval F))) (srv srv' : server),
      upsert float_str uuid5 st1 vectors payloads srv = inr srv' ->
      searched st2 srv' = searched st2 srv.
Proof.
  intros d1 d2 cfg1 cfg2 env1 env2 st1 st2 Hd I1 I2.
  assert (Hne : collection st1 <> collection st2).
  { intros Heq. exact (Hd (init_collection_inj _ _ _ _ _ _ _ _ I1 I2 Heq)). }
  split; [exact Hne|].
  intros vectors payloads srv srv' Hup. unfold searched.
  rewrite (upsert_frame st1 vectors payloads srv srv' _ Hup); [reflexivity|].
  congruence.
Qed.

End Isolation.

(** C6 for the dimensions 384 and 768 over the default collection. *)
Lemma dimension_isolation_witness :
  384 <> 768 /\
  "visionvault_chunks_d384" <> "visionvault_chunks_d768".
Proof.
  split; [lia|].
  apply (dimension_isolation (F := Q) (fun _ => "") (fun _ => 0) 384 768
           None None
           (Some {| url := "http://localhost:6333"; api_key := None;
                    cfg_collection := "visionvault_chunks" |})
           (Some {| url := "http://localhost:6333"; api_key := None;
                    cfg_collection := "visionvault_chunks" |})
           {| dim := 384;
              cfg := {| url := "http://localhost:6333"; api_key := None;
                        cfg_collection := "visionvault_chunks" |};
              collection := "visionvault_chunks_d384" |}
           {| dim := 768;
              cfg := {| url := "http://localhost:6333"; api_key := None;
                        cfg_collection := "visionvault_chunks" |};
              collection := "visionvault_chunks_d768" |});
    [lia | reflexivity | reflexivity].
Defined.

(** ** Ingestion *)

Section IngestProofs.
Context {F : Type} {PF : PyFloat F}.
Variable W : World F.

Lemma wp_bind {A B} (m : M A) (k : A -> M B) st
      (Q : result B -> State F -> Prop) :
  wp m st (fun r st1 =>
             match r with
             | Ok a => wp (k a) st1 Q
             | Raise e => Q (Raise e) st1
             end) ->
  wp (bind m k) st Q.
Proof.
  unfold wp, bind. destruct (m st) as [[a|e] st1]; cbn; trivial.
Qed.

Lemma wp_ret {A} (a : A) st (Q : result A -> State F -> Prop) :
  Q (Ok a) st -> wp (ret a) st Q.
Proof. trivial. Qed.

Lemma wp_raise {A} (e : exn) st (Q : result A -> State F -> Prop) :
  Q (Raise e) st -> wp (raise e) st Q.
Proof. trivial. Qed.

Lemma wp_lift {A} (r : result A) st (Q : result A -> State F -> Prop) :
  Q r st -> wp (lift r) st Q.
Proof. trivial. Qed.

Lemma wp_set_cancel (b : bool) st (Q : result unit -> State F -> Prop) :
  (forall st', trace st' = trace st -> _CANCEL_INGEST st' = b ->
               Q (Ok tt) st') ->
  wp (set_cancel b) st Q.
Proof.
  intros HQ.
  exact (HQ {| _CANCEL_INGEST := b; trace := trace st |} eq_refl eq_refl).
Qed.

Lemma wp_check_cancel st (Q : result unit -> State F -> Prop) :
  (_CANCEL_INGEST st = true -> Q (Raise Cancelled) st) ->
  (_CANCEL_INGEST st = false -> Q (Ok tt) st) ->
  wp _check_cancel st Q.
Proof.
  unfold wp, _check_cancel. intros Ht Hf.
  destruct (_CANCEL_INGEST st); [apply Ht|apply Hf]; reflexivity.
Qed.

Lemma wp_call {A} (s : stage) (ev : event F) (outcome : option A)
      (failure : exn) st (Q : result A -> State F -> Prop) :
  (forall st',
      trace st' = (trace st ++ [ev])%list ->
      _CANCEL_INGEST st' = _CANCEL_INGEST st || cancel_during W s ->
      match outcome with
      | Some a => Q (Ok a) st'
      | None => Q (Raise failure) st'
      end) ->
  wp (call W s ev outcome failure) st Q.
Proof.
  intros HQ. unfold wp, call.
  specialize (HQ {| _CANCEL_INGEST := _CANCEL_INGEST st || cancel_during W s;
                    trace := trace st ++ [ev] |} eq_refl eq_refl).
  destruct outcome; exact HQ.
Qed.

Lemma wp_try_pass (m : M unit) st (Q : result unit -> State F -> Prop) :
  wp m st (fun _ st1 => Q (Ok tt) st1) -> wp (try_pass m) st Q.
Proof.
  unfold wp, try_pass. destruct (m st) as [[a|e] st1]; cbn; trivial.
Qed.

End IngestProofs.

Ltac wp_step W :=
  cbn beta iota zeta;
  lazymatch goal with
  | |- wp (bind _ _) _ _ => apply wp_bind
  | |- wp (ret _) _ _ => apply wp_ret
  | |- wp (raise _) _ _ => apply wp_raise
  | |- wp (lift _) _ _ => apply wp_lift
  | |- wp (set_cancel _) _ _ => apply wp_set_cancel; intros ? ? ?
  | |- wp _check_cancel _ _ => apply wp_check_cancel; intros ?
  | |- wp (call _ _ _ ?o _) _ _ =>
      apply (wp_call W); intros ? ? ?;
      lazymatch o with
      | Some _ => idtac
      | _ => destruct o eqn:?
      end
  | |- wp (try_pass _) _ _ => apply wp_try_pass
  | |- wp (if ?b then _ else _) _ _ => destruct b eqn:?
  | |- wp (match ?x with _ => _ end) _ _ => destruct x eqn:?
  | |- match ?r with Ok _ => _ | Raise _ => _ end => destruct r eqn:?
  end.

Section IngestTheorems.
Context {F : Type} {PF : PyFloat F}.
Variable W : World F.

(** Nothing but the two store calls adds a vector-store write, and nothing
    but the captioner call adds a caption call. *)
Lemma filter_trace_extend (p : event F -> bool) (st st' : State F) ev :
  trace st' = (trace st ++ [ev])%list ->
  p ev = false ->
  List.filter p (trace st') = List.filter p (trace st).
Proof.
  intros -> Hev. rewrite List.filter_app. simpl. rewrite Hev.
  apply app_nil_r.
Qed.

Lemma filter_trace_same (p : event F -> bool) (st st' : State F) :
  trace st' = trace st ->
  List.filter p (trace st') = List.filter p (trace st).
Proof. intros ->. reflexivity. Qed.


Ltac trace_back :=
  repeat match goal with
         | H : trace ?s = _ |- context [trace ?s] => rewrite H; clear H
         end;
  rewrite ?List.filter_app; simpl; rewrite ?app_nil_r; try reflexivity.

(** An ingest that reports Cancelled made no vector-store write. *)
Lemma cancelled_without_store_write
      (source_type source : string) (fps : F) (max_frames : option Z)
      (enable_captions : bool) (st : State F) :
  wp (ingest_video W source_type source fps max_frames enable_captions) st
     (fun r st' => r = Raise Cancelled -> store_writes st' = store_writes st).
Proof.
  unfold ingest_video, store_writes.
  repeat (wp_step W); cbn beta iota.
  all: intros Hc; try discriminate Hc; trace_back.
Qed.

(** With captions off, the captioner is not called. *)
Lemma captions_off_no_caption_call
      (source_type source : string) (fps : F) (max_frames : option Z)
      (st : State F) :
  wp (ingest_video W source_type source fps max_frames false) st
     (fun _ st' => caption_calls st' = caption_calls st).
Proof.
  unfold ingest_video, caption_calls. cbn [negb].
  repeat (wp_step W); cbn beta iota; trace_back.
Qed.






End IngestTheorems.


(** A request that lands right after the reset does abort the ingest. *)
Example cancel_after_reset_example :
  ingest_video early_cancel_world "youtube" "https://youtu.be/x" 1%Q None
               true idle
  = (Raise Cancelled,
     {| _CANCEL_INGEST := true; trace := [EvWriteMeta "0123456789"] |}).
Proof. vm_compute. reflexivity. Qed.

(** A local source that exists and cannot be copied: the ingest fails at
    the copy, which no check precedes, although the request has landed;
    the error is the one of the copy, not the cancellation. *)
Example cancel_after_reset_unreadable_source :
  ingest_video unreadable_source_world "local" "/data/videos" 1%Q None
               true idle
  = (Raise (OSError ""),
     {| _CANCEL_INGEST := true;
        trace := [EvWriteMeta "0123456789"; EvCopyLocal "/data/videos"] |}).
Proof. vm_compute. reflexivity. Qed.

(** C7, at the failing input: captions are off, two frames fall into the
    one segment.  The captioner is not called, and the caption of the
    chunk is the separator alone, not the empty string. *)
Lemma captions_off_caption_is_separator :
  fst (ingest_video quiet_world "local" "/data/talk.mp4" 1%Q None false
                    idle)
  = Ok ("0123456789", 1) /\
  caption_calls
    (snd (ingest_video quiet_world "local" "/data/talk.mp4" 1%Q None false
                       idle))
  = [] /\
  map (map caption)
      (written_chunks
         (snd (ingest_video quiet_world "local" "/data/talk.mp4" 1%Q None
                            false idle)))
  = [[" | "]] /\
  map (map caption)
      (written_chunks
         (snd (ingest_video quiet_world "local" "/data/talk.mp4" 1%Q None
                            false idle)))
  <> [[""]].
Proof. vm_compute. repeat split. discriminate. Qed.

(** * Further properties of the code *)

Import FrameFiles Routes DecimalSpec ThresholdSpec FaissSpec Rerank.

(** ** Texts of integers *)

Section DecimalTexts.

Lemma scan_decimal_digits (d : Decimal.uint) (acc : Z) :
  Py.scan_digits 10 false true acc (NilEmpty.string_of_uint d)
  = Some (uint_value acc d, "").
Proof.
  revert acc. induction d; intros acc; cbn; try apply IHd; reflexivity.
Qed.

Lemma scan_decimal_first (d : Decimal.uint) :
  d <> Decimal.Nil ->
  Py.scan_digits 10 false false 0 (NilEmpty.string_of_uint d)
  = Some (uint_value 0 d, "").
Proof.
  destruct d; intros Hd; try contradiction; cbn;
    apply scan_decimal_digits.
Qed.

Lemma uint_value_acc (d : Decimal.uint) (acc : positive) :
  uint_value (Z.pos acc) d = Z.pos (Pos.of_uint_acc d acc).
Proof.
  revert acc. induction d; intros acc; cbn [uint_value Pos.of_uint_acc];
    try reflexivity;
    match goal with
    | |- uint_value ?z _ = Z.pos (Pos.of_uint_acc _ ?p) =>
        replace z with (Z.pos p) by lia; apply IHd
    end.
Qed.

Lemma uint_value_of_uint (d : Decimal.uint) :
  uint_value 0 d = Z.of_N (Pos.of_uint d).
Proof.
  induction d; cbn [uint_value Pos.of_uint]; try reflexivity;
    try exact IHd;
    match goal with
    | |- uint_value ?z _ = Z.of_N (N.pos (Pos.of_uint_acc _ ?p)) =>
        change z with (Z.pos p); apply uint_value_acc
    end.
Qed.

Lemma to_int_nonneg (n : Z) :
  0 <= n ->
  exists d, Z.to_int n = Decimal.Pos d /\ d <> Decimal.Nil /\
            uint_value 0 d = n.
Proof.
  intros Hn. destruct n as [|p|p]; [| |lia].
  - exists (Decimal.D0 Decimal.Nil). repeat split. discriminate.
  - exists (Pos.to_uint p). split; [reflexivity|].
    split; [apply DecimalPos.Unsigned.to_uint_nonnil|].
    rewrite uint_value_of_uint, DecimalPos.Unsigned.of_to. reflexivity.
Qed.

Lemma string_of_uint_head (d : Decimal.uint) :
  d <> Decimal.Nil ->
  exists c s, NilEmpty.string_of_uint d = String c s /\
              Py.isspace_int c = false /\ c <> "+"%char /\ c <> "-"%char /\
              c <> "_"%char /\
              (c = "0"%char -> forall x t, s = String x t ->
                 x <> "x"%char /\ x <> "X"%char).
Proof.
  destruct d as [|d|d|d|d|d|d|d|d|d|d]; intros Hd; try contradiction;
    cbn; eexists _, _; (split; [reflexivity|]);
    (split; [reflexivity|]); (split; [discriminate|]);
    (split; [discriminate|]); (split; [discriminate|]);
    intros Hc y t Hs; try discriminate Hc;
    destruct d; cbn in Hs; try discriminate Hs;
    injection Hs as <- _; split; discriminate.
Qed.

Lemma int_of_decimal_digits (d : Decimal.uint) :
  d <> Decimal.Nil ->
  Py.int_of_str 10 (NilEmpty.string_of_uint d) = Some (uint_value 0 d).
Proof.
  intros Hd. pose proof (scan_decimal_first d Hd) as Hscan.
  destruct (string_of_uint_head d Hd)
    as (c & s & Hs & Hsp & Hplus & Hminus & Hus & Hx).
  unfold Py.int_of_str. rewrite Hs in *.
  cbn [Py.lstrip_with]. rewrite Hsp.
  assert (Hsign : Py.drop_sign (String c s) = (false, String c s)).
  { unfold Py.drop_sign. 
    destruct c as [[] [] [] [] [] [] [] []]; try reflexivity;
      exfalso; auto. }
  rewrite Hsign.
  assert (Hpre : Py.drop_prefix 10 (String c s) = String c s).
  { unfold Py.drop_prefix.
    destruct c as [[] [] [] [] [] [] [] []]; try reflexivity.
    destruct s; reflexivity. }
  rewrite Hpre, Hscan.
  destruct c as [[] [] [] [] [] [] [] []]; try reflexivity.
  exfalso; auto.
Qed.

(** [int(str(n))] is [n]. *)
Lemma int_of_str_of_int (n : Z) :
  Py.int_of_str 10 (Py.str_of_int n) = Some n.
Proof.
  unfold Py.str_of_int.
  destruct (Z_le_gt_dec 0 n) as [Hn|Hn].
  - destruct (to_int_nonneg n Hn) as (d & Hd & Hnil & Hv).
    rewrite Hd. unfold NilZero.string_of_int, NilZero.string_of_uint.
    destruct d; [contradiction|..]; rewrite int_of_decimal_digits by exact Hnil;
      rewrite Hv; reflexivity.
  - destruct n as [|p|p]; try lia.
    change (Z.to_int (Z.neg p)) with (Decimal.Neg (Pos.to_uint p)).
    pose proof (DecimalPos.Unsigned.to_uint_nonnil p) as Hnil.
    pose proof (scan_decimal_first _ Hnil) as Hscan.
    unfold NilZero.string_of_int, NilZero.string_of_uint.
    destruct (string_of_uint_head _ Hnil)
      as (c & s & Hs & Hsp & Hplus & Hminus & Hus & Hx).
    assert (Hstr : match Pos.to_uint p with
                   | Decimal.Nil => "0"
                   | _ => NilEmpty.string_of_uint (Pos.to_uint p)
                   end = String c s).
    { destruct (Pos.to_uint p); [contradiction|..]; exact Hs. }
    rewrite Hstr. rewrite Hs in Hscan.
    unfold Py.int_of_str.
    change (Py.lstrip_with Py.isspace_int (String "-" (String c s)))
      with (String "-" (String c s)).
    change (Py.drop_sign (String "-" (String c s))) with (true, String c s).
    cbv beta iota zeta.
    assert (Hpre : Py.drop_prefix 10 (String c s) = String c s).
    { unfold Py.drop_prefix.
      destruct c as [[] [] [] [] [] [] [] []]; try reflexivity.
      destruct s; reflexivity. }
    rewrite Hpre, Hscan.
    rewrite uint_value_of_uint, DecimalPos.Unsigned.of_to.
    destruct c as [[] [] [] [] [] [] [] []]; try reflexivity.
    exfalso; auto.
Qed.

End DecimalTexts.

(** ** Frame files *)

Section FrameNames.

Lemma string_of_uint_decimal (d : Decimal.uint) :
  Py.all_chars is_decimal (NilEmpty.string_of_uint d) = true.
Proof. induction d; simpl; assumption || reflexivity. Qed.

Lemma str_of_int_decimal (n : Z) :
  0 <= n -> Py.all_chars is_decimal (Py.str_of_int n) = true.
Proof.
  intros Hn. unfold Py.str_of_int.
  destruct (to_int_nonneg n Hn) as (d & -> & Hnil & _).
  unfold NilZero.string_of_int, NilZero.string_of_uint.
  destruct d; [contradiction|..]; apply string_of_uint_decimal.
Qed.

Lemma zeros_decimal (k : nat) :
  Py.all_chars is_decimal (FrameFiles.zeros k) = true.
Proof. induction k as [|k IH]; [reflexivity|exact IH]. Qed.

Lemma decimal_digit c :
  is_decimal c = true ->
  Ascii.eqb c "_" = false /\
  Py.digit_value c = Some (Z.of_N (N_of_ascii c) - 48) /\
  (Z.of_N (N_of_ascii c) - 48 <? 10) = true /\
  Py.isspace_int c = false /\
  Py.drop_sign (String c "") = (false, String c "").
Proof. by_char c; intros _; repeat split. Qed.

Lemma scan_decimal_string (s : string) (acc : Z) :
  Py.all_chars is_decimal s = true ->
  Py.scan_digits 10 false true acc s = Some (dec_value acc s, "").
Proof.
  revert acc. induction s as [|c s IH]; intros acc Hs; [reflexivity|].
  simpl in Hs. apply andb_true_iff in Hs as [Hc Hs].
  destruct (decimal_digit c Hc) as (Hus & Hd & Hlt & _).
  cbn [Py.scan_digits dec_value]. rewrite Hus, Hd, Hlt.
  apply IH, Hs.
Qed.

Lemma drop_sign_decimal c s :
  is_decimal c = true -> Py.drop_sign (String c s) = (false, String c s).
Proof. by_char c. Qed.

Lemma drop_prefix_decimal (s : string) : Py.drop_prefix 10 s = s.
Proof.
  unfold Py.drop_prefix. destruct s as [|c s]; [reflexivity|].
  destruct c as [[] [] [] [] [] [] [] []]; try reflexivity.
  destruct s; reflexivity.
Qed.

(** [int] reads a non-empty text of decimal digits as its value. *)
Lemma int_of_decimal_string (s : string) :
  s <> "" -> Py.all_chars is_decimal s = true ->
  Py.int_of_str 10 s = Some (dec_value 0 s).
Proof.
  destruct s as [|c s]; [contradiction|]. intros _ Hs.
  pose proof Hs as Hs'. simpl in Hs'. apply andb_true_iff in Hs' as [Hc Hs'].
  destruct (decimal_digit c Hc) as (Hus & Hd & Hlt & Hsp & _).
  unfold Py.int_of_str. rewrite lstrip_with_head by exact Hsp.
  rewrite drop_sign_decimal by exact Hc.
  rewrite drop_prefix_decimal.
  rewrite (not_underscore_head c s (option Z) None _ Hus).
  cbn [Py.scan_digits]. rewrite Hus, Hd, Hlt.
  rewrite scan_decimal_string by exact Hs'. reflexivity.
Qed.

Lemma dec_value_zeros (k : nat) (s : string) :
  dec_value 0 (FrameFiles.zeros k ++ s) = dec_value 0 s.
Proof. induction k as [|k IH]; [reflexivity|exact IH]. Qed.

Lemma str_of_int_nonempty (n : Z) : Py.str_of_int n <> "".
Proof.
  intros Heq. pose proof (int_of_str_of_int n) as Hr.
  rewrite Heq in Hr. discriminate Hr.
Qed.

Lemma dec_value_str_of_int (n : Z) :
  0 <= n -> dec_value 0 (Py.str_of_int n) = n.
Proof.
  intros Hn. pose proof (int_of_str_of_int n) as Hr.
  rewrite int_of_decimal_string in Hr
    by (apply str_of_int_nonempty || apply str_of_int_decimal, Hn).
  injection Hr as Hr. exact Hr.
Qed.

Lemma printf_06d_decimal (n : Z) :
  0 <= n -> Py.all_chars is_decimal (FrameFiles.printf_06d n) = true.
Proof.
  intros Hn. unfold printf_06d, zfill.
  rewrite all_chars_app, zeros_decimal, str_of_int_decimal by exact Hn.
  reflexivity.
Qed.

Lemma append_nonempty_r (a b : string) : b <> "" -> a ++ b <> "".
Proof.
  intros Hb Heq. destruct a; [exact (Hb Heq)|discriminate Heq].
Qed.

Lemma int_of_printf_06d (n : Z) :
  0 <= n -> Py.int_of_str 10 (FrameFiles.printf_06d n) = Some n.
Proof.
  intros Hn. rewrite int_of_decimal_string.
  - unfold printf_06d, zfill.
    rewrite dec_value_zeros, dec_value_str_of_int by exact Hn. reflexivity.
  - apply append_nonempty_r, str_of_int_nonempty.
  - apply printf_06d_decimal, Hn.
Qed.

Lemma rsplit1_last (c : ascii) (a b : string) :
  occurs c b = false ->
  ExtractFrames.rsplit1 c (a ++ String c b) = Some (a, b).
Proof.
  intros Hb.
  assert (Hnone : ExtractFrames.rsplit1 c b = None).
  { induction b as [|x b IH]; [reflexivity|].
    simpl in Hb. apply orb_false_iff in Hb as [Hx Hb].
    simpl. rewrite (IH Hb), Hx. reflexivity. }
  induction a as [|x a IH].
  - change ("" ++ String c b) with (String c b). simpl.
    rewrite Hnone, Ascii.eqb_refl. reflexivity.
  - change (String x a ++ String c b) with (String x (a ++ String c b)).
    simpl. rewrite IH. reflexivity.
Qed.

Lemma occurs_decimal (c : ascii) (s : string) :
  is_decimal c = false -> Py.all_chars is_decimal s = true ->
  occurs c s = false.
Proof. apply occurs_none. Qed.

(** The frame number is read back from the name that the pattern
    gives it. *)
Lemma parse_frame_pattern (n : Z) :
  0 <= n -> ExtractFrames.parse_frame_number (frame_pattern n) = Some n.
Proof.
  intros Hn. unfold ExtractFrames.parse_frame_number, frame_pattern.
  pose proof (printf_06d_decimal n Hn) as Hdec.
  assert (Hstem : ExtractFrames.stem ("frame_" ++ printf_06d n ++ ".jpg")
                  = "frame_" ++ printf_06d n).
  { unfold ExtractFrames.stem.
    replace ("frame_" ++ printf_06d n ++ ".jpg")
      with (("frame_" ++ printf_06d n) ++ String "." "jpg")
      by (rewrite append_assoc; reflexivity).
    rewrite rsplit1_last by reflexivity. reflexivity. }
  rewrite Hstem.
  assert (Hlast : ExtractFrames.last_field ("frame_" ++ printf_06d n)
                  = printf_06d n).
  { unfold ExtractFrames.last_field.
    change ("frame_" ++ printf_06d n)
      with ("frame" ++ String "_" (printf_06d n)).
    rewrite rsplit1_last; [reflexivity|].
    apply occurs_decimal; [reflexivity|exact Hdec]. }
  rewrite Hlast. apply int_of_printf_06d, Hn.
Qed.

Lemma contains_char_occurs (c : ascii) (s : string) :
  Routes.contains_char c s = occurs c s.
Proof. induction s as [|x s IH]; [reflexivity|]. simpl. rewrite IH. reflexivity. Qed.

Lemma endswith_append (a suffix : string) :
  Routes.endswith suffix (a ++ suffix) = true.
Proof.
  unfold Routes.endswith. rewrite length_append.
  replace (String.length suffix <=? String.length a + String.length suffix)%nat
    with true by (symmetry; apply Nat.leb_le; lia).
  replace (String.length a + String.length suffix - String.length suffix)%nat
    with (String.length a + 0)%nat by lia.
  rewrite substring_skip by reflexivity.
  rewrite substring_all by reflexivity.
  rewrite String.eqb_refl. reflexivity.
Qed.

End FrameNames.

(** The name checks of the route accept the names that the pattern of
    [extract_frames] produces: such a frame is served when it exists and
    its resolved path stays inside the directory of the frames, and
    otherwise the answer is 404 or the path error, never one of the two
    name errors.  Whatever is served has a name that starts with
    "frame_", holds no path separator and ends with ".jpg" or ".jpeg". *)
Theorem frame_route_serves_extracted_frames :
  forall (stays_inside file_exists : string -> string -> bool)
         (video_id : string),
    (forall n : Z,
        0 <= n ->
        Routes.get_video_frame stays_inside file_exists video_id
                               (frame_pattern n)
        = if negb (stays_inside video_id (frame_pattern n))
          then Routes.HTTPException 400 "Invalid frame path"
          else if negb (file_exists video_id (frame_pattern n))
               then Routes.HTTPException 404 "Frame not found"
               else Routes.FileResponse (frame_pattern n)) /\
    (forall frame_file served : string,
        Routes.get_video_frame stays_inside file_exists video_id frame_file
        = Routes.FileResponse served ->
        served = frame_file /\
        String.prefix "frame_" frame_file = true /\
        occurs "/" frame_file = false /\
        occurs "\" frame_file = false /\
        (Routes.endswith ".jpg" frame_file
         || Routes.endswith ".jpeg" frame_file) = true /\
        stays_inside video_id frame_file = true /\
        file_exists video_id frame_file = true).
Proof.
  intros stays_inside file_exists video_id. split.
  - intros n Hn. unfold Routes.get_video_frame.
    pose proof (printf_06d_decimal n Hn) as Hdec.
    assert (Hpre : String.prefix "frame_" (frame_pattern n) = true).
    { unfold frame_pattern.
      change ("frame_" ++ printf_06d n ++ ".jpg")
        with (String "f" (String "r" (String "a" (String "m" (String "e"
               (String "_" (printf_06d n ++ ".jpg"))))))).
      cbn. destruct (printf_06d n ++ ".jpg"); reflexivity. }
    assert (Hocc : forall c, is_decimal c = false ->
                   occurs c "frame_" = false -> occurs c ".jpg" = false ->
                   Routes.contains_char c (frame_pattern n) = false).
    { intros c Hc H1 H2. rewrite contains_char_occurs. unfold frame_pattern.
      rewrite !occurs_app, H1, H2, (occurs_decimal c _ Hc Hdec).
      reflexivity. }
    assert (Hend : Routes.endswith ".jpg" (frame_pattern n) = true).
    { unfold frame_pattern. rewrite <- append_assoc.
      apply endswith_append. }
    rewrite Hpre, !Hocc, Hend by reflexivity. reflexivity.
  - intros frame_file served. unfold Routes.get_video_frame.
    rewrite (contains_char_occurs "/"), (contains_char_occurs "\").
    intros Heq.
    destruct (String.prefix "frame_" frame_file); cbn in Heq;
      [|discriminate Heq].
    destruct (occurs "/" frame_file); cbn in Heq; [discriminate Heq|].
    destruct (occurs "\" frame_file); cbn in Heq; [discriminate Heq|].
    destruct (Routes.endswith ".jpg" frame_file
              || Routes.endswith ".jpeg" frame_file); cbn in Heq;
      [|discriminate Heq].
    destruct (stays_inside video_id frame_file); cbn in Heq;
      [|discriminate Heq].
    destruct (file_exists video_id frame_file); cbn in Heq;
      [|discriminate Heq].
    injection Heq as <-. repeat split.
Qed.

(** The frame number is read back from the file name: for every frame
    number [n >= 0], [parse_frame_number] applied to the name that the
    output pattern "frame_%06d.jpg" gives to [n] returns [n], also for
    numbers of more than six digits. *)
Theorem frame_number_round_trip :
  forall n : Z,
    0 <= n ->
    ExtractFrames.parse_frame_number (frame_pattern n) = Some n.
Proof. exact parse_frame_pattern. Qed.

Lemma frame_number_round_trip_witness :
  0 <= 1234567 /\
  ExtractFrames.parse_frame_number (frame_pattern 1234567) = Some 1234567.
Proof.
  split; [lia|]. apply (frame_number_round_trip 1234567). lia.
Defined.

Section Timestamps.

Lemma fps_positive_not_zero (fps : Q) :
  (0 < fps)%Q ->
  ((fps <=? f_of_Z 0)%F && (f_of_Z 0 <=? fps)%F) = false.
Proof.
  intros Hpos. apply andb_false_iff. left.
  apply (flt_Q_true 0 fps) in Hpos. simpl in Hpos.
  apply negb_true_iff in Hpos. exact Hpos.
Qed.

Lemma timestamp_value (n : Z) (fps : Q) :
  (0 < fps)%Q ->
  exists ts,
    ExtractFrames.frame_number_to_timestamp_seconds n fps = Some ts /\
    (0 <= ts)%Q /\
    (1 <= n -> (ts == inject_Z (n - 1) / fps)%Q) /\
    (n <= 1 -> (ts == 0)%Q).
Proof.
  intros Hpos. unfold ExtractFrames.frame_number_to_timestamp_seconds.
  rewrite fps_positive_not_zero by exact Hpos.
  eexists. split; [reflexivity|]. unfold fmax.
  change (f_of_Z (n - 1) / fps)%F with (inject_Z (n - 1) / fps)%Q.
  change (f_of_Z 0) with 0%Q.
  destruct (flt 0%Q (inject_Z (n - 1) / fps)%Q) eqn:E.
  - apply flt_Q_true in E.
    split; [apply Qlt_le_weak, E|]. split; [intros _; reflexivity|].
    intros Hn. exfalso.
    assert (Hle : (inject_Z (n - 1) / fps <= 0)%Q).
    { apply Qle_shift_div_r; [exact Hpos|]. rewrite Qmult_0_l.
      change 0%Q with (inject_Z 0). rewrite <- Zle_Qle. lia. }
    exact (Qlt_not_le _ _ E Hle).
  - apply flt_Q_false in E.
    split; [apply Qle_refl|]. split; [|intros _; reflexivity].
    intros Hn. apply Qle_antisym; [|exact E].
    apply Qle_shift_div_l; [exact Hpos|]. rewrite Qmult_0_l.
    change 0%Q with (inject_Z 0). rewrite <- Zle_Qle. lia.
Qed.

End Timestamps.

(** Timestamps, in exact arithmetic.  With a rate of zero the conversion
    fails by division by zero.  With a positive rate, frame [n] is placed
    at (n - 1) / fps seconds, frame 1 and any lower number at 0, no
    timestamp is negative, and a later frame never gets an earlier
    timestamp. *)
Theorem frame_timestamps :
  forall (fps : Q) (n m : Z),
    ((fps == 0)%Q ->
     ExtractFrames.frame_number_to_timestamp_seconds n fps = None) /\
    ((0 < fps)%Q -> n <= m ->
     exists tn tm,
       ExtractFrames.frame_number_to_timestamp_seconds n fps = Some tn /\
       ExtractFrames.frame_number_to_timestamp_seconds m fps = Some tm /\
       (0 <= tn)%Q /\ (tn <= tm)%Q /\
       (1 <= n -> (tn == inject_Z (n - 1) / fps)%Q) /\
       (n <= 1 -> (tn == 0)%Q)).
Proof.
  intros fps n m. split.
  - intros Hz. unfold ExtractFrames.frame_number_to_timestamp_seconds.
    assert (H1 : (fps <=? f_of_Z 0)%F = true).
    { apply Qle_bool_iff. rewrite Hz. apply Qle_refl. }
    assert (H2 : (f_of_Z 0 <=? fps)%F = true).
    { apply Qle_bool_iff. rewrite Hz. apply Qle_refl. }
    rewrite H1, H2. reflexivity.
  - intros Hpos Hnm.
    destruct (timestamp_value n fps Hpos) as (tn & Hn & Hn0 & Hn1 & Hn2).
    destruct (timestamp_value m fps Hpos) as (tm & Hm & Hm0 & Hm1 & Hm2).
    exists tn, tm. repeat (split; [assumption|]). split; [|split; assumption].
    destruct (Z_le_gt_dec n 1) as [Hle|Hgt].
    + rewrite (Hn2 Hle). exact Hm0.
    + rewrite Hn1, Hm1 by lia.
      apply Qmult_le_compat_r.
      * rewrite <- Zle_Qle. lia.
      * apply Qlt_le_weak, Qinv_lt_0_compat, Hpos.
Qed.

Lemma frame_timestamps_witness :
  (0 < 2)%Q /\ 3 <= 5 /\
  exists tn tm,
    ExtractFrames.frame_number_to_timestamp_seconds 3 2%Q = Some tn /\
    ExtractFrames.frame_number_to_timestamp_seconds 5 2%Q = Some tm /\
    (0 <= tn)%Q /\ (tn <= tm)%Q /\
    (1 <= 3 -> (tn == inject_Z (3 - 1) / 2)%Q) /\
    (3 <= 1 -> (tn == 0)%Q).
Proof.
  split; [reflexivity|]. split; [lia|].
  apply (proj2 (frame_timestamps 2%Q 3 5)); [reflexivity|lia].
Defined.

Section FrameLoop.

(** The description that the loop of [ingest_video] builds for frame
    [n]. *)
Lemma frame_descriptions_of_pattern (fps : Q)
      (cap_map : gmap string string) (ns : list Z) :
  (0 < fps)%Q ->
  Forall (fun n => 0 <= n) ns ->
  frame_descriptions fps cap_map (map frame_pattern ns)
  = Ok (map (fun n =>
               {| fd_frame_file := frame_pattern n;
                  fd_timestamp :=
                    fmax (f_of_Z 0) (f_of_Z (n - 1) / fps)%F;
                  fd_caption := default "" (cap_map !! frame_pattern n) |})
            ns).
Proof.
  intros Hpos Hns. induction Hns as [|n ns Hn _ IH]; [reflexivity|].
  cbn [map frame_descriptions].
  rewrite parse_frame_pattern by exact Hn.
  unfold ExtractFrames.frame_number_to_timestamp_seconds.
  rewrite fps_positive_not_zero by exact Hpos.
  rewrite IH. reflexivity.
Qed.

End FrameLoop.

(** The loop over the extracted frames cannot fail on the names that
    ffmpeg writes: for a positive rate and frame numbers [n >= 0], it
    yields one description per frame, in order, each with the name of the
    frame, the caption recorded under that name (empty when there is
    none), and the timestamp max(0, (n - 1) / fps). *)
Theorem frame_loop_on_extracted_frames :
  forall (fps : Q) (cap_map : gmap string string) (ns : list Z),
    (0 < fps)%Q ->
    Forall (fun n => 0 <= n) ns ->
    exists ds,
      frame_descriptions fps cap_map (map frame_pattern ns) = Ok ds /\
      length ds = length ns /\
      forall (i : nat) (n : Z),
        ns !! i = Some n ->
        exists d ts,
          ds !! i = Some d /\
          fd_frame_file d = frame_pattern n /\
          fd_caption d = default "" (cap_map !! frame_pattern n) /\
          ExtractFrames.frame_number_to_timestamp_seconds n fps = Some ts /\
          fd_timestamp d = ts.
Proof.
  intros fps cap_map ns Hpos Hns. eexists. split.
  - apply frame_descriptions_of_pattern; assumption.
  - split; [apply length_map|].
    intros i n Hi. eexists _, _. rewrite list_lookup_fmap, Hi.
    split; [reflexivity|]. split; [reflexivity|]. split; [reflexivity|].
    unfold ExtractFrames.frame_number_to_timestamp_seconds.
    rewrite fps_positive_not_zero by exact Hpos.
    split; reflexivity.
Qed.

Lemma frame_loop_on_extracted_frames_witness :
  (0 < 1)%Q /\ Forall (fun n => 0 <= n) [1; 2] /\
  exists ds,
    frame_descriptions 1%Q ∅ (map frame_pattern [1; 2]) = Ok ds /\
    length ds = length [1; 2] /\
    forall (i : nat) (n : Z),
      [1; 2] !! i = Some n ->
      exists d ts,
        ds !! i = Some d /\
        fd_frame_file d = frame_pattern n /\
        fd_caption d = default "" ((∅ : gmap string string) !! frame_pattern n) /\
        ExtractFrames.frame_number_to_timestamp_seconds n 1%Q = Some ts /\
        fd_timestamp d = ts.
Proof.
  assert (Hns : Forall (fun n => 0 <= n) [1; 2])
    by (repeat constructor; lia).
  split; [reflexivity|]. split; [exact Hns|].
  apply (frame_loop_on_extracted_frames 1%Q ∅ [1; 2]);
    [reflexivity|exact Hns].
Defined.

(** ** Thresholds of the cutoff *)

Section Thresholds.
Context {F : Type} {PF : PyFloat F}.
Variable env : CutoffEnv F.

Lemma accumulate_thresholds (best : F) (k : Z) (hits : list (Hit F)) :
  forall out prev,
    exists ys,
      accumulate env best k out prev (scored hits) = (out ++ ys)%list /\
      Forall (above_floors env best) ys /\
      gaps_below env prev ys.
Proof.
  induction hits as [|h hits IH]; intros out prev.
  - exists []. split; [symmetry; apply app_nil_r|]. split; constructor.
  - rewrite scored_cons. cbn [accumulate].
    destruct (_effective_score h <? min_score env)%F eqn:Emin.
    { apply IH. }
    destruct (_effective_score h <? best * relative_min env)%F eqn:Erel.
    { exists []. split; [symmetry; apply app_nil_r|]. split; constructor. }
    destruct (prev - _effective_score h >=? dropoff_gap env)%F eqn:Egap.
    { exists []. split; [symmetry; apply app_nil_r|]. split; constructor. }
    destruct (Z.of_nat (length (out ++ [h])) >=? k).
    { exists [h]. split; [reflexivity|]. split.
      - constructor; [split; assumption|constructor].
      - split; [exact Egap|exact I]. }
    destruct (IH (out ++ [h])%list (_effective_score h))
      as (ys & -> & Hfl & Hgap).
    exists (h :: ys). split; [rewrite <- app_assoc; reflexivity|]. split.
    + constructor; [split; assumption|exact Hfl].
    + split; [exact Egap|exact Hgap].
Qed.

(** With a minimum of returned hits of zero or less, nothing is returned
    that fails a threshold: for [top_k >= 1], every returned hit has an
    effective score that is neither below [min_score] nor below
    [best * relative_min], where [best] is the score of the first
    candidate, and no step from one returned hit to the next (nor from
    [best] to the first one) reaches [dropoff_gap]. *)
Theorem cutoff_without_minimum_keeps_thresholds :
  forall (h : Hit F) (tl : list (Hit F)) (k : Z),
    1 <= k ->
    min_return_hits env <= 0 ->
    let best := _effective_score h in
    let out := _filter_hits env (h :: tl) k in
    Forall (above_floors env best) out /\ gaps_below env best out.
Proof.
  intros h tl k Hk Hmin best out. subst out.
  rewrite filter_hits_cons. cbv zeta. fold best.
  destruct (best <=? f_of_Z 0)%F.
  - unfold first_raw.
    replace (Z.min k (Z.max (min_return_hits env) 0)) with 0 by lia.
    split; constructor.
  - destruct (accumulate_thresholds best k (h :: tl) [] best)
      as (ys & Hacc & Hfl & Hgap).
    rewrite Hacc. cbn [app].
    replace (Z.of_nat (length ys) <? min_return_hits env) with false
      by (symmetry; apply Z.ltb_ge; lia).
    split; assumption.
Qed.

End Thresholds.

Lemma cutoff_without_minimum_keeps_thresholds_witness :
  1 <= 5 /\
  min_return_hits
    {| min_score := 1 # 2; relative_min := 9 # 10; dropoff_gap := 8 # 100;
       min_return_hits := 0 |}%Q <= 0 /\
  let env := {| min_score := 1 # 2; relative_min := 9 # 10;
                dropoff_gap := 8 # 100; min_return_hits := 0 |}%Q in
  let h := hit_of_score (95 # 100)%Q in
  let tl := [hit_of_score (3 # 10)%Q; hit_of_score (93 # 100)%Q] in
  Forall (above_floors env (_effective_score h)) (_filter_hits env (h :: tl) 5) /\
  gaps_below env (_effective_score h) (_filter_hits env (h :: tl) 5).
Proof.
  split; [lia|]. split; [simpl; lia|].
  apply (cutoff_without_minimum_keeps_thresholds
           {| min_score := 1 # 2; relative_min := 9 # 10;
              dropoff_gap := 8 # 100; min_return_hits := 0 |}%Q
           (hit_of_score (95 # 100)%Q)
           [hit_of_score (3 # 10)%Q; hit_of_score (93 # 100)%Q] 5);
    simpl; lia.
Defined.

(** ** The text of a chunk *)

Section ChunkText.

Lemma rstrip_with_idem p (s : string) :
  Py.rstrip_with p (Py.rstrip_with p s) = Py.rstrip_with p s.
Proof.
  induction s as [|c s IH]; [reflexivity|].
  cbn [Py.rstrip_with].
  destruct (Py.rstrip_with p s) as [|d r] eqn:E.
  - destruct (p c) eqn:Ec; [reflexivity|].
    cbn [Py.rstrip_with]. rewrite Ec. reflexivity.
  - change (Py.rstrip_with p (String c (String d r)))
      with (match Py.rstrip_with p (String d r) with
            | "" => if p c then "" else String c ""
            | String a s0 => String c (String a s0)
            end).
    rewrite IH. reflexivity.
Qed.

Lemma rstrip_with_blank p (b : ascii) (s : string) :
  p b = true ->
  Py.rstrip_with p (s ++ String b "") = Py.rstrip_with p s.
Proof.
  intros Hb. induction s as [|c s IH].
  - change ("" ++ String b "") with (String b "").
    cbn [Py.rstrip_with]. rewrite Hb. reflexivity.
  - change (String c s ++ String b "") with (String c (s ++ String b "")).
    cbn [Py.rstrip_with]. rewrite IH. reflexivity.
Qed.

Lemma rstrip_with_keeps_head p c (s : string) :
  p c = false ->
  exists r, Py.rstrip_with p (String c s) = String c r.
Proof.
  intros Hc. cbn [Py.rstrip_with]. rewrite Hc.
  destruct (Py.rstrip_with p s); eexists; reflexivity.
Qed.

Lemma lstrip_with_head_false p (s : string) :
  match Py.lstrip_with p s with
  | EmptyString => True
  | String c _ => p c = false
  end.
Proof.
  induction s as [|c s IH]; [exact I|].
  cbn [Py.lstrip_with]. destruct (p c) eqn:Ec; [exact IH|exact Ec].
Qed.

Lemma strip_with_idem p (s : string) :
  Py.strip_with p (Py.strip_with p s) = Py.strip_with p s.
Proof.
  unfold Py.strip_with.
  pose proof (lstrip_with_head_false p s) as Hh.
  destruct (Py.lstrip_with p s) as [|c t] eqn:E; [reflexivity|].
  destruct (rstrip_with_keeps_head p c t Hh) as (r & Hr).
  rewrite Hr, lstrip_with_head by exact Hh.
  rewrite <- Hr. apply rstrip_with_idem.
Qed.

Lemma lstrip_with_app_blank p (b : ascii) (s : string) :
  p b = true ->
  Py.lstrip_with p (s ++ String b "")
  = match Py.lstrip_with p s with
    | EmptyString => EmptyString
    | t => t ++ String b ""
    end.
Proof.
  intros Hb. induction s as [|c s IH].
  - change ("" ++ String b "") with (String b "").
    cbn [Py.lstrip_with]. rewrite Hb. reflexivity.
  - change (String c s ++ String b "") with (String c (s ++ String b "")).
    cbn [Py.lstrip_with]. destruct (p c); [exact IH|reflexivity].
Qed.

Lemma strip_with_app_blank p (b : ascii) (s : string) :
  p b = true ->
  Py.strip_with p (s ++ String b "") = Py.strip_with p s.
Proof.
  intros Hb. unfold Py.strip_with.
  rewrite lstrip_with_app_blank by exact Hb.
  destruct (Py.lstrip_with p s) as [|c t]; [reflexivity|].
  apply rstrip_with_blank, Hb.
Qed.

End ChunkText.

(** The text that is embedded for a chunk.  Without a caption it is the
    transcript, trimmed; without a transcript it is the caption, trimmed.
    So for an ingest without frames the text of every chunk is the trimmed
    text of its segment, the same as its transcript. *)
Theorem chunk_text_one_sided :
  forall (F : Type) (PF : PyFloat F),
    (forall c : Chunk F,
        caption c = "" -> text c = Py.strip (transcript c)) /\
    (forall c : Chunk F,
        transcript c = "" -> text c = Py.strip (caption c)) /\
    (forall (vid : string) (segs : list (Segment F)) (i : nat)
            (seg : Segment F),
        segs !! i = Some seg ->
        exists c,
          align_transcript_and_captions vid segs [] !! i = Some c /\
          text c = Py.strip (default "" (seg_text seg)) /\
          text c = transcript c).
Proof.
  intros F PF.
  assert (H1 : forall c : Chunk F,
             caption c = "" -> text c = Py.strip (transcript c)).
  { intros c Hc. unfold text. rewrite Hc.
    apply (strip_with_app_blank Py.isspace " " (transcript c)).
    reflexivity. }
  split; [exact H1|]. split.
  - intros c Hc. unfold text. rewrite Hc. reflexivity.
  - intros vid segs i seg Hseg. unfold align_transcript_and_captions.
    rewrite list_lookup_fmap, Hseg. eexists. split; [reflexivity|].
    rewrite H1 by reflexivity. cbn [transcript chunk_of_segment].
    unfold Py.strip. rewrite strip_with_idem. split; reflexivity.
Qed.

(** A chunk has a representative frame as soon as one frame exists,
    in every float arithmetic, also when timestamps do not compare: the
    selection of a segment is never empty, every selected frame is one of
    the frames given, the representative frame is the first selected one
    and the caption joins the captions of the selection. *)
Theorem chunk_frames_come_from_input :
  forall (F : Type) (PF : PyFloat F) (vid : string)
         (segs : list (Segment F)) (frames : list (FrameDesc F))
         (i : nat) (seg : Segment F),
    frames <> [] ->
    segs !! i = Some seg ->
    exists c f rest,
      align_transcript_and_captions vid segs frames !! i = Some c /\
      overlaps (seg_start seg) (seg_end seg) frames = f :: rest /\
      Forall (fun x => In x frames) (f :: rest) /\
      frame_file c = fd_frame_file f /\
      caption c = Py.join " | " (map fd_caption (f :: rest)).
Proof.
  intros F PF vid segs frames i seg Hne Hseg.
  unfold align_transcript_and_captions. rewrite list_lookup_fmap, Hseg.
  assert (Hsel : exists f rest,
             overlaps (seg_start seg) (seg_end seg) frames = f :: rest /\
             Forall (fun x => In x frames) (f :: rest)).
  { unfold overlaps.
    destruct (List.filter (in_segment (seg_start seg) (seg_end seg)) frames)
      as [|f rest] eqn:E.
    - pose proof (sorted_perm flt
                    (midpoint_distance (seg_start seg) (seg_end seg))
                    frames) as Hperm.
      destruct (Py.sorted flt
                  (midpoint_distance (seg_start seg) (seg_end seg)) frames)
        as [|f rest] eqn:Es.
      + apply Permutation_nil in Hperm. congruence.
      + exists f, []. split; [reflexivity|].
        constructor; [|constructor].
        apply (Permutation_in _ Hperm). left. reflexivity.
    - exists f, rest. split; [reflexivity|]. rewrite <- E.
      apply List.Forall_forall. intros x Hx.
      apply List.filter_In in Hx. exact (proj1 Hx). }
  destruct Hsel as (f & rest & Hov & Hall).
  eexists _, f, rest. split; [reflexivity|]. split; [exact Hov|].
  split; [exact Hall|].
  cbn [frame_file caption chunk_of_segment]. rewrite Hov.
  split; reflexivity.
Qed.

Lemma chunk_frames_come_from_input_witness :
  four_frames <> [] /\
  [ {| seg_start := 0%Q; seg_end := 1 # 4; seg_text := Some "one" |} ] !! 0%nat
  = Some {| seg_start := 0%Q; seg_end := 1 # 4; seg_text := Some "one" |} /\
  exists c f rest,
    align_transcript_and_captions "0123456789"
      [ {| seg_start := 0%Q; seg_end := 1 # 4; seg_text := Some "one" |} ]
      four_frames !! 0%nat = Some c /\
    overlaps 0%Q (1 # 4) four_frames = f :: rest /\
    Forall (fun x => In x four_frames) (f :: rest) /\
    frame_file c = fd_frame_file f /\
    caption c = Py.join " | " (map fd_caption (f :: rest)).
Proof.
  split; [discriminate|]. split; [reflexivity|].
  apply (chunk_frames_come_from_input Q Q_float "0123456789"
           [ {| seg_start := 0%Q; seg_end := 1 # 4;
                seg_text := Some "one" |} ]
           four_frames 0%nat
           {| seg_start := 0%Q; seg_end := 1 # 4; seg_text := Some "one" |});
    [discriminate|reflexivity].
Defined.

(** ** The reranker *)

Section RerankProofs.
Context {F : Type} {PF : PyFloat F}.

Lemma load_keeps_cfg (load : string -> option (CrossEncoder F))
      (self : Reranker F) :
  Rerank.cfg (Rerank._load load self) = Rerank.cfg self.
Proof.
  unfold Rerank._load. destruct (Rerank._model self); try reflexivity.
  destruct (negb (enabled (Rerank.cfg self))); [reflexivity|].
  destruct (load (model (Rerank.cfg self))); reflexivity.
Qed.

Lemma load_unavailable (load : string -> option (CrossEncoder F))
      (cfg : RerankConfig) :
  enabled cfg = false \/ load (model cfg) = None ->
  Rerank._load load (Rerank.__init__ cfg)
  = {| Rerank.cfg := cfg; Rerank._model := Unavailable |}.
Proof.
  unfold Rerank._load, Rerank.__init__. cbn.
  intros [-> | Hfail]; [reflexivity|].
  rewrite Hfail. destruct (negb (enabled cfg)); reflexivity.
Qed.

Lemma rerank_on_unavailable (load : string -> option (CrossEncoder F))
      (cfg : RerankConfig) (query text_key : string)
      (candidates : list (gmap string (pyval F))) (top_k : option Z) :
  Rerank.rerank load {| Rerank.cfg := cfg; Rerank._model := Unavailable |}
                query candidates top_k text_key
  = (Some (Py.slice_to (default (Rerank.top_k cfg) top_k) candidates),
     {| Rerank.cfg := cfg; Rerank._model := Unavailable |}).
Proof.
  unfold Rerank.rerank. cbn.
  destruct candidates as [|c cs]; [|reflexivity].
  unfold Py.slice_to. destruct (0 <=? _); rewrite take_nil; reflexivity.
Qed.

(** Without a model the reranker returns the first [k] candidates
    untouched, and it never tries again: when the reranker is disabled,
    or the model fails to load, the first call returns [candidates[:k]],
    with [k] the given [top_k] or else the configured one, and so does
    every later call on the same reranker, also when loading the model
    would succeed by then. *)
Theorem rerank_without_model_returns_prefix :
  forall (load load' : string -> option (CrossEncoder F))
         (cfg : RerankConfig) (query text_key : string)
         (candidates : list (gmap string (pyval F))) (top_k : option Z),
    enabled cfg = false \/ load (model cfg) = None ->
    let run :=
      Rerank.rerank load (Rerank.__init__ cfg) query candidates top_k
                    text_key in
    fst run
    = Some (Py.slice_to (default (Rerank.top_k cfg) top_k) candidates) /\
    forall (query' text_key' : string)
           (candidates' : list (gmap string (pyval F)))
           (top_k' : option Z),
      fst (Rerank.rerank load' (snd run) query' candidates' top_k'
                         text_key')
      = Some (Py.slice_to (default (Rerank.top_k cfg) top_k') candidates').
Proof.
  intros load load' cfg query text_key candidates top_k Hno run.
  assert (Hrun : run
                 = (Some (Py.slice_to (default (Rerank.top_k cfg) top_k)
                                      candidates),
                    {| Rerank.cfg := cfg; Rerank._model := Unavailable |})).
  { subst run.
    rewrite <- (rerank_on_unavailable load cfg query text_key candidates
                  top_k).
    unfold Rerank.rerank. rewrite (load_unavailable load cfg Hno).
    reflexivity. }
  rewrite Hrun. split; [reflexivity|].
  intros query' text_key' candidates' top_k'. cbn [snd].
  rewrite rerank_on_unavailable. reflexivity.
Qed.

End RerankProofs.

Lemma rerank_without_model_returns_prefix_witness :
  let cfg := {| enabled := false; model := "BAAI/bge-reranker-base";
                top_k := 5; candidate_k := 50 |} in
  let c1 : gmap string (pyval Q) := {[ "text" := VStr "a" ]} in
  let c2 : gmap string (pyval Q) := {[ "text" := VStr "b" ]} in
  (enabled cfg = false \/ (fun _ => None) (model cfg) = @None (CrossEncoder Q)) /\
  fst (Rerank.rerank (fun _ => None) (Rerank.__init__ cfg) "q" [c1; c2]
                     (Some 1) "text")
  = Some (Py.slice_to (default (Rerank.top_k cfg) (Some 1)) [c1; c2]).
Proof.
  cbv zeta. split; [left; reflexivity|].
  apply (rerank_without_model_returns_prefix
           (fun _ => None) (fun _ => None)
           {| enabled := false; model := "BAAI/bge-reranker-base";
              top_k := 5; candidate_k := 50 |} "q" "text"
           [ {[ "text" := VStr "a" ]}; {[ "text" := VStr "b" ]} ]
           (Some 1)).
  left. reflexivity.
Defined.

Section RerankOrder.

Lemma strongly_sorted_snoc {A} (R : A -> A -> Prop) (l : list A) (x : A) :
  StronglySorted R l -> Forall (fun a => R a x) l ->
  StronglySorted R (l ++ [x]).
Proof.
  induction 1 as [|y l Hs IH Hy]; intros Hall.
  - repeat constructor.
  - apply Forall_cons_1 in Hall as [Hyx Hall].
    cbn. constructor; [apply IH, Hall|].
    apply Forall_app. split; [exact Hy|]. constructor; [exact Hyx|constructor].
Qed.

Lemma strongly_sorted_rev {A} (R : A -> A -> Prop) (l : list A) :
  StronglySorted R l -> StronglySorted (fun a b => R b a) (rev l).
Proof.
  induction 1 as [|y l Hs IH Hy]; [constructor|].
  cbn [rev]. apply strongly_sorted_snoc; [exact IH|].
  apply List.Forall_forall. intros a Ha.
  apply in_rev in Ha.
  rewrite List.Forall_forall in Hy. apply Hy, Ha.
Qed.

Lemma strongly_sorted_take {A} (R : A -> A -> Prop) (n : nat) (l : list A) :
  StronglySorted R l -> StronglySorted R (take n l).
Proof.
  intros Hs. revert n. induction Hs as [|y l Hs IH Hy]; intros [|n];
    try constructor.
  - apply IH.
  - apply Forall_take, Hy.
Qed.

Lemma sort_reverse_perm {A K} (lt : K -> K -> bool) (key : A -> K)
      (l : list A) :
  Permutation (sort_reverse lt key l) l.
Proof.
  unfold sort_reverse.
  rewrite <- Permutation_rev, sorted_perm, <- Permutation_rev.
  reflexivity.
Qed.

Lemma sort_reverse_descending {A} (key : A -> Q) (l : list A) :
  StronglySorted (fun a b => (key b <= key a)%Q)
                 (sort_reverse flt key l).
Proof.
  unfold sort_reverse.
  apply (strongly_sorted_rev (fun a b => (key a <= key b)%Q)).
  apply sorted_ascending.
Qed.

Lemma with_scores_lookup {F} (cs : list (gmap string (pyval F)))
      (ss : list F) (r : gmap string (pyval F)) :
  In r (Rerank.with_scores cs ss) ->
  exists (i : nat) c s,
    cs !! i = Some c /\ ss !! i = Some s /\
    r = <["rerank_score" := VFloat s]> c.
Proof.
  unfold Rerank.with_scores. intros Hin.
  apply in_map_iff in Hin as ([c s] & <- & Hin).
  apply list_elem_of_In, list_elem_of_lookup in Hin as (i & Hi).
  apply lookup_zip_Some in Hi as [Hc Hs].
  exists i, c, s. repeat split; assumption.
Qed.

End RerankOrder.

(** With a loaded model that scores every pair, the reranker returns the
    candidates in descending order of the new score, cut to [k]: for
    candidates whose text is a string or missing, a model that returns
    one score per candidate and [k >= 0], the result has min(k, number of
    candidates) entries, each of them is one candidate with its score
    stored under "rerank_score" and its other fields untouched, the
    entries are a selection of the scored candidates without repetition
    of positions, and no entry has a lower score than a later one.
    Scores are exact rationals. *)
Theorem rerank_orders_by_score :
  forall (load : string -> option (CrossEncoder Q)) (self : Reranker Q)
         (m : CrossEncoder Q) (query text_key : string)
         (candidates : list (gmap string (pyval Q))) (top_k : option Z)
         (pairs : list (string * string)) (scores : list Q),
    Rerank._model (Rerank._load load self) = Loaded m ->
    Rerank.pairs_of query text_key candidates = Some pairs ->
    m pairs = Some scores ->
    length scores = length candidates ->
    0 <= default (Rerank.top_k (Rerank.cfg self)) top_k ->
    exists out,
      fst (Rerank.rerank load self query candidates top_k text_key)
      = Some out /\
      Z.of_nat (length out)
      = Z.min (default (Rerank.top_k (Rerank.cfg self)) top_k)
              (Z.of_nat (length candidates)) /\
      StronglySorted (fun a b => (Rerank.rerank_key b <= Rerank.rerank_key a)%Q)
                     out /\
      (exists rest,
          Permutation (out ++ rest) (Rerank.with_scores candidates scores)) /\
      Forall (fun r =>
                exists (i : nat) c s,
                  candidates !! i = Some c /\ scores !! i = Some s /\
                  r = <["rerank_score" := VFloat s]> c /\
                  Rerank.rerank_key r = s /\
                  forall key, key <> "rerank_score" -> r !! key = c !! key)
             out.
Proof.
  intros load self m query text_key candidates top_k pairs scores
         Hm Hpairs Hscores Hlen Hk.
  set (k := default (Rerank.top_k (Rerank.cfg self)) top_k) in *.
  set (sorted := sort_reverse flt Rerank.rerank_key
                              (Rerank.with_scores candidates scores)).
  assert (Hlen_sorted : length sorted = length candidates).
  { unfold sorted.
    rewrite (Permutation_length (sort_reverse_perm _ _ _)).
    unfold Rerank.with_scores.
    rewrite length_map, length_zip. lia. }
  assert (Hin : Forall (fun r => In r (Rerank.with_scores candidates scores))
                       (take (Z.to_nat k) sorted)).
  { apply List.Forall_forall. intros r Hr.
    apply (Permutation_in _ (sort_reverse_perm flt Rerank.rerank_key _)).
    fold sorted. rewrite <- (firstn_skipn (Z.to_nat k) sorted).
    apply in_or_app. left. exact Hr. }
  assert (Hrest : StronglySorted
                    (fun a b => (Rerank.rerank_key b <= Rerank.rerank_key a)%Q)
                    (take (Z.to_nat k) sorted) /\
                  (exists rest,
                      Permutation (take (Z.to_nat k) sorted ++ rest)
                                  (Rerank.with_scores candidates scores)) /\
                  Forall (fun r =>
                            exists (i : nat) c s,
                              candidates !! i = Some c /\
                              scores !! i = Some s /\
                              r = <["rerank_score" := VFloat s]> c /\
                              Rerank.rerank_key r = s /\
                              forall key, key <> "rerank_score" ->
                                          r !! key = c !! key)
                         (take (Z.to_nat k) sorted)).
  { split; [apply strongly_sorted_take, sort_reverse_descending|].
    split.
    - exists (drop (Z.to_nat k) sorted). rewrite take_drop.
      apply sort_reverse_perm.
    - eapply Forall_impl; [exact Hin|].
      intros r Hr. cbn beta in Hr.
      destruct (with_scores_lookup _ _ _ Hr) as (i & c & s & Hc & Hs & ->).
      exists i, c, s. repeat split; try assumption.
      + unfold Rerank.rerank_key, QdrantStore.get.
        rewrite lookup_insert_eq. reflexivity.
      + intros key Hkey. apply lookup_insert_ne. congruence. }
  assert (Hcount : Z.of_nat (length (take (Z.to_nat k) sorted))
                   = Z.min k (Z.of_nat (length candidates))).
  { rewrite length_take, Hlen_sorted. lia. }
  exists (take (Z.to_nat k) sorted).
  split; [|split; [exact Hcount|exact Hrest]].
  clear Hrest Hcount Hin Hlen_sorted.
  unfold Rerank.rerank. rewrite load_keeps_cfg, Hm. fold k.
  destruct candidates as [|c0 cs].
  - cbn in Hlen. destruct scores; [|discriminate Hlen].
    cbn. rewrite take_nil. reflexivity.
  - rewrite Hpairs, Hscores. cbv zeta. cbn [fst].
    rewrite slice_to_nonneg by exact Hk. reflexivity.
Qed.

Lemma rerank_orders_by_score_witness :
  let m : CrossEncoder Q := fun _ => Some [1 # 2; 9 # 10]%Q in
  let load : string -> option (CrossEncoder Q) := fun _ => Some m in
  let self : Reranker Q :=
    Rerank.__init__ {| enabled := true; model := "BAAI/bge-reranker-base";
                       top_k := 5; candidate_k := 50 |} in
  let c1 : gmap string (pyval Q) := {[ "text" := VStr "a" ]} in
  let c2 : gmap string (pyval Q) := {[ "text" := VStr "b" ]} in
  Rerank._model (Rerank._load load self) = Loaded m /\
  Rerank.pairs_of "q" "text" [c1; c2] = Some [("q", "a"); ("q", "b")] /\
  m [("q", "a"); ("q", "b")] = Some [1 # 2; 9 # 10]%Q /\
  length [1 # 2; 9 # 10]%Q = length [c1; c2] /\
  0 <= default (Rerank.top_k (Rerank.cfg self)) (Some 1) /\
  exists out,
    fst (Rerank.rerank load self "q" [c1; c2] (Some 1) "text") = Some out /\
    Z.of_nat (length out)
    = Z.min (default (Rerank.top_k (Rerank.cfg self)) (Some 1))
            (Z.of_nat (length [c1; c2])) /\
    StronglySorted
      (fun a b => (Rerank.rerank_key b <= Rerank.rerank_key a)%Q) out.
Proof.
  cbv zeta.
  assert (Hpairs : Rerank.pairs_of
                     "q" "text"
                     [ ({[ "text" := VStr "a" ]} : gmap string (pyval Q));
                       {[ "text" := VStr "b" ]} ]
                   = Some [("q", "a"); ("q", "b")])
    by (vm_compute; reflexivity).
  split; [reflexivity|]. split; [exact Hpairs|].
  split; [reflexivity|]. split; [reflexivity|]. split; [cbn; lia|].
  destruct (rerank_orders_by_score
              (fun _ => Some (fun _ => Some [1 # 2; 9 # 10]%Q))
              (Rerank.__init__
                 {| enabled := true; model := "BAAI/bge-reranker-base";
                    top_k := 5; candidate_k := 50 |})
              (fun _ => Some [1 # 2; 9 # 10]%Q) "q" "text"
              [ {[ "text" := VStr "a" ]}; {[ "text" := VStr "b" ]} ]
              (Some 1) [("q", "a"); ("q", "b")] [1 # 2; 9 # 10]%Q
              eq_refl Hpairs eq_refl eq_refl ltac:(cbn; lia))
    as (out & Hout & Hlen & Hsorted & _).
  exists out. split; [exact Hout|]. split; [exact Hlen|exact Hsorted].
Defined.

(** ** Hits *)

Section Hits.
Context {F : Type} {PF : PyFloat F}.
Variable float_str : F -> string.

Lemma getitem_in_range {A} (l : list A) (i : Z) :
  0 <= i < Z.of_nat (length l) ->
  exists x, SearchHits.getitem l i = Some x /\ l !! Z.to_nat i = Some x.
Proof.
  intros Hi. unfold SearchHits.getitem.
  replace (0 <=? i) with true by (symmetry; apply Z.leb_le; lia).
  destruct (lookup_lt_is_Some_2 l (Z.to_nat i)) as [x Hx]; [lia|].
  exists x. split; exact Hx.
Qed.

(** The loop over the results of the local index never fails on an
    index and never wraps around: for any scores, indices and metadata
    lines, it returns hits, one for each pair whose index [idx] satisfies
    0 <= idx < len(metas), in the order of the pairs, each built from
    the line at position [idx] and the score of the pair; the padding -1
    and indices beyond the metadata are skipped. *)
Theorem faiss_hits_in_range :
  forall (video_id : string) (pairs : list (F * Z))
         (metas : list (gmap string (pyval F))),
  exists hits,
    SearchHits.faiss_hits float_str video_id pairs metas = Some hits /\
    Forall2 (fun h p =>
               exists m, metas !! Z.to_nat (snd p) = Some m /\
                         h = SearchHits.hit_of float_str video_id (fst p) m)
            hits
            (List.filter (fun p => (0 <=? snd p)
                                   && (snd p <? Z.of_nat (length metas)))
                         pairs).
Proof.
  intros video_id pairs metas.
  induction pairs as [|[score idx] rest (hits & IH & Hall)].
  - exists []. split; [reflexivity|constructor].
  - cbn [SearchHits.faiss_hits List.filter snd fst].
    destruct (Z.ltb_spec idx 0) as [Hneg|Hnn]; cbn [orb].
    { replace (0 <=? idx) with false by (symmetry; apply Z.leb_gt; lia).
      cbn [andb]. exists hits. split; assumption. }
    replace (0 <=? idx) with true by (symmetry; apply Z.leb_le; lia).
    cbn [andb].
    destruct (Z.geb_spec idx (Z.of_nat (length metas))) as [Hbig|Hin].
    { replace (idx <? Z.of_nat (length metas)) with false
        by (symmetry; apply Z.ltb_ge; lia).
      exists hits. split; assumption. }
    replace (idx <? Z.of_nat (length metas)) with true
      by (symmetry; apply Z.ltb_lt; lia).
    destruct (getitem_in_range metas idx) as (m & Hget & Hm); [lia|].
    rewrite Hget, IH. eexists. split; [reflexivity|].
    constructor; [|exact Hall]. exists m. split; [exact Hm|reflexivity].
Qed.

Lemma chunk_dict_frame_file (c : Chunk F) :
  SearchHits.chunk_dict c !! "frame_file" = Some (VStr (frame_file c)).
Proof.
  unfold SearchHits.chunk_dict.
  rewrite !lookup_insert_ne by discriminate.
  apply lookup_insert_eq.
Qed.

(** What a search returns for a chunk of [ingest_video]: the fields of
    the chunk as stored, the score, and the address of its thumbnail,
    which is [None] exactly when the chunk has no representative frame
    and "/videos/<video_id>/frames/<frame_file>" otherwise. *)
Theorem hit_of_chunk :
  forall (video_id : string) (score : F) (c : Chunk F),
    let h := SearchHits.hit_of float_str video_id score (SearchHits.chunk_dict c) in
    h !! "score" = Some (VFloat score) /\
    h !! "thumbnail_path"
    = Some (if String.eqb (frame_file c) "" then VNone
            else VStr ("/videos/" ++ video_id ++ "/frames/" ++ frame_file c)) /\
    h !! "video_id" = Some (VStr (Chunking.video_id c)) /\
    h !! "start" = Some (VFloat (start c)) /\
    h !! "end" = Some (VFloat (end_ c)) /\
    h !! "transcript" = Some (VStr (transcript c)) /\
    h !! "caption" = Some (VStr (caption c)) /\
    h !! "frame_file" = Some (VStr (frame_file c)) /\
    h !! "text" = Some (VStr (text c)).
Proof.
  intros video_id score c h. subst h. unfold SearchHits.hit_of.
  split.
  { rewrite lookup_insert_ne by discriminate. apply lookup_insert_eq. }
  split.
  { rewrite lookup_insert_eq. f_equal.
    unfold SearchHits._thumb_url, QdrantStore.get.
    rewrite lookup_insert_ne by discriminate.
    rewrite chunk_dict_frame_file.
    cbv [default from_option id truthy py_str].
    destruct (String.eqb (frame_file c) ""); reflexivity. }
  unfold SearchHits.chunk_dict.
  repeat split;
    repeat (first [ rewrite lookup_insert_eq; reflexivity
                  | rewrite lookup_insert_ne by discriminate ]).
Qed.

(** Without RETRIEVE_K in the environment, [search] asks the store for
    max(top_k, 50) candidates; with RETRIEVE_K set to the text of a
    number, for that number, whatever [top_k] is. *)
Theorem retrieve_k_default :
  forall top_k n : Z,
    SearchHits.retrieve_k None top_k = Some (Z.max top_k 50) /\
    SearchHits.retrieve_k (Some (Py.str_of_int n)) top_k = Some n.
Proof.
  intros top_k n. unfold SearchHits.retrieve_k. cbn [default].
  split; apply int_of_str_of_int.
Qed.

End Hits.

(** ** The local store *)

Section FaissProofs.
Context {F : Type}.
Variable index_search :
  FaissStore.Index F -> list F -> Z -> list F * list Z.

(** [add] through a new store object, and what a later store object
    finds.  The index has the dimension of the index file when there is
    one, else the dimension of the store.  When every vector has that
    dimension, [add] succeeds, whatever the number of metadata lines:
    the vectors are appended to the index and the lines to the metadata
    file, a store opened afterwards reads both back, and a directory
    that was aligned stays aligned exactly when as many lines as vectors
    were given; then the j-th new vector has number n + j and that line
    holds the j-th new metadata.  When some vector has another
    dimension, [add] fails. *)
Theorem faiss_add_appends :
  forall (dim dim' : Z) (dir : FaissStore.Dir F)
         (embeddings : list (list F))
         (metas : list (gmap string (pyval F)))
         (query : list F) (top_k : Z),
    let ix := opened dim dir in
    let n := length (FaissStore.vectors ix) in
    (Forall (fun v => Z.of_nat (length v) = FaissStore.d ix) embeddings ->
     exists self' dir',
       FaissStore.add (FaissStore.__init__ dim) dir embeddings metas
       = Some (self', dir') /\
       opened dim' dir'
       = {| FaissStore.d := FaissStore.d ix;
            FaissStore.vectors := FaissStore.vectors ix ++ embeddings |} /\
       lines dir' = (lines dir ++ metas)%list /\
       snd (snd (FaissStore.search index_search (FaissStore.__init__ dim')
                                   dir' query top_k))
       = (lines dir ++ metas)%list /\
       (aligned dim dir ->
        (aligned dim' dir' <-> length metas = length embeddings) /\
        (length metas = length embeddings ->
         forall j : nat,
           FaissStore.vectors (opened dim' dir') !! (n + j)%nat
           = embeddings !! j /\
           lines dir' !! (n + j)%nat = metas !! j))) /\
    (~ Forall (fun v => Z.of_nat (length v) = FaissStore.d ix) embeddings ->
     FaissStore.add (FaissStore.__init__ dim) dir embeddings metas = None).
Proof.
  intros dim dim' dir embeddings metas query top_k ix n.
  assert (Hload : FaissStore._index
                    (FaissStore._load (FaissStore.__init__ dim) dir)
                  = Some ix) by reflexivity.
  split.
  - intros Hdim.
    assert (Hall : forallb (fun v => Z.of_nat (length v) =? FaissStore.d ix)
                           embeddings = true).
    { apply forallb_forall. intros v Hv. apply Z.eqb_eq.
      rewrite List.Forall_forall in Hdim. apply Hdim, Hv. }
    unfold FaissStore.add. cbv zeta. rewrite Hload.
    unfold FaissStore.index_add. rewrite Hall.
    eexists _, _. split; [reflexivity|].
    split; [reflexivity|]. split; [reflexivity|]. split; [reflexivity|].
    intros Hal. unfold aligned in *. fold ix in Hal. fold n in Hal.
    cbn [opened lines FaissStore.index_faiss FaissStore.meta_jsonl default
         from_option id FaissStore.vectors].
    change (default [] (FaissStore.meta_jsonl dir)) with (lines dir).
    split.
    + rewrite !length_app. lia.
    + intros Hlen j. rewrite Hal at 2.
      rewrite !lookup_app_r by lia.
      split; f_equal; lia.
  - intros Hbad.
    assert (Hall : forallb (fun v => Z.of_nat (length v) =? FaissStore.d ix)
                           embeddings = false).
    { apply not_true_is_false. intros Hall. apply Hbad.
      apply List.Forall_forall. intros v Hv. apply Z.eqb_eq.
      rewrite forallb_forall in Hall. apply Hall, Hv. }
    unfold FaissStore.add. cbv zeta. rewrite Hload.
    unfold FaissStore.index_add. rewrite Hall. reflexivity.
Qed.

End FaissProofs.

Lemma faiss_add_appends_witness :
  let dir : FaissStore.Dir Q :=
    {| FaissStore.index_faiss := None; FaissStore.meta_jsonl := None |} in
  let embeddings : list (list Q) := [ [1%Q; 0%Q]; [0%Q; 1%Q] ] in
  let metas : list (gmap string (pyval Q)) :=
    [ {[ "text" := VStr "a" ]}; {[ "text" := VStr "b" ]} ] in
  Forall (fun v : list Q =>
            Z.of_nat (length v) = FaissStore.d (opened 2 dir))
         embeddings /\
  aligned 2 dir /\
  exists self' dir',
    FaissStore.add (FaissStore.__init__ 2) dir embeddings metas
    = Some (self', dir') /\
    lines dir' = (lines dir ++ metas)%list.
Proof.
  cbv zeta.
  pose (dir := {| FaissStore.index_faiss := None;
                  FaissStore.meta_jsonl := None |} : FaissStore.Dir Q).
  assert (Hdim : Forall (fun v : list Q =>
                           Z.of_nat (length v) = FaissStore.d (opened 2 dir))
                        [ [1%Q; 0%Q]; [0%Q; 1%Q] ]).
  { apply List.Forall_forall. intros v [<-|[<-|[]]]; reflexivity. }
  split; [exact Hdim|]. split; [reflexivity|].
  destruct (proj1 (faiss_add_appends
                     (fun _ _ _ => ([], [])) 2 2 dir
                     [ [1%Q; 0%Q]; [0%Q; 1%Q] ]
                     [ {[ "text" := VStr "a" ]}; {[ "text" := VStr "b" ]} ]
                     [1%Q; 0%Q] 5) Hdim)
    as (self' & dir' & Hadd & _ & Hlines & _).
  exists self', dir'. split; [exact Hadd|exact Hlines].
Defined.

(** ** The optional rerank of [search] *)

Section OptionalRerank.
Context {F : Type} {PF : PyFloat F}.

(** The rerank step of [search] cannot fail and cannot lose the hits.
    With the reranker disabled, the hits pass unchanged.  With the
    reranker enabled and no model to load, the hits are cut to the first
    [top_k].  With a model, when a text is not a string or the model
    raises, the hits pass unchanged. *)
Theorem optional_rerank_keeps_hits :
  forall (cfg : RerankConfig)
         (load_model : string -> option (CrossEncoder F))
         (query : string) (hits : list (gmap string (pyval F)))
         (top_k : Z),
    let out := SearchHits.optional_rerank cfg load_model query hits top_k in
    (enabled cfg = false -> out = hits) /\
    (enabled cfg = true -> load_model (model cfg) = None ->
     out = Py.slice_to top_k hits) /\
    (forall m,
        enabled cfg = true -> load_model (model cfg) = Some m ->
        (Rerank.pairs_of query "text" hits = None \/
         exists pairs, Rerank.pairs_of query "text" hits = Some pairs /\
                       m pairs = None) ->
        out = hits).
Proof.
  intros cfg load_model query hits top_k out. subst out.
  unfold SearchHits.optional_rerank. split; [intros ->; reflexivity|].
  split.
  - intros -> Hload. unfold Rerank.rerank.
    rewrite (load_unavailable load_model cfg (or_intror Hload)).
    cbn [Rerank._model Rerank.cfg].
    destruct hits as [|h hits]; [|reflexivity].
    cbn [fst]. unfold Py.slice_to.
    destruct (0 <=? top_k); rewrite take_nil; reflexivity.
  - intros m Hen Hload Hfail. rewrite Hen.
    unfold Rerank.rerank, Rerank._load, Rerank.__init__.
    cbn [Rerank._model Rerank.cfg]. rewrite Hen, Hload.
    cbn [Rerank._model Rerank.cfg negb].
    destruct hits as [|h hits]; [reflexivity|].
    destruct Hfail as [Hp | (pairs & Hp & Hm)]; rewrite Hp;
      [reflexivity|].
    cbv beta iota. rewrite Hm. reflexivity.
Qed.

End OptionalRerank.

(** ** The chunks of an ingest in the networked store *)

Section UpsertChunks.
Context {F : Type} {PF : PyFloat F}.
Variable float_str : F -> string.
Variable uuid5 : string -> Z.

Lemma chunk_dict_no_id (c : Chunk F) :
  raw_pid (SearchHits.chunk_dict c) = VNone.
Proof.
  unfold raw_pid, QdrantStore.get, SearchHits.chunk_dict.
  rewrite !lookup_insert_ne by discriminate.
  rewrite !lookup_empty. reflexivity.
Qed.

Lemma chunk_dict_fallback_key (c : Chunk F) (i : Z) :
  fallback_key float_str (SearchHits.chunk_dict c) i
  = Chunking.video_id c ++ ":" ++ float_str (start c) ++ ":"
    ++ float_str (end_ c) ++ ":" ++ Py.str_of_int i.
Proof.
  unfold fallback_key, QdrantStore.get, SearchHits.chunk_dict.
  rewrite lookup_insert_eq.
  rewrite (lookup_insert_ne _ "video_id" "start") by discriminate.
  rewrite lookup_insert_eq.
  rewrite (lookup_insert_ne _ "video_id" "end") by discriminate.
  rewrite (lookup_insert_ne _ "start" "end") by discriminate.
  rewrite lookup_insert_eq. reflexivity.
Qed.

Lemma chunk_point_id (c : Chunk F) (i : Z) :
  point_id_of float_str uuid5 (SearchHits.chunk_dict c) i
  = Some (PidStr (uuid_str (uuid5
            (Chunking.video_id c ++ ":" ++ float_str (start c) ++ ":"
             ++ float_str (end_ c) ++ ":" ++ Py.str_of_int i)))).
Proof.
  unfold point_id_of. rewrite chunk_dict_no_id, chunk_dict_fallback_key.
  reflexivity.
Qed.

Lemma points_from_chunks (chunks : list (Chunk F)) :
  forall (vectors : list (list F)) (i0 : Z),
    length vectors = length chunks ->
    exists points,
      points_from float_str uuid5 i0
                  (zip vectors (map SearchHits.chunk_dict chunks))
      = Some points /\
      length points = length chunks /\
      forall (i : nat) c v,
        chunks !! i = Some c -> vectors !! i = Some v ->
        points !! i
        = Some {| ps_id :=
                    PidStr (uuid_str (uuid5
                      (Chunking.video_id c ++ ":" ++ float_str (start c)
                       ++ ":" ++ float_str (end_ c) ++ ":"
                       ++ Py.str_of_int (i0 + Z.of_nat i))));
                  ps_vector := v;
                  ps_payload := SearchHits.chunk_dict c |}.
Proof.
  induction chunks as [|c chunks IH]; intros [|v vectors] i0 Hlen;
    try discriminate Hlen.
  - exists []. split; [reflexivity|]. split; [reflexivity|].
    intros i c v Hc. discriminate Hc.
  - injection Hlen as Hlen.
    destruct (IH vectors (i0 + 1) Hlen) as (points & Hp & Hl & Hi).
    cbn [map zip zip_with points_from]. rewrite chunk_point_id, Hp.
    eexists. split; [reflexivity|]. split; [cbn; rewrite Hl; reflexivity|].
    intros [|i] c' v' Hc Hv.
    + injection Hc as <-. injection Hv as <-.
      cbn. rewrite Z.add_0_r. reflexivity.
    + pose proof (Hi i c' v' Hc Hv) as Hpi.
      replace (i0 + Z.of_nat (S i)) with (i0 + 1 + Z.of_nat i) by lia.
      exact Hpi.
Qed.

Lemma str_of_int_no_colon (n : Z) : occurs ":" (Py.str_of_int n) = false.
Proof.
  unfold Py.str_of_int, NilZero.string_of_int, NilZero.string_of_uint.
  assert (Hu : forall d, occurs ":" (NilEmpty.string_of_uint d) = false).
  { induction d; simpl; assumption || reflexivity. }
  destruct (Z.to_int n) as [d|d]; destruct d; simpl;
    try reflexivity; apply Hu.
Qed.

(** The chunks of an ingest are always accepted by [upsert]: they carry
    no identifier of their own, so for as many vectors as chunks the call
    succeeds and adds to the collection of the store, after what was
    there, one point per chunk, in order, each with its vector, the
    dictionary of the chunk as payload, and the identifier derived from
    the key "<video_id>:<start>:<end>:<position>".  The keys of two
    different positions differ, whatever the chunks. *)
Theorem upsert_accepts_chunk_dicts :
  forall (st : QdrantStore) (vectors : list (list F))
         (chunks : list (Chunk F)) (srv : server),
    length vectors = length chunks ->
    (exists srv' points,
        QdrantStore.upsert float_str uuid5 st vectors
                           (map SearchHits.chunk_dict chunks) srv
        = inr srv' /\
        searched st srv' = (searched st srv ++ points)%list /\
        length points = length chunks /\
        forall (i : nat) c v,
          chunks !! i = Some c -> vectors !! i = Some v ->
          points !! i
          = Some {| ps_id :=
                      PidStr (uuid_str (uuid5
                        (fallback_key float_str (SearchHits.chunk_dict c)
                                      (Z.of_nat i))));
                    ps_vector := v;
                    ps_payload := SearchHits.chunk_dict c |}) /\
    (forall (c1 c2 : Chunk F) (i j : Z),
        fallback_key float_str (SearchHits.chunk_dict c1) i
        = fallback_key float_str (SearchHits.chunk_dict c2) j ->
        i = j).
Proof.
  intros st vectors chunks srv Hlen. split.
  - destruct (points_from_chunks chunks vectors 0 Hlen)
      as (points & Hp & Hl & Hi).
    unfold QdrantStore.upsert. rewrite length_map, Hp.
    replace (length chunks =? length vectors)%nat with true
      by (symmetry; apply Nat.eqb_eq; lia).
    cbn [negb]. eexists _, points. split; [reflexivity|].
    split; [|split; [exact Hl|]].
    + unfold searched, server in *. rewrite lookup_insert_eq. reflexivity.
    + intros i c v Hc Hv. rewrite (Hi i c v Hc Hv).
      rewrite chunk_dict_fallback_key. reflexivity.
  - intros c1 c2 i j Heq. rewrite !chunk_dict_fallback_key in Heq.
    apply str_of_int_inj.
    apply (append_cancel_tail ":"
             (Chunking.video_id c1 ++ ":" ++ float_str (start c1) ++ ":"
              ++ float_str (end_ c1))
             (Chunking.video_id c2 ++ ":" ++ float_str (start c2) ++ ":"
              ++ float_str (end_ c2)));
      [apply str_of_int_no_colon..|].
    rewrite !append_assoc. exact Heq.
Qed.

End UpsertChunks.

Lemma upsert_accepts_chunk_dicts_witness :
  let c : Chunk Q :=
    {| Chunking.video_id := "0123456789"; start := 0%Q; end_ := 3 # 2;
       transcript := "hello"; caption := ""; frame_file := "" |} in
  let st :=
    {| QdrantStore.dim := 2;
       QdrantStore.cfg := {| url := "http://localhost:6333"; api_key := None;
                 cfg_collection := "visionvault_chunks" |};
       QdrantStore.collection := "visionvault_chunks_d2" |} in
  length [ [1%Q; 0%Q] ] = length [c] /\
  exists srv' points,
    QdrantStore.upsert (fun _ => "0.0") (fun _ => 7) st [ [1%Q; 0%Q] ]
                       (map SearchHits.chunk_dict [c]) ∅
    = inr srv' /\
    searched st srv' = (searched st ∅ ++ points)%list /\
    length points = length [c].
Proof.
  cbv zeta. split; [reflexivity|].
  destruct (proj1 (upsert_accepts_chunk_dicts
                     (fun _ : Q => "0.0") (fun _ => 7)
                     {| QdrantStore.dim := 2;
                        QdrantStore.cfg := {| url := "http://localhost:6333";
                                  api_key := None;
                                  cfg_collection := "visionvault_chunks" |};
                        QdrantStore.collection := "visionvault_chunks_d2" |}
                     [ [1%Q; 0%Q] ]
                     [ {| Chunking.video_id := "0123456789"; start := 0%Q;
                          end_ := 3 # 2; transcript := "hello";
                          caption := ""; frame_file := "" |} ]
                     ∅ eq_refl))
    as (srv' & points & Hup & Hs & Hl & _).
  exists srv', points. split; [exact Hup|]. split; [exact Hs|exact Hl].
Defined.

(** ** The download *)

(** The test for a retryable error, on two messages of the downloader. *)
Example retryable_examples :
  DownloadVideo.retryable
    "ERROR: [youtube] dQw4w9WgXcQ: nsig extraction failed: Some formats may be missing"
  = true /\
  DownloadVideo.retryable "ERROR: [youtube] dQw4w9WgXcQ: Video unavailable"
  = false.
Proof. split; vm_compute; reflexivity. Qed.

(** [download_youtube] returns a path only for a file that exists and is
    not empty, and the path is the requested one.  It runs the downloader
    once, or twice when the first run failed with one of the three
    retryable errors, and never more; the second command is the first
    one with the option for the other client inserted after the program
    name, so both end with the output path and the address. *)
Theorem download_youtube_outcomes :
  forall (_run : list string -> option Z ->
                 option DownloadVideo.CalledProcessError * option Z)
         (url output_path : string) (file : option Z),
    let base := DownloadVideo.base_cmd url output_path in
    let fallback :=
      "yt-dlp" :: "--extractor-args" :: "youtube:player_client=android"
      :: tail base in
    let out := DownloadVideo.download_youtube _run url output_path file in
    (forall path,
        DownloadVideo.returned out = Ok path ->
        path = output_path /\
        exists size, DownloadVideo.output_file out = Some size /\
                     size <> 0) /\
    (DownloadVideo.commands out = [base] \/
     DownloadVideo.commands out = [base; fallback]) /\
    (DownloadVideo.commands out = [base; fallback] <->
     exists e, fst (_run base file) = Some e /\
               DownloadVideo.retryable (DownloadVideo.message e) = true) /\
    last fallback = Some url /\ last base = Some url.
Proof.
  intros _run url output_path file base fallback out.
  assert (Hfb : DownloadVideo.fallback_cmd base = fallback) by reflexivity.
  assert (Hval : forall f cmds path,
             DownloadVideo.returned
               (DownloadVideo.validate output_path f cmds) = Ok path ->
             path = output_path /\
             exists size,
               DownloadVideo.output_file
                 (DownloadVideo.validate output_path f cmds) = Some size /\
               size <> 0).
  { intros f cmds path. unfold DownloadVideo.validate.
    destruct f as [size|]; [|discriminate].
    destruct (Z.eqb_spec size 0) as [|Hne]; [discriminate|].
    cbn. intros Heq. injection Heq as <-. split; [reflexivity|].
    exists size. split; [reflexivity|exact Hne]. }
  assert (Hcmds : forall f cmds,
             DownloadVideo.commands
               (DownloadVideo.validate output_path f cmds) = cmds).
  { intros f cmds. unfold DownloadVideo.validate.
    destruct (match f with None => true | Some size => size =? 0 end);
      reflexivity. }
  assert (Hne : [base] <> [base; fallback]) by discriminate.
  subst out. unfold DownloadVideo.download_youtube. cbv zeta.
  fold base. rewrite Hfb.
  destruct (fst (_run base file)) as [e|] eqn:E1.
  - destruct (DownloadVideo.retryable (DownloadVideo.message e)) eqn:Er.
    + destruct (fst (_run fallback (snd (_run base file)))) as [e2|] eqn:E2.
      * cbn [DownloadVideo.returned DownloadVideo.commands
             DownloadVideo.output_file].
        split; [intros path Hp; discriminate Hp|].
        split; [right; reflexivity|]. split; [|split; reflexivity].
        split; [intros _; exists e; split; [reflexivity|exact Er]
               |reflexivity].
      * rewrite Hcmds. split; [apply Hval|].
        split; [right; reflexivity|]. split; [|split; reflexivity].
        split; [intros _; exists e; split; [reflexivity|exact Er]
               |reflexivity].
    + cbn [DownloadVideo.returned DownloadVideo.commands
           DownloadVideo.output_file].
      split; [intros path Hp; discriminate Hp|].
      split; [left; reflexivity|]. split; [|split; reflexivity].
      split; [intros H; exfalso; exact (Hne H)|].
      intros (e' & He' & Hr).
      assert (e' = e) by congruence. subst e'. congruence.
  - rewrite Hcmds. split; [apply Hval|].
    split; [left; reflexivity|]. split; [|split; reflexivity].
    split; [intros H; exfalso; exact (Hne H)|].
    intros (e' & He' & _). discriminate He'.
Qed.

(** ** More on ingestion *)

Import StageSpec.

Ltac trace_filter :=
  repeat match goal with
         | H : trace ?s = _ |- context [trace ?s] => rewrite H; clear H
         end;
  rewrite ?List.filter_app; simpl; rewrite ?app_nil_r; try reflexivity.

Ltac trace_suffix Hd :=
  repeat match goal with
         | H : trace ?s = _ |- _ =>
             lazymatch H with Hd => fail | _ => idtac end;
             lazymatch type of Hd with
             | context [trace s] => rewrite H in Hd
             end
         end;
  rewrite <- ?List.app_assoc in Hd;
  apply app_inv_head in Hd; simpl in Hd.

Ltac flags_down :=
  repeat match goal with
         | Hf : _CANCEL_INGEST ?s = false,
           H : _CANCEL_INGEST ?s = _ || _ |- _ =>
             rewrite Hf in H; symmetry in H;
             apply orb_false_elim in H; destruct H as [? ?]
         | Hf : _CANCEL_INGEST ?s = false,
           H : _CANCEL_INGEST ?s = true |- _ =>
             rewrite Hf in H; discriminate H
         end.

Section IngestMore.
Context {F : Type} {PF : PyFloat F}.
Variable W : World F.

Lemma bad_source_shape (source_type source : string) (fps : F)
      (max_frames : option Z) (enable_captions : bool) (st : State F) :
  let run :=
    ingest_video W source_type source fps max_frames enable_captions st in
  (source_type = "local" -> local_exists W source = false ->
   fst run = Raise (FileNotFoundError
                      ("Local video not found: " ++ path_str W source)) /\
   trace (snd run) = (trace st ++ [EvWriteMeta (new_video_id W)])%list) /\
  (source_type <> "youtube" -> source_type <> "local" ->
   fst run = Raise (ValueError "source_type must be youtube or local") /\
   trace (snd run) = (trace st ++ [EvWriteMeta (new_video_id W)])%list).
Proof.
  intros run. subst run. unfold ingest_video, bind.
  cbn [set_cancel call fst snd]. split.
  - intros -> Hex.
    change (String.eqb "local" "youtube") with false.
    change (String.eqb "local" "local") with true.
    rewrite Hex. split; reflexivity.
  - intros Hy Hl.
    destruct (String.eqb_spec source_type "youtube"); [contradiction|].
    destruct (String.eqb_spec source_type "local"); [contradiction|].
    split; reflexivity.
Qed.

(** A source that cannot be used fails before any collaborator runs.
    For a local source that does not exist the ingest raises
    FileNotFoundError, for a source type other than "youtube" and "local"
    it raises ValueError; in both cases the metadata record of the new
    video has been written by then, and nothing else has happened. *)
Theorem ingest_rejects_bad_source :
  forall (source_type source : string) (fps : F) (max_frames : option Z)
         (enable_captions : bool) (st : State F),
    let run :=
      ingest_video W source_type source fps max_frames enable_captions st in
    (source_type = "local" -> local_exists W source = false ->
     fst run = Raise (FileNotFoundError
                        ("Local video not found: " ++ path_str W source)) /\
     trace (snd run) = (trace st ++ [EvWriteMeta (new_video_id W)])%list) /\
    (source_type <> "youtube" -> source_type <> "local" ->
     fst run = Raise (ValueError "source_type must be youtube or local") /\
     trace (snd run) = (trace st ++ [EvWriteMeta (new_video_id W)])%list).
Proof.
  intros source_type source fps max_frames enable_captions st.
  exact (bad_source_shape source_type source fps max_frames
           enable_captions st).
Qed.

(** The answers of the ingest route.  A local source that does not exist
    is answered with 404, a source type other than "youtube" and "local"
    with 500, not with a client error; a cancelled ingest is answered
    with 500 and has written nothing to the vector store; and a
    successful ingest is answered with the status "ok", the identifier
    and the number of chunks that [ingest_video] returned. *)
Theorem ingest_route_answers :
  forall (req : IngestRoute.IngestRequest F) (st : State F),
    let run :=
      ingest_video W (IngestRoute.source_type req) (IngestRoute.source req)
                   (IngestRoute.fps req) (IngestRoute.max_frames req)
                   (IngestRoute.enable_captions req) st in
    let answer := IngestRoute.ingest W req st in
    snd answer = snd run /\
    (IngestRoute.source_type req = "local" ->
     local_exists W (IngestRoute.source req) = false ->
     fst answer
     = IngestRoute.HTTPException
         404 (FileNotFoundError
                ("Local video not found: "
                 ++ path_str W (IngestRoute.source req)))) /\
    (IngestRoute.source_type req <> "youtube" ->
     IngestRoute.source_type req <> "local" ->
     fst answer
     = IngestRoute.HTTPException
         500 (ValueError "source_type must be youtube or local")) /\
    (fst run = Raise Cancelled ->
     fst answer = IngestRoute.HTTPException 500 Cancelled /\
     store_writes (snd answer) = store_writes st) /\
    (forall video_id n,
        fst run = Ok (video_id, n) ->
        fst answer = IngestRoute.IngestResponse video_id "ok" n).
Proof.
  intros req st run answer.
  pose proof (bad_source_shape (IngestRoute.source_type req)
                (IngestRoute.source req) (IngestRoute.fps req)
                (IngestRoute.max_frames req)
                (IngestRoute.enable_captions req) st) as [Hmiss Htype].
  pose proof (cancelled_without_store_write W
                (IngestRoute.source_type req)
                (IngestRoute.source req) (IngestRoute.fps req)
                (IngestRoute.max_frames req)
                (IngestRoute.enable_captions req) st) as Hquiet.
  unfold wp in Hquiet. fold run in Hmiss, Htype, Hquiet.
  assert (Hst : snd answer = snd run).
  { subst answer. unfold IngestRoute.ingest. fold run.
    destruct run as [[[vid n]|[m|m|m| |m]] st']; reflexivity. }
  split; [exact Hst|]. split; [|split; [|split]].
  - intros Hl Hex. destruct (Hmiss Hl Hex) as [Hr _].
    subst answer. unfold IngestRoute.ingest. fold run.
    destruct run as [r st']. cbn in Hr. subst r. reflexivity.
  - intros Hy Hl. destruct (Htype Hy Hl) as [Hr _].
    subst answer. unfold IngestRoute.ingest. fold run.
    destruct run as [r st']. cbn in Hr. subst r. reflexivity.
  - intros Hc. split; [|rewrite Hst; exact (Hquiet Hc)].
    subst answer. unfold IngestRoute.ingest. fold run.
    destruct run as [r st']. cbn in Hc. subst r. reflexivity.
  - intros vid n Hok.
    subst answer. unfold IngestRoute.ingest. fold run.
    destruct run as [r st']. cbn in Hok. subst r. reflexivity.
Qed.

Lemma align_nil_plain (vid : string) (segs : list (Segment F)) :
  Forall plain (align_transcript_and_captions vid segs []).
Proof.
  unfold align_transcript_and_captions.
  induction segs as [|seg segs IH]; constructor; [split; reflexivity|].
  exact IH.
Qed.

Lemma ingest_success_shape
      (source_type source : string) (fps : F) (max_frames : option Z)
      (enable_captions : bool) (st : State F) :
  wp (ingest_video W source_type source fps max_frames enable_captions) st
     (fun r st' =>
        forall vid n, r = Ok (vid, n) ->
          vid = new_video_id W /\
          exists segs chunks w,
            transcribe_audio W = Some segs /\
            n = Z.of_nat (length segs) /\
            length chunks = length segs /\
            written_chunks st' = (written_chunks st ++ [chunks])%list /\
            store_writes st' = (store_writes st ++ [w])%list /\
            (w = EvFaissAdd chunks \/
             exists name, w = EvQdrantUpsert name chunks)).
Proof.
  unfold ingest_video, store_writes, written_chunks.
  repeat (wp_step W); cbn beta iota;
    intros vid n Hr; try discriminate Hr;
    injection Hr as <- <-; (split; [reflexivity|]);
    repeat match goal with
           | H : trace ?s = _ |- context [trace ?s] => rewrite H; clear H
           end;
    match goal with
    | H : transcribe_audio W = Some ?segs |- _ =>
        match goal with
        | |- context [EvFaissAdd ?c] =>
            exists segs, c, (EvFaissAdd c)
        | |- context [EvQdrantUpsert ?nm ?c] =>
            exists segs, c, (EvQdrantUpsert nm c)
        end
    end;
    (split; [first [assumption | reflexivity]|]);
    (split; [unfold align_transcript_and_captions; rewrite length_map;
             reflexivity|]);
    (split; [unfold align_transcript_and_captions; apply length_map|]);
    rewrite ?omap_app, ?List.filter_app; simpl; rewrite ?app_nil_r;
    (split; [reflexivity|]); (split; [reflexivity|]);
    solve [left; reflexivity | right; eexists; reflexivity].
Qed.

(** An ingest that returns has written one chunk per transcript segment,
    once to the chunk file and once to the vector store, and nothing else
    to either: it returns the identifier drawn at its start and the number
    of segments of the transcript, the chunk file received exactly one
    list, with one chunk per segment, and the vector store exactly one
    write, of that same list, to the local store or to the collection of
    the networked store. *)
Theorem ingest_success_writes_once :
  forall (source_type source : string) (fps : F) (max_frames : option Z)
         (enable_captions : bool) (st : State F) (vid : string) (n : Z),
    let run :=
      ingest_video W source_type source fps max_frames enable_captions st in
    fst run = Ok (vid, n) ->
    vid = new_video_id W /\
    exists segs chunks w,
      transcribe_audio W = Some segs /\
      n = Z.of_nat (length segs) /\
      length chunks = length segs /\
      written_chunks (snd run) = (written_chunks st ++ [chunks])%list /\
      store_writes (snd run) = (store_writes st ++ [w])%list /\
      (w = EvFaissAdd chunks \/ exists name, w = EvQdrantUpsert name chunks).
Proof.
  intros source_type source fps max_frames enable_captions st vid n run.
  exact (ingest_success_shape source_type source fps max_frames
           enable_captions st vid n).
Qed.

Lemma frames_off_shape
      (source_type source : string) (fps : F) (max_frames : option Z)
      (enable_captions : bool) (st : State F) :
  (fps >? f_of_Z 0)%F
  && match max_frames with None => true | Some m => m >? 0 end = false ->
  wp (ingest_video W source_type source fps max_frames enable_captions) st
     (fun _ st' =>
        List.filter is_frame_extraction (trace st')
        = List.filter is_frame_extraction (trace st) /\
        exists new,
          written_chunks st' = (written_chunks st ++ new)%list /\
          Forall (Forall plain) new).
Proof.
  intros Hoff. unfold ingest_video, written_chunks. rewrite Hoff.
  repeat (wp_step W); cbn beta iota;
    try match goal with
        | H : frame_descriptions _ _ [] = Ok _ |- _ =>
            cbn in H; injection H as <-
        end;
    (split; [trace_filter|]);
    repeat match goal with
           | H : trace ?s = _ |- context [trace ?s] => rewrite H; clear H
           end;
    rewrite ?omap_app; simpl; rewrite ?app_nil_r;
    first [ exists []; split; [symmetry; apply app_nil_r|constructor]
          | eexists [_]; split; [reflexivity|];
            constructor; [apply align_nil_plain|constructor] ].
Qed.

(** Frame sampling can be switched off.  When the rate is not above zero,
    or the frame limit is zero or negative, the ingest never runs the
    frame extraction, whatever else happens, and every chunk it writes
    has an empty caption and no representative frame. *)
Theorem frames_off_means_plain_chunks :
  forall (source_type source : string) (fps : F) (max_frames : option Z)
         (enable_captions : bool) (st : State F),
    (fps >? f_of_Z 0)%F
    && match max_frames with None => true | Some m => m >? 0 end = false ->
    let run :=
      ingest_video W source_type source fps max_frames enable_captions st in
    List.filter is_frame_extraction (trace (snd run))
    = List.filter is_frame_extraction (trace st) /\
    exists new,
      written_chunks (snd run) = (written_chunks st ++ new)%list /\
      Forall (Forall plain) new.
Proof.
  intros source_type source fps max_frames enable_captions st Hoff run.
  exact (frames_off_shape source_type source fps max_frames
           enable_captions st Hoff).
Qed.

Lemma cancel_seen_shape
      (s : stage) (source_type source : string) (fps : F)
      (max_frames : option Z) (enable_captions : bool) (st : State F) :
  seen_before_write W s = true ->
  cancel_during W s = true ->
  wp (ingest_video W source_type source fps max_frames enable_captions) st
     (fun r st' =>
        forall done,
          trace st' = (trace st ++ done)%list ->
          In s (map stage_of done) ->
          (exists e, r = Raise e) /\ store_writes st' = store_writes st).
Proof.
  intros Hseen Hland. unfold ingest_video, store_writes.
  repeat (wp_step W); cbn beta iota;
    intros done Hdone Hin;
    trace_suffix Hdone; subst done;
    simpl in Hin; unfold seen_before_write in Hseen;
    repeat match goal with
           | H : qdrant_config W = _ |- _ => rewrite H in Hseen; clear H
           end;
    repeat (destruct Hin as [Hin|Hin]; [subst s|]); try contradiction;
    try discriminate Hseen;
    try (exfalso; flags_down; congruence);
    (split; [eexists; reflexivity|trace_filter]).
Qed.

(** A cancel request that lands during a stage that is followed by a
    check before the store is written always stops the ingest: if the
    request lands during such a stage and the run gets to that stage, the
    run ends with an exception and without any write to the vector store.
    The stages in question are all those up to the loading of the
    embedding model, and with the networked store also the embedding and
    the opening of the store. *)
Theorem cancel_during_checked_stage_aborts :
  forall (s : stage) (source_type source : string) (fps : F)
         (max_frames : option Z) (enable_captions : bool) (st : State F)
         (done : list (event F)),
    let run :=
      ingest_video W source_type source fps max_frames enable_captions st in
    seen_before_write W s = true ->
    cancel_during W s = true ->
    trace (snd run) = (trace st ++ done)%list ->
    In s (map stage_of done) ->
    (exists e, fst run = Raise e) /\
    store_writes (snd run) = store_writes st.
Proof.
  intros s source_type source fps max_frames enable_captions st done run
         Hseen Hland.
  exact (cancel_seen_shape s source_type source fps max_frames
           enable_captions st Hseen Hland done).
Qed.

Lemma frame_descriptions_not_cancelled (fps : F) (cap_map : gmap string string)
      (frame_files : list string) :
  frame_descriptions fps cap_map frame_files <> Raise Cancelled.
Proof.
  induction frame_files as [|name rest IH]; cbn; [discriminate|].
  destruct (ExtractFrames.parse_frame_number name); [|discriminate].
  destruct (ExtractFrames.frame_number_to_timestamp_seconds _ fps);
    [|discriminate].
  destruct (frame_descriptions fps cap_map rest); [discriminate|].
  intros Heq. apply IH. exact Heq.
Qed.

Lemma unseen_cancel_shape
      (source_type source : string) (fps : F)
      (max_frames : option Z) (enable_captions : bool) (st : State F) :
  (forall s, cancel_during W s = true -> seen_before_write W s = false) ->
  wp (ingest_video W source_type source fps max_frames enable_captions) st
     (fun r _ => r <> Raise Cancelled).
Proof.
  intros Hlate. unfold ingest_video.
  repeat (wp_step W); cbn beta iota;
    try (match goal with
         | H : frame_descriptions ?a ?b ?c = Raise ?e |- Raise ?e <> _ =>
             let Heq := fresh in
             intros Heq;
             apply (frame_descriptions_not_cancelled a b c);
             injection Heq as ->; exact H
         end);
    unfold Cancelled;
    try discriminate;
    exfalso;
    repeat match goal with
           | H : _CANCEL_INGEST _ = _ || cancel_during W ?x |- _ =>
               let E := fresh "E" in
               destruct (cancel_during W x) eqn:E;
               [ apply Hlate in E; unfold seen_before_write in E;
                 repeat match goal with
                        | Hq : qdrant_config W = _ |- _ =>
                            rewrite Hq in E; clear Hq
                        end;
                 discriminate E
               | rewrite orb_false_r in H ]
           end;
    repeat match goal with
           | H : _ = _ || false |- _ => rewrite orb_false_r in H
           end;
    congruence.
Qed.

(** A cancel request that lands only during the other stages is never
    reported: when requests land only during the write to the vector
    store or the build of the secondary index, or, with the local store,
    during the embedding, the ingest does not end with the Cancelled
    error. *)
Theorem cancel_during_unchecked_stage_is_not_reported :
  forall (source_type source : string) (fps : F)
         (max_frames : option Z) (enable_captions : bool) (st : State F),
    (forall s, cancel_during W s = true -> seen_before_write W s = false) ->
    fst (ingest_video W source_type source fps max_frames enable_captions st)
    <> Raise Cancelled.
Proof.
  intros source_type source fps max_frames enable_captions st Hlate.
  exact (unseen_cancel_shape source_type source fps max_frames
           enable_captions st Hlate).
Qed.

Lemma frame_cap_shape
      (source_type source : string) (fps : F) (m : Z)
      (enable_captions : bool) (st : State F) :
  wp (ingest_video W source_type source fps (Some m) enable_captions) st
     (fun _ st' =>
        forall done,
          trace st' = (trace st ++ done)%list ->
          forall files,
            In (EvCaptionFrames files) done ->
            Z.of_nat (length files) <= Z.max m 0 /\
            forall all_files,
              extract_frames W fps = Some all_files ->
              files `prefix_of` all_files).
Proof.
  unfold ingest_video.
  repeat (wp_step W); cbn beta iota;
    intros done Hdone files Hin;
    trace_suffix Hdone; subst done; simpl in Hin;
    repeat (destruct Hin as [Hin|Hin]; [try discriminate Hin|]);
    try contradiction;
    injection Hin as <-;
    try (split; [simpl; lia|intros; apply prefix_nil]);
    match goal with
    | H : _ && (_ >? 0) = true |- _ =>
        apply andb_prop in H; destruct H as [_ H]; apply Z.gtb_lt in H
    end;
    unfold Py.slice_to;
    replace (0 <=? m) with true by (symmetry; apply Z.leb_le; lia);
    (split; [rewrite length_take; lia|]);
    intros all_files Hall;
    injection Hall as <-;
    apply prefix_take.
Qed.

(** The frame limit bounds the captioning.  With a limit [m], every list
    of frames that the ingest hands to the captioner has at most
    max(m, 0) entries and is an initial part of the extracted frames. *)
Theorem max_frames_caps_captioned_frames :
  forall (source_type source : string) (fps : F) (m : Z)
         (enable_captions : bool) (st : State F)
         (done : list (event F)) (files : list string),
    let run :=
      ingest_video W source_type source fps (Some m) enable_captions st in
    trace (snd run) = (trace st ++ done)%list ->
    In (EvCaptionFrames files) done ->
    Z.of_nat (length files) <= Z.max m 0 /\
    forall all_files,
      extract_frames W fps = Some all_files ->
      files `prefix_of` all_files.
Proof.
  intros source_type source fps m enable_captions st done files run Hdone.
  exact (frame_cap_shape source_type source fps m enable_captions st
           done Hdone files).
Qed.

End IngestMore.

Section BuildIndex.
Context {F : Type} {PF : PyFloat F}.

Lemma bind_same_but_build {A B} (m : M (F := F) A)
      (k1 k2 : A -> M B) (st : State F) :
  (forall a st', same_but_build (k1 a st') (k2 a st')) ->
  same_but_build (bind m k1 st) (bind m k2 st).
Proof.
  intros Hk. unfold bind. destruct (m st) as [[a|e] st']; [apply Hk|].
  repeat split.
Qed.

(** The secondary index cannot change an ingest.  Whether the build of
    the secondary index succeeds or raises, the ingest returns the same
    result, leaves the cancel flag in the same state and has the same
    effects, apart from the record of the build itself. *)
Theorem secondary_index_never_changes_result :
  forall (W : World F) (b : bool) (source_type source : string) (fps : F)
         (max_frames : option Z) (enable_captions : bool) (st : State F),
    let run := ingest_video W source_type source fps max_frames
                            enable_captions st in
    let run' := ingest_video (with_build b W) source_type source fps max_frames
                             enable_captions st in
    fst run' = fst run /\
    _CANCEL_INGEST (snd run') = _CANCEL_INGEST (snd run) /\
    List.filter (fun ev => negb (is_index_build ev)) (trace (snd run'))
    = List.filter (fun ev => negb (is_index_build ev)) (trace (snd run)).
Proof.
  intros W b source_type source fps max_frames enable_captions st run run'.
  change (same_but_build run' run).
  subst run run'. unfold ingest_video, call.
  cbn [new_video_id qdrant_config local_exists path_str copy_local
       download_youtube
       extract_audio
       extract_frames transcribe_audio caption_frames load_embedder encode
       store_init Pipeline.upsert faiss_add cancel_during with_build].
  repeat (apply bind_same_but_build; intros ? ?).
  unfold same_but_build, bind, try_pass, _check_cancel, ret.
  match goal with
  | |- context [if _CANCEL_INGEST ?s then _ else _] =>
      destruct (_CANCEL_INGEST s)
  end; cbn; [auto|].
  destruct b, (build_index_from_chunks W); cbn;
    rewrite ?List.filter_app; cbn; rewrite ?app_nil_r; auto.
Qed.

End BuildIndex.

Lemma ingest_success_writes_once_witness :
  fst (ingest_video quiet_world "local" "/data/talk.mp4" 1%Q None false idle)
  = Ok ("0123456789", 1) /\
  "0123456789" = new_video_id quiet_world /\
  exists segs chunks w,
    transcribe_audio quiet_world = Some segs /\
    1 = Z.of_nat (length segs) /\
    length chunks = length segs /\
    written_chunks
      (snd (ingest_video quiet_world "local" "/data/talk.mp4" 1%Q None false
                         idle))
    = (written_chunks idle ++ [chunks])%list /\
    store_writes
      (snd (ingest_video quiet_world "local" "/data/talk.mp4" 1%Q None false
                         idle))
    = (store_writes idle ++ [w])%list /\
    (w = EvFaissAdd chunks \/ exists name, w = EvQdrantUpsert name chunks).
Proof.
  split; [vm_compute; reflexivity|].
  apply (ingest_success_writes_once quiet_world "local" "/data/talk.mp4"
           1%Q None false idle "0123456789" 1).
  vm_compute. reflexivity.
Defined.

Lemma frames_off_means_plain_chunks_witness :
  (0%Q >? f_of_Z 0)%F
  && match Some 5 with None => true | Some m => m >? 0 end = false /\
  List.filter is_frame_extraction
    (trace (snd (ingest_video quiet_world "local" "/data/talk.mp4" 0%Q
                              (Some 5) true idle)))
  = List.filter is_frame_extraction (trace idle) /\
  exists new,
    written_chunks
      (snd (ingest_video quiet_world "local" "/data/talk.mp4" 0%Q (Some 5)
                         true idle))
    = (written_chunks idle ++ new)%list /\
    Forall (Forall plain) new.
Proof.
  split; [reflexivity|].
  apply (frames_off_means_plain_chunks quiet_world "local" "/data/talk.mp4"
           0%Q (Some 5) true idle).
  reflexivity.
Defined.

Lemma cancel_during_checked_stage_aborts_witness :
  let run :=
    ingest_video early_cancel_world "local" "/data/talk.mp4" 1%Q None true
                 idle in
  seen_before_write early_cancel_world StSetup = true /\
  cancel_during early_cancel_world StSetup = true /\
  trace (snd run) = (trace idle ++ trace (snd run))%list /\
  In StSetup (map stage_of (trace (snd run))) /\
  (exists e, fst run = Raise e) /\
  store_writes (snd run) = store_writes idle.
Proof.
  cbv zeta.
  split; [reflexivity|]. split; [reflexivity|]. split; [reflexivity|].
  split; [vm_compute; left; reflexivity|].
  apply (cancel_during_checked_stage_aborts early_cancel_world StSetup
           "local" "/data/talk.mp4" 1%Q None true idle
           (trace (snd (ingest_video early_cancel_world "local"
                                     "/data/talk.mp4" 1%Q None true idle))));
    [reflexivity|reflexivity|reflexivity|vm_compute; left; reflexivity].
Defined.

Lemma cancel_during_unchecked_stage_is_not_reported_witness :
  (forall s, cancel_during late_cancel_world s = true ->
             seen_before_write late_cancel_world s = false) /\
  fst (ingest_video late_cancel_world "local" "/data/talk.mp4" 1%Q None true
                    idle)
  <> Raise Cancelled.
Proof.
  assert (Hlate : forall s, cancel_during late_cancel_world s = true ->
                            seen_before_write late_cancel_world s = false).
  { intros s. destruct s; cbn; intros Hs; reflexivity || discriminate Hs. }
  split; [exact Hlate|].
  apply (cancel_during_unchecked_stage_is_not_reported late_cancel_world
           "local" "/data/talk.mp4" 1%Q None true idle Hlate).
Defined.

Lemma max_frames_caps_captioned_frames_witness :
  let run :=
    ingest_video quiet_world "local" "/data/talk.mp4" 1%Q (Some 1) true
                 idle in
  trace (snd run) = (trace idle ++ trace (snd run))%list /\
  In (EvCaptionFrames ["frame_000001.jpg"]) (trace (snd run)) /\
  Z.of_nat (length ["frame_000001.jpg"]) <= Z.max 1 0 /\
  forall all_files,
    extract_frames quiet_world 1%Q = Some all_files ->
    ["frame_000001.jpg"] `prefix_of` all_files.
Proof.
  cbv zeta.
  assert (Hin : In (EvCaptionFrames ["frame_000001.jpg"])
                   (trace (snd (ingest_video quiet_world "local"
                                  "/data/talk.mp4" 1%Q (Some 1) true idle)))).
  { vm_compute. repeat (first [left; reflexivity | right]). }
  split; [reflexivity|]. split; [exact Hin|].
  apply (max_frames_caps_captioned_frames quiet_world "local"
           "/data/talk.mp4" 1%Q 1 true idle
           (trace (snd (ingest_video quiet_world "local" "/data/talk.mp4"
                                     1%Q (Some 1) true idle)))
           ["frame_000001.jpg"]);
    [reflexivity|exact Hin].
Defined.
